(** * RPK (Rapid Picture Kompressor): the codec of [rpk.h]

    A shallow embedding of [rpk_encode], [rpk_decode], [rpk_write] and
    [rpk_read] with the macros they use ([HASH], [EQCOLOR], [PACKRUN],
    [LRS], [MIN], [RPK_READ], [RPK_PRINT]), and the properties of the
    format proved or refuted on that embedding.

    Conventions.  Every C integer is a [Z]; a conversion to a narrower
    unsigned type is written out with [mod].  A [color] is the four bytes of
    the C union; [rgba] is the 32-bit view of the same storage.  The cache
    [color cache[128]] and the argument scratch [uint8_t buffer[128]] are
    lists of length 128.  A write past the end of [buffer] has no defined
    behaviour in C: the encoder model stops with [Overrun] there.  A division
    by zero has none either: [rpk_write] is [None] there.  Files are lists of
    bytes; [fread] takes bytes from the front of the unread input.  The
    decoder is modelled for the channel counts that fit the four bytes of a
    [color]; with more, [rpk_decode] reads and copies past [current], which C
    leaves undefined and the model does not describe. *)

From Stdlib Require Import ZArith List Bool Lia.
Import ListNotations.
Local Open Scope Z_scope.

(* ================================================================= *)
(** ** Colours *)

(** [typedef union { uint32_t rgba; struct { unsigned char red, green,
    blue, alpha; }; } color;] *)
Record color : Type := mkColor {
  red : Z;
  green : Z;
  blue : Z;
  alpha : Z
}.

(** The [rgba] member: the four bytes read as one 32-bit word, [red] at the
    lowest address. *)
Definition rgba (c : color) : Z :=
  red c + 256 * green c + 65536 * blue c + 16777216 * alpha c.

(** Storing a 32-bit word through [rgba] and reading the bytes back. *)
Definition color_of_rgba (x : Z) : color :=
  {| red := Z.land x 255;
     green := Z.land (Z.shiftr x 8) 255;
     blue := Z.land (Z.shiftr x 16) 255;
     alpha := Z.land (Z.shiftr x 24) 255 |}.

Definition is_byte (x : Z) : Prop := 0 <= x < 256.

Definition wf_color (c : color) : Prop :=
  is_byte (red c) /\ is_byte (green c) /\ is_byte (blue c) /\ is_byte (alpha c).

(** [color cache[128] = {0}] stores this pixel in every slot. *)
Definition zero_color : color := mkColor 0 0 0 0.

(** [color current = (color){.alpha=255}] *)
Definition init_color : color := mkColor 0 0 0 255.

(** [color type2mask = (color){.red = 0xE0,.green = 0xC0,.blue = 0xE0,.alpha=0xFF}] *)
Definition type2mask : color := mkColor 0xE0 0xC0 0xE0 0xFF.

(** [#define LRS(a,b) ((unsigned)(a)>>(b))] *)
Definition LRS (a b : Z) : Z := Z.shiftr a b.

(** [#define HASH(C) (((((88^C.red)*13^C.green)*13^C.blue)*13^C.alpha)&127)] *)
Definition HASH (c : color) : Z :=
  Z.land
    (Z.lxor (Z.lxor (Z.lxor (Z.lxor 88 (red c) * 13) (green c) * 13) (blue c) * 13)
            (alpha c))
    127.

(** [#define EQCOLOR(a,b) (a.rgba == b.rgba)] *)
Definition EQCOLOR (a b : color) : bool := rgba a =? rgba b.

(** [#define PACKRUN(type,length) (128+((type)<<5)+(length))] *)
Definition PACKRUN (type length : Z) : Z := 128 + Z.shiftl type 5 + length.

(** [#define MIN(a,b) ((a)>(b)?(b):(a))] *)
Definition MIN (a b : Z) : Z := if a >? b then b else a.

(** One [%c] conversion of [fprintf]: the [int] argument is converted to
    [unsigned char]. *)
Definition putc (x : Z) : Z := x mod 256.

(* ================================================================= *)
(** ** Arrays *)

Fixpoint upd {A : Type} (n : nat) (v : A) (l : list A) : list A :=
  match l, n with
  | [], _ => []
  | _ :: t, O => v :: t
  | h :: t, S m => h :: upd m v t
  end.

(** [cache[i]] *)
Definition cache_get (cache : list color) (i : Z) : color :=
  nth (Z.to_nat i) cache zero_color.

(** [cache[i] = c] *)
Definition cache_set (cache : list color) (i : Z) (c : color) : list color :=
  upd (Z.to_nat i) c cache.

Definition init_cache : list color := repeat zero_color 128.

(** Result of code that may write outside [buffer]. *)
Inductive res (A : Type) : Type :=
| Ok (a : A)
| Overrun (index : Z).
Arguments Ok {A} a.
Arguments Overrun {A} index.

Definition bind {A B : Type} (r : res A) (f : A -> res B) : res B :=
  match r with
  | Ok a => f a
  | Overrun i => Overrun i
  end.

Notation "x <- r ;; k" := (bind r (fun x => k))
  (at level 61, r at next level, right associativity).

(** [buffer[i] = v] on [uint8_t buffer[128]] *)
Definition buf_write (buffer : list Z) (i v : Z) : res (list Z) :=
  if (0 <=? i) && (i <? 128) then Ok (upd (Z.to_nat i) v buffer) else Overrun i.

(* ================================================================= *)
(** ** The encoder, [rpk_encode] *)

(** The locals of [rpk_encode] that live across pixels, with the bytes
    written to [outfile] so far. *)
Record enc_state : Type := mkEnc {
  e_cache : list color;
  e_current : color;
  e_runtype : Z;          (* uint8_t, -1 is stored as 255 *)
  e_run : Z;              (* uint32_t *)
  e_buffer : list Z;
  e_ct : Z;
  e_out : list Z
}.

(** State at the top of [rpk_encode]; the bytes of the uninitialised
    [buffer] are never read before they are written and are taken as 0. *)
Definition enc_init : enc_state :=
  {| e_cache := init_cache;
     e_current := init_color;
     e_runtype := 255;
     e_run := 0;
     e_buffer := repeat 0 128;
     e_ct := 0;
     e_out := [] |}.

Definition set_current (s : enc_state) (c : color) : enc_state :=
  mkEnc (e_cache s) c (e_runtype s) (e_run s) (e_buffer s) (e_ct s) (e_out s).
Definition set_run (s : enc_state) (t r : Z) : enc_state :=
  mkEnc (e_cache s) (e_current s) t r (e_buffer s) (e_ct s) (e_out s).
Definition set_buffer (s : enc_state) (b : list Z) : enc_state :=
  mkEnc (e_cache s) (e_current s) (e_runtype s) (e_run s) b (e_ct s) (e_out s).
Definition set_cache (s : enc_state) (c : list color) : enc_state :=
  mkEnc c (e_current s) (e_runtype s) (e_run s) (e_buffer s) (e_ct s) (e_out s).
(** [fprintf]/[fwrite] of [bytes] with [ct += n] *)
Definition emit (s : enc_state) (bytes : list Z) (n : Z) : enc_state :=
  mkEnc (e_cache s) (e_current s) (e_runtype s) (e_run s) (e_buffer s)
        (e_ct s + n) (e_out s ++ bytes).

(** Bytes of the pending run, the part of [RPK_PRINT] under [if (run)]:
    the RUN opcode and, for types 1 to 3, the buffered arguments. *)
Definition run_bytes (channels runtype run : Z) (buffer : list Z) : list Z :=
  if run =? 0 then []
  else if negb (runtype =? 0) then
    putc (PACKRUN runtype (run - 1))
      :: firstn (Z.to_nat (MIN (Z.shiftl 1 (runtype - 1)) channels * run)) buffer
  else if run <=? 16 then [putc (PACKRUN runtype (run - 1))]
  else
    let run := run - 17 in
    if run <? Z.shiftl 1 11 then
      [putc (PACKRUN runtype (16 + LRS run 8)); putc (Z.land run 0xFF)]
    else
      let run := run - Z.shiftl 1 11 in
      [putc (PACKRUN runtype (24 + LRS run 16));
       putc (Z.land (LRS run 8) 0xFF); putc (Z.land run 0xFF)].

(** [RPK_PRINT(b)] *)
Definition RPK_PRINT (channels b : Z) (s : enc_state) : enc_state :=
  let s1 :=
    if e_run s =? 0 then s
    else if negb (e_runtype s =? 0) then
      let n := MIN (Z.shiftl 1 (e_runtype s - 1)) channels * e_run s in
      set_run (emit s (run_bytes channels (e_runtype s) (e_run s) (e_buffer s)) (n + 1))
              255 (e_run s)
    else if e_run s <=? 16 then
      emit s (run_bytes channels (e_runtype s) (e_run s) (e_buffer s)) 1
    else if e_run s - 17 <? Z.shiftl 1 11 then
      emit s (run_bytes channels (e_runtype s) (e_run s) (e_buffer s)) 2
    else
      emit s (run_bytes channels (e_runtype s) (e_run s) (e_buffer s)) 3 in
  let s2 := if b <? 128 then emit s1 [putc b] 1 else s1 in
  set_run s2 (e_runtype s2) 0.

(** [diff.rgba = current.rgba^last.rgba] *)
Definition color_xor (a b : color) : color :=
  color_of_rgba (Z.lxor (rgba a) (rgba b)).

(** [!(diff.rgba&0xFCFCFCFC)] *)
Definition small_diff (diff : color) : bool :=
  Z.land (rgba diff) 0xFCFCFCFC =? 0.

(** [!(diff.rgba&type2mask.rgba)] *)
Definition type2_diff (diff : color) : bool :=
  Z.land (rgba diff) (rgba type2mask) =? 0.

(** The argument byte of a type-1 run:
    [(diff.alpha|diff.blue<<2|diff.green<<4|diff.red<<6)&0xFF] *)
Definition type1_arg (diff : color) : Z :=
  Z.land
    (Z.lor (Z.lor (Z.lor (alpha diff) (Z.shiftl (blue diff) 2))
                  (Z.shiftl (green diff) 4))
           (Z.shiftl (red diff) 6))
    0xFF.

(** The two argument bytes of a type-2 run:
    [(diff.red<<3|LRS(diff.green,3))&0xFF] and
    [(diff.green<<5|diff.blue&0x1F)&0xFF] *)
Definition type2_arg0 (diff : color) : Z :=
  Z.land (Z.lor (Z.shiftl (red diff) 3) (LRS (green diff) 3)) 0xFF.
Definition type2_arg1 (diff : color) : Z :=
  Z.land (Z.lor (Z.shiftl (green diff) 5) (Z.land (blue diff) 0x1F)) 0xFF.

(** [if (c) { RPK_PRINT(128); run=0; }] *)
Definition flush_if (channels : Z) (c : bool) (s : enc_state) : enc_state :=
  if c then
    let s1 := RPK_PRINT channels 128 s in set_run s1 (e_runtype s1) 0
  else s.

(** From the label [smalldiff] to the end of that block:
    [buffer[run++]=...; runtype=1;] *)
Definition smalldiff (s : enc_state) (diff : color) : res enc_state :=
  b <- buf_write (e_buffer s) (e_run s) (type1_arg diff) ;;
  Ok (set_run (set_buffer s b) 1 (e_run s + 1)).

(** The type-2 block after its flush test. *)
Definition type2_block (s : enc_state) (diff : color) : res enc_state :=
  b0 <- buf_write (e_buffer s) (e_run s * 2) (type2_arg0 diff) ;;
  b1 <- buf_write b0 (e_run s * 2 + 1) (type2_arg1 diff) ;;
  Ok (set_run (set_buffer s b1) 2 (e_run s + 1)).

(** The type-3 block after its flush test. *)
Definition type3_block (channels : Z) (s : enc_state) : res enc_state :=
  let c := e_current s in
  b0 <- buf_write (e_buffer s) (e_run s * channels) (red c) ;;
  b1 <- buf_write b0 (e_run s * channels + 1) (green c) ;;
  b2 <- buf_write b1 (e_run s * channels + 2) (blue c) ;;
  b3 <- (if channels =? 4 then buf_write b2 (e_run s * 4 + 3) (alpha c) else Ok b2) ;;
  Ok (set_run (set_buffer s b3) 3 (e_run s + 1)).

(** [cache[HASH(current)]=current;] *)
Definition cache_current (s : enc_state) : enc_state :=
  set_cache s (cache_set (e_cache s) (HASH (e_current s)) (e_current s)).

(** One iteration of [for (i=0;i<width;i+=1)] with [row[i] = px]. *)
Definition encode_pixel (channels : Z) (s : enc_state) (px : color) : res enc_state :=
  let last := e_current s in
  let s := set_current s px in
  if EQCOLOR px last then
    if (e_runtype s =? 0) && (e_run s <? 526352) then
      Ok (set_run s (e_runtype s) (e_run s + 1))
    else
      Ok (set_run (RPK_PRINT channels 128 s) 0 1)
  else
    let diff := color_xor px last in
    if small_diff diff && negb (e_run s =? 0) && (e_runtype s =? 1) then
      s' <- smalldiff s diff ;; Ok (cache_current s')
    else if EQCOLOR px (cache_get (e_cache s) (HASH px)) then
      Ok (RPK_PRINT channels (HASH px) s)
    else
      s' <- (if small_diff diff && negb (e_runtype s =? 2) then
               smalldiff
                 (flush_if channels
                    ((negb (e_run s =? 0) && negb (e_runtype s =? 1)) || (e_run s =? 32)) s)
                 diff
             else if type2_diff diff then
               type2_block
                 (flush_if channels
                    ((negb (e_run s =? 0) && negb (e_runtype s =? 2)) || (e_run s =? 32)) s)
                 diff
             else
               type3_block channels
                 (flush_if channels
                    ((negb (e_run s =? 0) && negb (e_runtype s =? 3)) || (e_run s =? 32)) s)) ;;
      Ok (cache_current s').

(** The [for] loop over one row. *)
Fixpoint encode_row (channels : Z) (s : enc_state) (row : list color) : res enc_state :=
  match row with
  | [] => Ok s
  | px :: rest => s' <- encode_pixel channels s px ;; encode_row channels s' rest
  end.

(** [SPNG_EOI] of the PNG library's header [spng.h].  The codec only compares
    return codes with it and with 0. *)
Definition SPNG_EOI : Z := 75.

(** The [while] loop of [rpk_encode].  [calls] lists what the successive calls
    of [spng_decode_row] give: the return code, an [int], and the contents of
    [row] after the call.  The code is stored in [uint8_t ret], which keeps it
    modulo 256.  The loop runs its body when [ret] is 0, or when it is
    [SPNG_EOI] and the call before gave 0 ([lastrow]); it ends at the first
    call that gives neither (and when [calls] has no more entries). *)
Fixpoint encode_rows (channels : Z) (calls : list (Z * list color)) (lastrow : bool)
    (s : enc_state) : res enc_state :=
  match calls with
  | [] => Ok s
  | (ret, row) :: rest =>
    if (ret mod 256 =? 0) || (lastrow && (ret mod 256 =? SPNG_EOI)) then
      s' <- encode_row channels s row ;;
      encode_rows channels rest (ret mod 256 =? 0) s'
    else Ok s
  end.

(** [rpk_encode]: the loop, then [RPK_PRINT(0)].  The function always returns
    0; the result here is the final state, whose [e_out] are the bytes written
    to [outfile] and whose [e_ct] is stored in [*outlen]. *)
Definition rpk_encode (channels : Z) (calls : list (Z * list color)) : res enc_state :=
  s <- encode_rows channels calls false enc_init ;;
  Ok (RPK_PRINT channels 0 s).

(** The pixel loop alone: all pixels of the image in raster order. *)
Definition encode_pixels (channels : Z) (pixels : list color) : res enc_state :=
  encode_row channels enc_init pixels.

(** What [spng_decode_row] gives for an image with the rows [rows]: every row
    but the last comes with code 0, the last row comes with [SPNG_EOI], and a
    call after that gives [SPNG_EOI] again and leaves [row] as it was. *)
Fixpoint spng_decode_rows (rows : list (list color)) : list (Z * list color) :=
  match rows with
  | [] => []
  | [r] => [(SPNG_EOI, r); (SPNG_EOI, r)]
  | r :: rest => (0, r) :: spng_decode_rows rest
  end.

(* ================================================================= *)
(** ** The decoder, [rpk_decode] *)

Record dec_state : Type := mkDec {
  d_cache : list color;
  d_current : color;
  d_runtype : Z;          (* uint8_t *)
  d_run : Z               (* uint32_t *)
}.

(** State at the top of [rpk_decode]; [runtype] is uninitialised there and is
    assigned by the first RUN opcode before it is read. *)
Definition dec_init : dec_state :=
  {| d_cache := init_cache; d_current := init_color; d_runtype := 0; d_run := 0 |}.

(** [#define RPK_READ(a,b,c,d) if (fread(a,b,c,d)!=c) return -1] with [b = 1]:
    [None] is the [return -1], otherwise the [c] bytes read and the unread
    rest of the file. *)
Definition RPK_READ (c : Z) (infile : list Z) : option (list Z * list Z) :=
  if Z.of_nat (length infile) <? c then None
  else Some (firstn (Z.to_nat c) infile, skipn (Z.to_nat c) infile).

(** Bytes stored at the start of a [color] (the target of [fread(&current,
    1, channels, infile)] with [channels <= 4]; with more channels the read
    runs past [current], which is not modelled). *)
Definition store_bytes (c : color) (bytes : list Z) : color :=
  match bytes with
  | [] => c
  | [r] => mkColor r (green c) (blue c) (alpha c)
  | [r; g] => mkColor r g (blue c) (alpha c)
  | [r; g; b] => mkColor r g b (alpha c)
  | r :: g :: b :: a :: _ => mkColor r g b a
  end.

(** [runtype = LRS(cbyte&0x60,5); run = (cbyte&0x1F); if (!runtype) {...}
    run++;]: the run type and the run length of a RUN opcode. *)
Definition read_run (cbyte : Z) (infile : list Z) : option (Z * Z * list Z) :=
  let runtype := LRS (Z.land cbyte 0x60) 5 in
  let run := Z.land cbyte 0x1F in
  if (runtype =? 0) && (run >=? 16) then
    let run := Z.land run 15 in
    match
      (if run >=? 8 then
         let run := Z.land run 7 in
         match RPK_READ 1 infile with
         | Some (tempbyte :: _, infile1) =>
           Some (Z.lor (Z.shiftl run 8) tempbyte + 8, infile1)
         | _ => None
         end
       else Some (run, infile))
    with
    | Some (run, infile1) =>
      match RPK_READ 1 infile1 with
      | Some (tempbyte :: _, infile2) =>
        Some (runtype, Z.lor (Z.shiftl run 8) tempbyte + 16 + 1, infile2)
      | _ => None
      end
    | None => None
    end
  else Some (runtype, run + 1, infile).

(** [switch (runtype)]: the next colour of a run. *)
Definition run_color (channels runtype : Z) (current : color) (infile : list Z)
  : option (color * list Z) :=
  if runtype =? 1 then
    match RPK_READ 1 infile with
    | Some (tempbyte :: _, infile1) =>
      Some (mkColor (Z.lxor (red current) (Z.land (LRS tempbyte 6) 3))
                    (Z.lxor (green current) (Z.land (LRS tempbyte 4) 3))
                    (Z.lxor (blue current) (Z.land (LRS tempbyte 2) 3))
                    (if channels >? 3 then Z.lxor (alpha current) (Z.land tempbyte 3)
                     else alpha current),
            infile1)
    | _ => None
    end
  else if runtype =? 2 then
    match RPK_READ 2 infile with
    | Some (tred :: tgreen :: _, infile1) =>
      Some (mkColor (Z.lxor (red current) (Z.land (LRS tred 3) 0x1F))
                    (Z.lxor (green current)
                            (Z.lor (Z.shiftl (Z.land tred 7) 3) (LRS tgreen 5)))
                    (Z.lxor (blue current) (Z.land tgreen 0x1F))
                    (alpha current),
            infile1)
    | _ => None
    end
  else if runtype =? 3 then
    match RPK_READ channels infile with
    | Some (bytes, infile1) => Some (store_bytes current bytes, infile1)
    | None => None
    end
  else Some (current, infile).

(** From the label [runcont] to the end of [case 0x80]:
    [run--; switch (runtype) {...} cache[HASH(current)]=current;] *)
Definition runcont (channels : Z) (d : dec_state) (infile : list Z)
  : option (dec_state * list Z) :=
  match run_color channels (d_runtype d) (d_current d) infile with
  | Some (c, infile1) =>
    Some (mkDec (cache_set (d_cache d) (HASH c) c) c (d_runtype d) (d_run d - 1), infile1)
  | None => None
  end.

(** One iteration of [for (i=0;i<channels*width;i+=channels)] up to the
    [memcpy]: the state after the pixel and the unread input. *)
Definition decode_pixel (channels : Z) (d : dec_state) (infile : list Z)
  : option (dec_state * list Z) :=
  if negb (d_run d =? 0) then runcont channels d infile
  else
    match RPK_READ 1 infile with
    | Some (cbyte :: _, infile1) =>
      if Z.land cbyte 0x80 =? 0 then
        Some (mkDec (d_cache d) (cache_get (d_cache d) cbyte) (d_runtype d) (d_run d),
              infile1)
      else
        match read_run cbyte infile1 with
        | Some (runtype, run, infile2) =>
          runcont channels (mkDec (d_cache d) (d_current d) runtype run) infile2
        | None => None
        end
    | _ => None
    end.

(** [memcpy(row+i,&current,channels)]: the bytes of one output pixel, for
    [channels <= 4]; with more channels the copy runs past [current], which
    is not modelled. *)
Definition pixel_bytes (channels : Z) (c : color) : list Z :=
  firstn (Z.to_nat channels) [red c; green c; blue c; alpha c].

(** [n] iterations of the [for] loop: the state, the bytes appended to the
    output and the unread input. *)
Fixpoint decode_pixels (channels : Z) (n : nat) (d : dec_state) (infile : list Z)
  : option (dec_state * list Z * list Z) :=
  match n with
  | O => Some (d, [], infile)
  | S m =>
    match decode_pixel channels d infile with
    | Some (d1, infile1) =>
      match decode_pixels channels m d1 infile1 with
      | Some (d2, out, infile2) =>
        Some (d2, pixel_bytes channels (d_current d1) ++ out, infile2)
      | None => None
      end
    | None => None
    end
  end.

(** Pixels of a row of [n] that the [for] loop has decoded, and counted in
    [*outlen], when a read fails. *)
Fixpoint decoded_pixels (channels : Z) (n : nat) (d : dec_state) (infile : list Z)
  : nat :=
  match n with
  | O => O
  | S m =>
    match decode_pixel channels d infile with
    | Some (d1, infile1) => S (decoded_pixels channels m d1 infile1)
    | None => O
    end
  end.

(** Outcome of [rpk_decode]: the returned [int], [*outlen], the rows handed to
    [spng_encode_row] and the unread input. *)
Record dec_result : Type := mkDecResult {
  r_ret : Z;
  r_outlen : Z;
  r_rows : list (list Z);
  r_rest : list Z
}.

(** The [do ... while (!ret)] loop.  [rets] lists the return codes of the
    successive calls of [spng_encode_row]; when none is left the call is
    taken to fail.  When a read fails in a row, [*outlen] has been advanced by
    [channels] for each pixel of the row decoded before, the row is not handed
    over, and the failed [fread] has taken all the bytes that were left. *)
Fixpoint decode_rows (channels : Z) (width : nat) (rets : list Z) (d : dec_state)
    (infile : list Z) (outlen : Z) (rows : list (list Z)) : dec_result :=
  match decode_pixels channels width d infile with
  | None =>
    mkDecResult (-1)
      (outlen + channels * Z.of_nat (decoded_pixels channels width d infile)) rows []
  | Some (d1, row, infile1) =>
    let outlen1 := outlen + channels * Z.of_nat width in
    match rets with
    | [] => mkDecResult 1 outlen1 (rows ++ [row]) infile1
    | ret :: rets1 =>
      if ret =? 0 then decode_rows channels width rets1 d1 infile1 outlen1 (rows ++ [row])
      else mkDecResult (if ret =? SPNG_EOI then 0 else 1) outlen1 (rows ++ [row]) infile1
    end
  end.

(** What [spng_encode_row] returns for an image of [height] rows: 0 for every
    row but the last, [SPNG_EOI] for the last. *)
Definition spng_encode_rets (height : nat) : list Z :=
  repeat 0 (height - 1) ++ [SPNG_EOI].

Definition rpk_decode (infile : list Z) (width : nat) (rets : list Z) (channels : Z)
  : dec_result :=
  decode_rows channels width rets dec_init infile 0 [].

(* ================================================================= *)
(** ** The file framing, [rpk_write] and [rpk_read] *)

(** [temp = htonl(x); fwrite(&temp, 1, 4, outf)]: the four bytes of a
    [uint32_t], most significant first. *)
Definition be32 (x : Z) : list Z :=
  [Z.land (Z.shiftr x 24) 255; Z.land (Z.shiftr x 16) 255;
   Z.land (Z.shiftr x 8) 255; Z.land x 255].

(** [ntohl] of the [uint32_t] stored as the bytes [b0 b1 b2 b3]. *)
Definition ntohl (b0 b1 b2 b3 : Z) : Z :=
  b0 * 16777216 + b1 * 65536 + b2 * 256 + b3.

(** The bytes of ["rpk"]. *)
Definition magic_rpk : list Z := [114; 112; 107].

(** What [rpk_write] gets from the PNG reader once the file is open: the
    height and colour type of the IHDR chunk, the size of the image decoded as
    RGBA8 and the results of the calls of [spng_decode_row]. *)
Record png_source : Type := mkPng {
  ihdr_height : Z;
  ihdr_color_type : Z;
  byte_len : Z;
  png_calls : list (Z * list color)
}.

(** The 13 bytes written under ["//Write file header"]. *)
Definition rpk_header (width height channels colorspace : Z) : list Z :=
  magic_rpk ++ be32 width ++ be32 height ++ [putc channels; putc colorspace].

(** [desc.channels = 3+(ihdr.color_type>>2&1)] *)
Definition desc_channels (p : png_source) : Z :=
  (3 + Z.land (Z.shiftr (ihdr_color_type p) 2) 1) mod 256.

(** [rpk_write] from [width = byte_len / (4*ihdr.height)] on, for a PNG file
    that the reader opened without error: the returned [size] and the bytes of
    the output file.  [ihdr.height] is a [uint32_t], so [4*ihdr.height] is
    computed modulo 2^32; where it is 0 the division has no defined behaviour
    in C: [None].  Each row of [png_calls] holds the [width] pixels of
    [color row[width]]. *)
Definition rpk_write (p : png_source) : option (res (Z * list Z)) :=
  let divisor := (4 * ihdr_height p) mod 4294967296 in
  if divisor =? 0 then None
  else
    let width := byte_len p / divisor in
    let desc_width := width mod 4294967296 in
    let desc_height := ihdr_height p in
    let desc_colorspace := 0 in
    Some (s <- rpk_encode (desc_channels p) (png_calls p) ;;
          Ok (e_ct s,
              rpk_header desc_width desc_height (desc_channels p) desc_colorspace
                ++ e_out s ++ [0; 0; 0; 0; 0; 0; 1])).

(** The PNG source of an image given by its rows, its width, its height and the
    colour type of its IHDR chunk. *)
Definition png_of_image (width height color_type : Z) (rows : list (list color))
  : png_source :=
  mkPng height color_type (4 * width * height) (spng_decode_rows rows).

(** Outcome of [rpk_read]: the returned [size_t] (with [(size_t)-1] written
    [-1]), the rows handed to the PNG writer and the unread input. *)
Record read_result : Type := mkReadResult {
  rd_ret : Z;
  rd_rows : list (list Z);
  rd_rest : list Z
}.

Fixpoint bytes_eqb (a b : list Z) : bool :=
  match a, b with
  | [], [] => true
  | x :: a', y :: b' => (x =? y) && bytes_eqb a' b'
  | _, _ => false
  end.

Section Read.

(** Return code of [spng_set_ihdr] for a header with the given width,
    height and colour type (bit depth 8), and return code of
    [spng_encode_image]. *)
Variable spng_set_ihdr : Z -> Z -> Z -> Z.
Variable spng_encode_image : Z.

(** [rpk_read] from ["//Check magic string"] on, for files that were opened
    without error. *)
Definition rpk_read (file : list Z) : read_result :=
  let magic := firstn 3 file in
  let file1 := skipn 3 file in
  if negb (length magic =? 3)%nat || negb (bytes_eqb magic magic_rpk) then
    mkReadResult (-1) [] file1
  else
    let desc := firstn 10 file1 in
    let file2 := skipn 10 file1 in
    match desc with
    | [w0; w1; w2; w3; h0; h1; h2; h3; channels; colorspace] =>
      let width := ntohl w0 w1 w2 w3 in
      let height := ntohl h0 h1 h2 h3 in
      let color_type := (4 * channels - 10) mod 256 in
      if negb (spng_set_ihdr width height color_type =? 0) then
        mkReadResult (-1) [] file2
      else if negb (spng_encode_image =? 0) then
        mkReadResult (-1) [] file2
      else
        let r := rpk_decode file2 (Z.to_nat width)
                   (spng_encode_rets (Z.to_nat height)) channels in
        if negb (r_ret r =? 0) then mkReadResult (-1) (r_rows r) (r_rest r)
        else mkReadResult (r_outlen r) (r_rows r) (r_rest r)
    | _ => mkReadResult (-1) [] file2
    end.

End Read.

(* ================================================================= *)
(** * Properties *)

(** ** Arrays and bytes *)

Lemma length_upd {A : Type} (n : nat) (v : A) (l : list A) :
  length (upd n v l) = length l.
Proof.
  revert n; induction l as [|h t IH]; intros [|n]; simpl; auto.
Qed.

Lemma nth_upd_eq {A : Type} (n : nat) (v d : A) (l : list A) :
  (n < length l)%nat -> nth n (upd n v l) d = v.
Proof.
  revert n; induction l as [|h t IH]; intros [|n] H; simpl in *; try lia; auto.
  apply IH; lia.
Qed.

Lemma nth_upd_neq {A : Type} (n m : nat) (v d : A) (l : list A) :
  n <> m -> nth m (upd n v l) d = nth m l d.
Proof.
  revert n m; induction l as [|h t IH]; intros [|n] [|m] H; simpl; auto;
    contradiction.
Qed.

Lemma upd_same {A : Type} (n : nat) (d : A) (l : list A) :
  upd n (nth n l d) l = l.
Proof.
  revert n; induction l as [|h t IH]; intros [|n]; simpl; auto.
  f_equal; apply IH.
Qed.

Lemma firstn_upd_ge {A : Type} (k n : nat) (v : A) (l : list A) :
  (k <= n)%nat -> firstn k (upd n v l) = firstn k l.
Proof.
  revert k n; induction l as [|h t IH]; intros [|k] [|n] H; simpl; auto; try lia.
  f_equal; apply IH; lia.
Qed.

Lemma firstn_S_upd {A : Type} (n : nat) (v : A) (l : list A) :
  (n < length l)%nat -> firstn (S n) (upd n v l) = firstn n l ++ [v].
Proof.
  revert n; induction l as [|h t IH]; intros [|n] H; simpl in *; try lia; auto.
  f_equal; apply IH; lia.
Qed.

Lemma HASH_range (c : color) : 0 <= HASH c < 128.
Proof.
  unfold HASH. change 127 with (Z.ones 7).
  rewrite Z.land_ones by lia. apply Z.mod_pos_bound. lia.
Qed.

Lemma cache_get_set_eq (cache : list color) (i : Z) (c : color) :
  0 <= i < Z.of_nat (length cache) -> cache_get (cache_set cache i c) i = c.
Proof.
  intros H. unfold cache_get, cache_set. apply nth_upd_eq. lia.
Qed.

Lemma cache_get_set_neq (cache : list color) (i j : Z) (c : color) :
  0 <= i -> 0 <= j -> i <> j -> cache_get (cache_set cache i c) j = cache_get cache j.
Proof.
  intros Hi Hj H. unfold cache_get, cache_set. apply nth_upd_neq. lia.
Qed.

Lemma length_cache_set (cache : list color) (i : Z) (c : color) :
  length (cache_set cache i c) = length cache.
Proof. apply length_upd. Qed.

Lemma cache_set_same (cache : list color) (i : Z) :
  cache_set cache i (cache_get cache i) = cache.
Proof. apply upd_same. Qed.

Lemma cache_get_init (i : Z) : cache_get init_cache i = zero_color.
Proof.
  unfold cache_get, init_cache.
  destruct (Nat.lt_ge_cases (Z.to_nat i) 128) as [H | H].
  - apply nth_repeat_lt. exact H.
  - apply nth_overflow. rewrite repeat_length. exact H.
Qed.

(** The integers [0 .. n-1], for checking a property of small numbers by
    evaluation. *)
Definition zrange (n : nat) : list Z := map Z.of_nat (seq 0 n).

Lemma zrange_forall (P : Z -> bool) (n : nat) :
  forallb P (zrange n) = true -> forall x, 0 <= x < Z.of_nat n -> P x = true.
Proof.
  intros H x Hx. rewrite forallb_forall in H. apply H.
  unfold zrange. apply in_map_iff. exists (Z.to_nat x). split; [lia|].
  apply in_seq. lia.
Qed.

Lemma zrange_forall2 (P : Z -> Z -> bool) (n m : nat) :
  forallb (fun a => forallb (P a) (zrange m)) (zrange n) = true ->
  forall a b, 0 <= a < Z.of_nat n -> 0 <= b < Z.of_nat m -> P a b = true.
Proof.
  intros H a b Ha Hb.
  apply (zrange_forall (P a) m); [|exact Hb].
  apply (zrange_forall (fun a => forallb (P a) (zrange m)) n H a Ha).
Qed.

Lemma land_255_byte (x : Z) : is_byte (Z.land x 255).
Proof.
  unfold is_byte. change 255 with (Z.ones 8). rewrite Z.land_ones by lia.
  apply Z.mod_pos_bound. lia.
Qed.

Lemma land_lxor_distr (a b c : Z) :
  Z.land (Z.lxor a b) c = Z.lxor (Z.land a c) (Z.land b c).
Proof.
  apply Z.bits_inj'. intros i Hi.
  rewrite Z.land_spec, !Z.lxor_spec, !Z.land_spec.
  destruct (Z.testbit a i), (Z.testbit b i), (Z.testbit c i); reflexivity.
Qed.

Lemma land_land_255 (a b : Z) :
  Z.land (Z.land a 255) (Z.land b 255) = Z.land (Z.land a b) 255.
Proof.
  apply Z.bits_inj'. intros i Hi.
  rewrite !Z.land_spec.
  destruct (Z.testbit a i), (Z.testbit b i), (Z.testbit 255 i); reflexivity.
Qed.

Lemma land_shiftl_small (a b n : Z) :
  0 <= n -> 0 <= b < 2 ^ n -> Z.land (Z.shiftl a n) b = 0.
Proof.
  intros Hn Hb. apply Z.bits_inj'. intros i Hi.
  rewrite Z.land_spec, Z.bits_0.
  destruct (Z.lt_ge_cases i n) as [Hlt | Hge].
  - rewrite Z.shiftl_spec_low by lia. reflexivity.
  - rewrite <- (Z.mod_small b (2 ^ n)) by lia.
    rewrite Z.mod_pow2_bits_high by lia. apply andb_false_r.
Qed.

Lemma lor_shiftl_add (a b n : Z) :
  0 <= n -> 0 <= b < 2 ^ n -> Z.lor (Z.shiftl a n) b = a * 2 ^ n + b.
Proof.
  intros Hn Hb.
  rewrite <- Z.lxor_lor by (apply land_shiftl_small; lia).
  rewrite <- Z.add_nocarry_lxor by (apply land_shiftl_small; lia).
  rewrite Z.shiftl_mul_pow2 by lia. reflexivity.
Qed.

Lemma lxor_cancel (p q : Z) : Z.lxor q (Z.lxor p q) = p.
Proof.
  rewrite (Z.lxor_comm p q), <- Z.lxor_assoc, Z.lxor_nilpotent. apply Z.lxor_0_l.
Qed.

(** ** The two views of a colour *)

Lemma rgba_red (c : color) : wf_color c -> Z.land (rgba c) 255 = red c.
Proof.
  intros (Hr & Hg & Hb & Ha). unfold is_byte in *. unfold rgba.
  change 255 with (Z.ones 8). rewrite Z.land_ones by lia.
  change (2 ^ 8) with 256. Z.div_mod_to_equations. lia.
Qed.

Lemma rgba_green (c : color) : wf_color c -> Z.land (Z.shiftr (rgba c) 8) 255 = green c.
Proof.
  intros (Hr & Hg & Hb & Ha). unfold is_byte in *. unfold rgba.
  change 255 with (Z.ones 8). rewrite Z.land_ones, Z.shiftr_div_pow2 by lia.
  change (2 ^ 8) with 256. Z.div_mod_to_equations. lia.
Qed.

Lemma rgba_blue (c : color) : wf_color c -> Z.land (Z.shiftr (rgba c) 16) 255 = blue c.
Proof.
  intros (Hr & Hg & Hb & Ha). unfold is_byte in *. unfold rgba.
  change 255 with (Z.ones 8). rewrite Z.land_ones, Z.shiftr_div_pow2 by lia.
  change (2 ^ 8) with 256. change (2 ^ 16) with 65536. Z.div_mod_to_equations. lia.
Qed.

Lemma rgba_alpha (c : color) : wf_color c -> Z.land (Z.shiftr (rgba c) 24) 255 = alpha c.
Proof.
  intros (Hr & Hg & Hb & Ha). unfold is_byte in *. unfold rgba.
  change 255 with (Z.ones 8). rewrite Z.land_ones, Z.shiftr_div_pow2 by lia.
  change (2 ^ 8) with 256. change (2 ^ 24) with 16777216. Z.div_mod_to_equations. lia.
Qed.

Lemma color_of_rgba_wf (x : Z) : wf_color (color_of_rgba x).
Proof. repeat split; apply land_255_byte. Qed.

Lemma rgba_inj (a b : color) : wf_color a -> wf_color b -> rgba a = rgba b -> a = b.
Proof.
  intros (Hr & Hg & Hb & Ha) (Hr' & Hg' & Hb' & Ha') H.
  destruct a as [r g b0 a0], b as [r' g' b' a'].
  unfold rgba, is_byte in *; cbn [red green blue alpha] in *.
  f_equal; lia.
Qed.

Lemma EQCOLOR_eq (a b : color) :
  wf_color a -> wf_color b -> EQCOLOR a b = true -> a = b.
Proof.
  intros Ha Hb H. apply rgba_inj; auto. apply Z.eqb_eq. exact H.
Qed.

Lemma EQCOLOR_refl (a : color) : EQCOLOR a a = true.
Proof. apply Z.eqb_refl. Qed.

Lemma color_xor_wf (a b : color) : wf_color (color_xor a b).
Proof. apply color_of_rgba_wf. Qed.

Lemma color_xor_fields (a b : color) :
  wf_color a -> wf_color b ->
  color_xor a b =
  mkColor (Z.lxor (red a) (red b)) (Z.lxor (green a) (green b))
          (Z.lxor (blue a) (blue b)) (Z.lxor (alpha a) (alpha b)).
Proof.
  intros Ha Hb. unfold color_xor, color_of_rgba.
  rewrite !Z.shiftr_lxor, !land_lxor_distr.
  rewrite !rgba_red, !rgba_green, !rgba_blue, !rgba_alpha by assumption.
  reflexivity.
Qed.

(** A mask test on the 32-bit view is the four mask tests on the bytes. *)
Lemma mask_fields (d m : color) :
  wf_color d -> wf_color m -> Z.land (rgba d) (rgba m) = 0 ->
  Z.land (red d) (red m) = 0 /\ Z.land (green d) (green m) = 0 /\
  Z.land (blue d) (blue m) = 0 /\ Z.land (alpha d) (alpha m) = 0.
Proof.
  intros Hd Hm H.
  rewrite <- (rgba_red d), <- (rgba_red m), <- (rgba_green d), <- (rgba_green m),
    <- (rgba_blue d), <- (rgba_blue m), <- (rgba_alpha d), <- (rgba_alpha m)
    by assumption.
  rewrite !land_land_255, <- !Z.shiftr_land, H.
  rewrite !Z.shiftr_0_l. repeat split; reflexivity.
Qed.

Lemma byte_mask_FC (x : Z) : is_byte x -> Z.land x 0xFC = 0 -> 0 <= x < 4.
Proof.
  intros Hx H.
  assert (F : forallb (fun x => implb (Z.land x 0xFC =? 0) (x <? 4)) (zrange 256)
              = true) by (vm_compute; reflexivity).
  pose proof (zrange_forall _ _ F x Hx) as E.
  cbv beta in E. rewrite H in E. cbn [Z.eqb implb] in E. unfold is_byte in Hx. lia.
Qed.

Lemma byte_mask_E0 (x : Z) : is_byte x -> Z.land x 0xE0 = 0 -> 0 <= x < 32.
Proof.
  intros Hx H.
  assert (F : forallb (fun x => implb (Z.land x 0xE0 =? 0) (x <? 32)) (zrange 256)
              = true) by (vm_compute; reflexivity).
  pose proof (zrange_forall _ _ F x Hx) as E.
  cbv beta in E. rewrite H in E. cbn [Z.eqb implb] in E. unfold is_byte in Hx. lia.
Qed.

Lemma byte_mask_C0 (x : Z) : is_byte x -> Z.land x 0xC0 = 0 -> 0 <= x < 64.
Proof.
  intros Hx H.
  assert (F : forallb (fun x => implb (Z.land x 0xC0 =? 0) (x <? 64)) (zrange 256)
              = true) by (vm_compute; reflexivity).
  pose proof (zrange_forall _ _ F x Hx) as E.
  cbv beta in E. rewrite H in E. cbn [Z.eqb implb] in E. unfold is_byte in Hx. lia.
Qed.

Lemma byte_mask_FF (x : Z) : is_byte x -> Z.land x 0xFF = 0 -> x = 0.
Proof.
  intros Hx H. unfold is_byte in Hx.
  change 0xFF with (Z.ones 8) in H. rewrite Z.land_ones in H by lia.
  rewrite Z.mod_small in H by (change (2 ^ 8) with 256; lia). exact H.
Qed.

(** [small_diff] says that every byte of the difference is below 4. *)
Lemma small_diff_fields (d : color) :
  wf_color d -> small_diff d = true ->
  0 <= red d < 4 /\ 0 <= green d < 4 /\ 0 <= blue d < 4 /\ 0 <= alpha d < 4.
Proof.
  intros Hd H. unfold small_diff in H. apply Z.eqb_eq in H.
  change 0xFCFCFCFC with (rgba (mkColor 0xFC 0xFC 0xFC 0xFC)) in H.
  apply mask_fields in H; [|exact Hd|repeat split; vm_compute; intuition discriminate].
  cbn [red green blue alpha] in H. destruct H as (H1 & H2 & H3 & H4).
  destruct Hd as (D1 & D2 & D3 & D4).
  repeat split; try (apply byte_mask_FC; assumption).
Qed.

(** [type2_diff] bounds red and blue by 32 and green by 64, and says that
    alpha did not change. *)
Lemma type2_diff_fields (d : color) :
  wf_color d -> type2_diff d = true ->
  0 <= red d < 32 /\ 0 <= green d < 64 /\ 0 <= blue d < 32 /\ alpha d = 0.
Proof.
  intros Hd H. unfold type2_diff in H. apply Z.eqb_eq in H.
  apply mask_fields in H; [|exact Hd|repeat split; vm_compute; intuition discriminate].
  cbn [red green blue alpha type2mask] in H. destruct H as (H1 & H2 & H3 & H4).
  destruct Hd as (D1 & D2 & D3 & D4).
  split; [apply byte_mask_E0; assumption|].
  split; [apply byte_mask_C0; assumption|].
  split; [apply byte_mask_E0; assumption|].
  apply byte_mask_FF; assumption.
Qed.

(** The argument byte of a type-1 run gives back the four 2-bit differences
    the way the decoder takes it apart. *)
Lemma type1_arg_fields (d : color) :
  0 <= red d < 4 -> 0 <= green d < 4 -> 0 <= blue d < 4 -> 0 <= alpha d < 4 ->
  is_byte (type1_arg d) /\
  Z.land (LRS (type1_arg d) 6) 3 = red d /\
  Z.land (LRS (type1_arg d) 4) 3 = green d /\
  Z.land (LRS (type1_arg d) 2) 3 = blue d /\
  Z.land (type1_arg d) 3 = alpha d.
Proof.
  intros Hr Hg Hb Ha. destruct d as [r g b a]. cbn [red green blue alpha] in *.
  split; [apply land_255_byte|].
  assert (Er : r = 0 \/ r = 1 \/ r = 2 \/ r = 3) by lia.
  assert (Eg : g = 0 \/ g = 1 \/ g = 2 \/ g = 3) by lia.
  assert (Eb : b = 0 \/ b = 1 \/ b = 2 \/ b = 3) by lia.
  assert (Ea : a = 0 \/ a = 1 \/ a = 2 \/ a = 3) by lia.
  destruct Er as [-> | [-> | [-> | ->]]], Eg as [-> | [-> | [-> | ->]]],
    Eb as [-> | [-> | [-> | ->]]], Ea as [-> | [-> | [-> | ->]]];
    vm_compute; repeat split.
Qed.

Definition type2_check (r g b : Z) : bool :=
  let d := mkColor r g b 0 in
  (Z.land (LRS (type2_arg0 d) 3) 0x1F =? r)
  && (Z.lor (Z.shiftl (Z.land (type2_arg0 d) 7) 3) (LRS (type2_arg1 d) 5) =? g)
  && (Z.land (type2_arg1 d) 0x1F =? b).

Lemma type2_check_all (r g b : Z) :
  0 <= r < 32 -> 0 <= g < 64 -> 0 <= b < 32 -> type2_check r g b = true.
Proof.
  intros Hr Hg Hb.
  apply (zrange_forall (type2_check r g) 32); [|exact Hb].
  apply (zrange_forall2 (fun r g => forallb (type2_check r g) (zrange 32)) 32 64);
    [vm_compute; reflexivity | exact Hr | exact Hg].
Qed.

(** The two argument bytes of a type-2 run give back the 5/6/5-bit differences
    the way the decoder takes them apart. *)
Lemma type2_arg_fields (d : color) :
  0 <= red d < 32 -> 0 <= green d < 64 -> 0 <= blue d < 32 ->
  is_byte (type2_arg0 d) /\ is_byte (type2_arg1 d) /\
  Z.land (LRS (type2_arg0 d) 3) 0x1F = red d /\
  Z.lor (Z.shiftl (Z.land (type2_arg0 d) 7) 3) (LRS (type2_arg1 d) 5) = green d /\
  Z.land (type2_arg1 d) 0x1F = blue d.
Proof.
  intros Hr Hg Hb.
  split; [apply land_255_byte|]. split; [apply land_255_byte|].
  pose proof (type2_check_all _ _ _ Hr Hg Hb) as H. unfold type2_check in H.
  apply andb_prop in H. destruct H as [H H3]. apply andb_prop in H. destruct H as [H1 H2].
  apply Z.eqb_eq in H1, H2, H3.
  unfold type2_arg0, type2_arg1 in *. cbn [red green blue alpha] in *.
  auto.
Qed.

(** ** The encoder state *)

Ltac esimpl :=
  cbn [e_cache e_current e_runtype e_run e_buffer e_ct e_out
       set_current set_run set_buffer set_cache emit cache_current] in *.

(** Bytes per pixel in the argument buffer of a run of type [t]:
    [MIN(1<<(runtype-1),channels)]. *)
Definition arg_width (channels t : Z) : Z := MIN (Z.shiftl 1 (t - 1)) channels.

Lemma arg_width_1 (channels : Z) : channels = 3 \/ channels = 4 -> arg_width channels 1 = 1.
Proof. intros [-> | ->]; reflexivity. Qed.

Lemma arg_width_2 (channels : Z) : channels = 3 \/ channels = 4 -> arg_width channels 2 = 2.
Proof. intros [-> | ->]; reflexivity. Qed.

Lemma arg_width_3 (channels : Z) :
  channels = 3 \/ channels = 4 -> arg_width channels 3 = channels.
Proof. intros [-> | ->]; reflexivity. Qed.

(** The buffered arguments of a pending run. *)
Definition run_args (channels t r : Z) (buffer : list Z) : list Z :=
  if t =? 0 then [] else firstn (Z.to_nat (arg_width channels t * r)) buffer.

(** What [RPK_PRINT(b)] leaves: cache, current pixel and buffer are kept, the
    run is empty, the run type is 255 after a run of type 1 to 3 and is kept
    otherwise, and the output grows by the bytes of the run and by [b] when
    [b < 128]. *)
Lemma RPK_PRINT_fields (channels b : Z) (s : enc_state) :
  e_cache (RPK_PRINT channels b s) = e_cache s /\
  e_current (RPK_PRINT channels b s) = e_current s /\
  e_buffer (RPK_PRINT channels b s) = e_buffer s /\
  e_run (RPK_PRINT channels b s) = 0 /\
  e_runtype (RPK_PRINT channels b s) =
    (if (e_run s =? 0) || (e_runtype s =? 0) then e_runtype s else 255) /\
  e_out (RPK_PRINT channels b s) =
    e_out s ++ run_bytes channels (e_runtype s) (e_run s) (e_buffer s)
            ++ (if b <? 128 then [putc b] else []).
Proof.
  unfold RPK_PRINT, run_bytes.
  destruct (e_run s =? 0) eqn:E0; [|destruct (e_runtype s =? 0) eqn:E1];
    cbn [negb orb];
    [| destruct (e_run s <=? 16); [|destruct (e_run s - 17 <? Z.shiftl 1 11)] |];
    destruct (b <? 128); esimpl;
    rewrite ?app_nil_r, <- ?app_assoc; cbn [app];
    repeat split; reflexivity.
Qed.

Lemma RPK_PRINT_cache (channels b : Z) (s : enc_state) :
  e_cache (RPK_PRINT channels b s) = e_cache s.
Proof. apply RPK_PRINT_fields. Qed.

Lemma RPK_PRINT_current (channels b : Z) (s : enc_state) :
  e_current (RPK_PRINT channels b s) = e_current s.
Proof. apply RPK_PRINT_fields. Qed.

Lemma RPK_PRINT_buffer (channels b : Z) (s : enc_state) :
  e_buffer (RPK_PRINT channels b s) = e_buffer s.
Proof. apply RPK_PRINT_fields. Qed.

Lemma RPK_PRINT_run (channels b : Z) (s : enc_state) :
  e_run (RPK_PRINT channels b s) = 0.
Proof. apply RPK_PRINT_fields. Qed.

Lemma RPK_PRINT_runtype (channels b : Z) (s : enc_state) :
  e_runtype (RPK_PRINT channels b s) =
    (if (e_run s =? 0) || (e_runtype s =? 0) then e_runtype s else 255).
Proof. apply RPK_PRINT_fields. Qed.

Lemma RPK_PRINT_out (channels b : Z) (s : enc_state) :
  e_out (RPK_PRINT channels b s) =
    e_out s ++ run_bytes channels (e_runtype s) (e_run s) (e_buffer s)
            ++ (if b <? 128 then [putc b] else []).
Proof. apply RPK_PRINT_fields. Qed.

Lemma set_run_RPK_PRINT (channels b : Z) (s : enc_state) :
  set_run (RPK_PRINT channels b s) (e_runtype (RPK_PRINT channels b s)) 0
  = RPK_PRINT channels b s.
Proof. reflexivity. Qed.

(** The shapes a pending run can have between two pixels. *)
Definition run_shape (t r : Z) : Prop :=
  (r = 0 /\ (t = 0 \/ t = 255)) \/
  (t = 0 /\ 1 <= r <= 526352) \/
  (t = 1 /\ 1 <= r <= 128) \/
  ((t = 2 \/ t = 3) /\ 1 <= r <= 32).

Definition enc_inv (s : enc_state) : Prop :=
  length (e_cache s) = 128%nat /\ length (e_buffer s) = 128%nat /\
  run_shape (e_runtype s) (e_run s).

Lemma enc_inv_init : enc_inv enc_init.
Proof.
  repeat split. left. split; [reflexivity | right; reflexivity].
Qed.

Lemma RPK_PRINT_inv (channels b : Z) (s : enc_state) :
  enc_inv s -> enc_inv (RPK_PRINT channels b s).
Proof.
  intros (Hc & Hb & Hs). unfold enc_inv.
  rewrite RPK_PRINT_cache, RPK_PRINT_buffer, RPK_PRINT_run, RPK_PRINT_runtype.
  split; [exact Hc|]. split; [exact Hb|]. left. split; [reflexivity|].
  destruct Hs as [[-> [-> | ->]] | [[-> H] | [[-> H] | [[-> | ->] H]]]];
    destruct (Z.eqb_spec (e_run s) 0); cbn; auto; lia.
Qed.


(** The bytes the encoder appends to [buffer] for a pixel [px] that follows
    [last] in a run of type [t]. *)
Definition new_args (channels t : Z) (px last : color) : list Z :=
  if t =? 1 then [type1_arg (color_xor px last)]
  else if t =? 2 then [type2_arg0 (color_xor px last); type2_arg1 (color_xor px last)]
  else pixel_bytes channels px.

(** The test that let the encoder choose a run of type [t]. *)
Definition arg_ok (t : Z) (px last : color) : Prop :=
  (t = 1 /\ small_diff (color_xor px last) = true) \/
  (t = 2 /\ type2_diff (color_xor px last) = true) \/
  t = 3.

Lemma firstn_upd2 {A : Type} (n : nat) (a b : A) (l : list A) :
  (n + 1 < length l)%nat ->
  firstn (n + 2) (upd (n + 1) b (upd n a l)) = firstn n l ++ [a; b].
Proof.
  intros H. replace (n + 2)%nat with (S (n + 1)) by lia.
  rewrite firstn_S_upd by (rewrite length_upd; lia).
  replace (n + 1)%nat with (S n) by lia.
  rewrite firstn_S_upd by lia. rewrite <- app_assoc. reflexivity.
Qed.

Lemma firstn_upd3 {A : Type} (n : nat) (a b c : A) (l : list A) :
  (n + 2 < length l)%nat ->
  firstn (n + 3) (upd (n + 2) c (upd (n + 1) b (upd n a l))) = firstn n l ++ [a; b; c].
Proof.
  intros H. replace (n + 3)%nat with (S (n + 2)) by lia.
  rewrite firstn_S_upd by (rewrite !length_upd; lia).
  rewrite firstn_upd2 by lia. rewrite <- app_assoc. reflexivity.
Qed.

Lemma firstn_upd4 {A : Type} (n : nat) (a b c d : A) (l : list A) :
  (n + 3 < length l)%nat ->
  firstn (n + 4) (upd (n + 3) d (upd (n + 2) c (upd (n + 1) b (upd n a l))))
  = firstn n l ++ [a; b; c; d].
Proof.
  intros H. replace (n + 4)%nat with (S (n + 3)) by lia.
  rewrite firstn_S_upd by (rewrite !length_upd; lia).
  rewrite firstn_upd3 by lia. rewrite <- app_assoc. reflexivity.
Qed.

Lemma buf_write_ok (buffer : list Z) (i v : Z) :
  0 <= i < 128 -> buf_write buffer i v = Ok (upd (Z.to_nat i) v buffer).
Proof.
  intros H. unfold buf_write.
  destruct (Z.leb_spec 0 i); [|lia]. destruct (Z.ltb_spec i 128); [|lia]. reflexivity.
Qed.

Lemma buf_write_inv (buffer b : list Z) (i v : Z) :
  buf_write buffer i v = Ok b -> 0 <= i < 128 /\ b = upd (Z.to_nat i) v buffer.
Proof.
  unfold buf_write.
  destruct (Z.leb_spec 0 i); destruct (Z.ltb_spec i 128); cbn [andb]; intros E;
    inversion E; split; auto; lia.
Qed.

(** The state in which a pixel is appended to a run of type [t]: the run was
    flushed, or was empty, or had type [t] and room left. *)
Definition append_state (channels t : Z) (s0 f : enc_state) : Prop :=
  f = RPK_PRINT channels 128 s0 \/
  (f = s0 /\ (e_run s0 = 0 \/ (e_runtype s0 = t /\ (t <> 1 -> e_run s0 < 32)))).

Lemma smalldiff_inv (s s' : enc_state) (diff : color) :
  length (e_buffer s) = 128%nat -> 0 <= e_run s ->
  smalldiff s diff = Ok s' ->
  exists buf',
    e_run s < 128 /\ length buf' = 128%nat /\
    firstn (Z.to_nat (1 * (e_run s + 1))) buf'
      = firstn (Z.to_nat (1 * e_run s)) (e_buffer s) ++ [type1_arg diff] /\
    s' = set_run (set_buffer s buf') 1 (e_run s + 1).
Proof.
  intros Hl Hr H. unfold smalldiff in H.
  destruct (buf_write (e_buffer s) (e_run s) (type1_arg diff)) as [b|] eqn:E;
    cbn [bind] in H; [|discriminate].
  apply buf_write_inv in E. destruct E as [Hi ->]. inversion H; subst s'; clear H.
  refine (ex_intro _ _ (conj _ (conj _ (conj _ eq_refl)))); [lia|rewrite length_upd; exact Hl|].
  replace (Z.to_nat (1 * (e_run s + 1))) with (S (Z.to_nat (e_run s))) by lia.
  replace (Z.to_nat (1 * e_run s)) with (Z.to_nat (e_run s)) by lia.
  apply firstn_S_upd. lia.
Qed.

Lemma type2_block_inv (s s' : enc_state) (diff : color) :
  length (e_buffer s) = 128%nat -> 0 <= e_run s < 32 ->
  type2_block s diff = Ok s' ->
  exists buf',
    length buf' = 128%nat /\
    firstn (Z.to_nat (2 * (e_run s + 1))) buf'
      = firstn (Z.to_nat (2 * e_run s)) (e_buffer s) ++ [type2_arg0 diff; type2_arg1 diff] /\
    s' = set_run (set_buffer s buf') 2 (e_run s + 1).
Proof.
  intros Hl Hr H. unfold type2_block in H.
  rewrite !buf_write_ok in H by lia. cbn [bind] in H.
  rewrite buf_write_ok in H by lia. cbn [bind] in H.
  inversion H; subst s'; clear H.
  refine (ex_intro _ _ (conj _ (conj _ eq_refl))); [rewrite !length_upd; exact Hl|].
  replace (Z.to_nat (2 * (e_run s + 1))) with (Z.to_nat (e_run s * 2) + 2)%nat by lia.
  replace (Z.to_nat (e_run s * 2 + 1)) with (Z.to_nat (e_run s * 2) + 1)%nat by lia.
  replace (Z.to_nat (2 * e_run s)) with (Z.to_nat (e_run s * 2)) by lia.
  apply firstn_upd2. lia.
Qed.

Lemma type3_block_inv (channels : Z) (s s' : enc_state) :
  channels = 3 \/ channels = 4 ->
  length (e_buffer s) = 128%nat -> 0 <= e_run s < 32 ->
  type3_block channels s = Ok s' ->
  exists buf',
    length buf' = 128%nat /\
    firstn (Z.to_nat (channels * (e_run s + 1))) buf'
      = firstn (Z.to_nat (channels * e_run s)) (e_buffer s)
          ++ pixel_bytes channels (e_current s) /\
    s' = set_run (set_buffer s buf') 3 (e_run s + 1).
Proof.
  intros Hch Hl Hr H. unfold type3_block in H.
  destruct Hch as [-> | ->].
  - rewrite !buf_write_ok in H by lia. cbn [bind] in H.
    rewrite buf_write_ok in H by lia. cbn [bind] in H.
    rewrite buf_write_ok in H by lia. cbn [bind Z.eqb Pos.eqb] in H.
    inversion H; subst s'; clear H.
    refine (ex_intro _ _ (conj _ (conj _ eq_refl))); [rewrite !length_upd; exact Hl|].
    replace (Z.to_nat (3 * (e_run s + 1))) with (Z.to_nat (e_run s * 3) + 3)%nat by lia.
    replace (Z.to_nat (e_run s * 3 + 1)) with (Z.to_nat (e_run s * 3) + 1)%nat by lia.
    replace (Z.to_nat (e_run s * 3 + 2)) with (Z.to_nat (e_run s * 3) + 2)%nat by lia.
    replace (Z.to_nat (3 * e_run s)) with (Z.to_nat (e_run s * 3)) by lia.
    apply firstn_upd3. lia.
  - rewrite !buf_write_ok in H by lia. cbn [bind] in H.
    rewrite buf_write_ok in H by lia. cbn [bind] in H.
    rewrite buf_write_ok in H by lia. cbn [bind Z.eqb Pos.eqb] in H.
    rewrite buf_write_ok in H by lia. cbn [bind] in H.
    inversion H; subst s'; clear H.
    refine (ex_intro _ _ (conj _ (conj _ eq_refl))); [rewrite !length_upd; exact Hl|].
    replace (Z.to_nat (4 * (e_run s + 1))) with (Z.to_nat (e_run s * 4) + 4)%nat by lia.
    replace (Z.to_nat (e_run s * 4 + 1)) with (Z.to_nat (e_run s * 4) + 1)%nat by lia.
    replace (Z.to_nat (e_run s * 4 + 2)) with (Z.to_nat (e_run s * 4) + 2)%nat by lia.
    replace (Z.to_nat (e_run s * 4 + 3)) with (Z.to_nat (e_run s * 4) + 3)%nat by lia.
    replace (Z.to_nat (4 * e_run s)) with (Z.to_nat (e_run s * 4)) by lia.
    apply firstn_upd4. lia.
Qed.

Lemma append_state_inv (channels t : Z) (s0 f : enc_state) :
  enc_inv s0 -> append_state channels t s0 f ->
  enc_inv f /\ e_cache f = e_cache s0 /\ e_current f = e_current s0.
Proof.
  intros Hinv [-> | [-> _]].
  - split; [apply RPK_PRINT_inv; exact Hinv|].
    rewrite RPK_PRINT_cache, RPK_PRINT_current. auto.
  - auto.
Qed.

(** The four things one iteration of the pixel loop can do: lengthen a run of
    repeats, start a run of repeats, emit an INDEX opcode, or append the pixel
    to a run of type 1, 2 or 3. *)
Lemma encode_pixel_cases (channels : Z) (s s' : enc_state) (px : color) :
  channels = 3 \/ channels = 4 -> enc_inv s ->
  encode_pixel channels s px = Ok s' ->
  let s0 := set_current s px in
  let last := e_current s in
  (EQCOLOR px last = true /\ e_runtype s = 0 /\ e_run s < 526352 /\
   s' = set_run s0 0 (e_run s + 1))
  \/ (EQCOLOR px last = true /\ s' = set_run (RPK_PRINT channels 128 s0) 0 1)
  \/ (EQCOLOR px last = false /\
      EQCOLOR px (cache_get (e_cache s) (HASH px)) = true /\
      s' = RPK_PRINT channels (HASH px) s0)
  \/ (EQCOLOR px last = false /\
      exists t f buf',
        (t = 1 \/ t = 2 \/ t = 3) /\ arg_ok t px last /\
        append_state channels t s0 f /\
        e_run f < 128 /\ length buf' = 128%nat /\
        firstn (Z.to_nat (arg_width channels t * (e_run f + 1))) buf'
          = firstn (Z.to_nat (arg_width channels t * e_run f)) (e_buffer f)
              ++ new_args channels t px last /\
        s' = cache_current (set_run (set_buffer f buf') t (e_run f + 1))).
Proof.
  intros Hch Hinv H s0 last. unfold encode_pixel in H. fold s0 last in H.
  assert (Hinv0 : enc_inv s0) by exact Hinv.
  destruct (EQCOLOR px last) eqn:E1.
  { destruct ((e_runtype s0 =? 0) && (e_run s0 <? 526352)) eqn:E2; inversion H; clear H.
    - left. apply andb_prop in E2. destruct E2 as [E2 E3].
      apply Z.eqb_eq in E2. apply Z.ltb_lt in E3. subst s0. esimpl.
      rewrite E2. auto.
    - right; left. auto. }
  right; right.
  destruct (small_diff (color_xor px last) && negb (e_run s0 =? 0) && (e_runtype s0 =? 1))
    eqn:E3.
  { right. split; [reflexivity|].
    apply andb_prop in E3. destruct E3 as [E3 E5]. apply andb_prop in E3.
    destruct E3 as [E3 E4]. apply Z.eqb_eq in E5.
    destruct (smalldiff s0 (color_xor px last)) as [s1|] eqn:E6; cbn [bind] in H;
      [|discriminate].
    inversion H; subst s'; clear H.
    destruct Hinv0 as (Hc & Hb & Hs).
    assert (Hr0 : 0 <= e_run s0).
    { destruct Hs as [[? _] | [[_ ?] | [[_ ?] | [_ ?]]]]; lia. }
    apply smalldiff_inv in E6; [|exact Hb|exact Hr0].
    destruct E6 as (buf' & R1 & R2 & R3 & ->).
    exists 1, s0, buf'. rewrite arg_width_1 by exact Hch.
    split; [auto|]. split; [left; auto|].
    split; [right; split; [reflexivity|]; right; split; [exact E5|lia]|].
    split; [exact R1|]. split; [exact R2|]. split; [exact R3|reflexivity]. }
  destruct (EQCOLOR px (cache_get (e_cache s0) (HASH px))) eqn:E4.
  { left. inversion H. auto. }
  right. split; [reflexivity|].
  match type of H with
  | (x <- ?body ;; _) = _ => destruct body as [s1|] eqn:E5; cbn [bind] in H; [|discriminate]
  end.
  inversion H; subst s'; clear H.
  (* the state after the flush test of the chosen block *)
  assert (Happ : forall t,
    t = 1 \/ t = 2 \/ t = 3 ->
    append_state channels t s0
      (flush_if channels
         ((negb (e_run s0 =? 0) && negb (e_runtype s0 =? t)) || (e_run s0 =? 32)) s0) /\
    (t <> 1 ->
     e_run (flush_if channels
         ((negb (e_run s0 =? 0) && negb (e_runtype s0 =? t)) || (e_run s0 =? 32)) s0) < 32)).
  { intros t Ht. unfold flush_if.
    destruct ((negb (e_run s0 =? 0) && negb (e_runtype s0 =? t)) || (e_run s0 =? 32)) eqn:E6.
    - rewrite set_run_RPK_PRINT. split; [left; reflexivity|].
      rewrite RPK_PRINT_run. lia.
    - apply orb_false_elim in E6. destruct E6 as [E6 E7].
      apply Z.eqb_neq in E7.
      destruct (Z.eqb_spec (e_run s0) 0) as [E8 | E8].
      + split; [right; split; [reflexivity | left; exact E8]|]. lia.
      + cbn [negb andb] in E6. apply negb_false_iff in E6. apply Z.eqb_eq in E6.
        destruct Hinv0 as (_ & _ & Hs).
        assert (t <> 1 -> e_run s0 < 32).
        { intros Hn. destruct Hs as [[? _] | [[? ?] | [[? ?] | [_ ?]]]]; lia. }
        split; [right; split; [reflexivity|]; right; auto | assumption]. }
  destruct (small_diff (color_xor px last) && negb (e_runtype s0 =? 2)) eqn:E6.
  - (* type 1 *)
    apply andb_prop in E6. destruct E6 as [E6 E7].
    destruct (Happ 1) as [Ha _]; [auto|].
    set (f := flush_if channels _ s0) in *.
    destruct (append_state_inv _ _ _ _ Hinv0 Ha) as ((Hc & Hb & Hs) & _ & _).
    assert (Hr0 : 0 <= e_run f).
    { destruct Hs as [[? _] | [[_ ?] | [[_ ?] | [_ ?]]]]; lia. }
    apply smalldiff_inv in E5; [|exact Hb|exact Hr0].
    destruct E5 as (buf' & R1 & R2 & R3 & ->).
    exists 1, f, buf'. rewrite arg_width_1 by exact Hch.
    split; [auto|]. split; [left; auto|]. split; [exact Ha|].
    split; [exact R1|]. split; [exact R2|]. split; [exact R3|reflexivity].
  - destruct (type2_diff (color_xor px last)) eqn:E7.
    + (* type 2 *)
      destruct (Happ 2) as [Ha Hlt]; [auto|].
      set (f := flush_if channels _ s0) in *.
      destruct (append_state_inv _ _ _ _ Hinv0 Ha) as ((Hc & Hb & Hs) & _ & _).
      assert (Hr0 : 0 <= e_run f < 32).
      { split; [|apply Hlt; lia].
        destruct Hs as [[? _] | [[_ ?] | [[_ ?] | [_ ?]]]]; lia. }
      apply type2_block_inv in E5; [|exact Hb|exact Hr0].
      destruct E5 as (buf' & R2 & R3 & ->).
      exists 2, f, buf'. rewrite arg_width_2 by exact Hch.
      split; [auto|]. split; [right; left; auto|]. split; [exact Ha|].
      split; [lia|]. split; [exact R2|]. split; [exact R3|reflexivity].
    + (* type 3 *)
      destruct (Happ 3) as [Ha Hlt]; [auto|].
      set (f := flush_if channels _ s0) in *.
      destruct (append_state_inv _ _ _ _ Hinv0 Ha) as ((Hc & Hb & Hs) & _ & Hcur).
      assert (Hr0 : 0 <= e_run f < 32).
      { split; [|apply Hlt; lia].
        destruct Hs as [[? _] | [[_ ?] | [[_ ?] | [_ ?]]]]; lia. }
      apply type3_block_inv in E5; [|exact Hch|exact Hb|exact Hr0].
      destruct E5 as (buf' & R2 & R3 & ->).
      exists 3, f, buf'. rewrite arg_width_3 by exact Hch.
      split; [auto|]. split; [right; right; reflexivity|]. split; [exact Ha|].
      split; [lia|]. split; [exact R2|].
      split; [|reflexivity].
      rewrite R3, Hcur. reflexivity.
Qed.

Lemma run_shape_nonneg (t r : Z) : run_shape t r -> 0 <= r.
Proof. intros [[? _] | [[_ ?] | [[_ ?] | [_ ?]]]]; lia. Qed.

Lemma encode_pixel_inv (channels : Z) (s s' : enc_state) (px : color) :
  channels = 3 \/ channels = 4 -> enc_inv s ->
  encode_pixel channels s px = Ok s' -> enc_inv s'.
Proof.
  intros Hch Hinv H.
  assert (Hinv0 : enc_inv (set_current s px)) by exact Hinv.
  destruct (encode_pixel_cases _ _ _ _ Hch Hinv H)
    as [(_ & Ht & Hr & ->) | [(_ & ->) | [(_ & _ & ->) | (_ & t & f & buf' & Ht & _ & Ha & Hr & Hb & _ & ->)]]].
  - destruct Hinv as (Hc & Hb & Hs). pose proof (run_shape_nonneg _ _ Hs).
    repeat split; esimpl; auto. right; left. split; [reflexivity | lia].
  - destruct (RPK_PRINT_inv channels 128 _ Hinv0) as (Hc & Hb & Hs).
    repeat split; esimpl; auto. right; left. split; [reflexivity | lia].
  - apply RPK_PRINT_inv. exact Hinv0.
  - destruct (append_state_inv _ _ _ _ Hinv0 Ha) as ((Hc & Hb' & Hs) & _ & _).
    pose proof (run_shape_nonneg _ _ Hs) as Hn.
    repeat split; esimpl; auto.
    + rewrite length_cache_set. exact Hc.
    + right; right.
      destruct Ht as [-> | Ht]; [left; split; [reflexivity | lia]|].
      right. split; [exact Ht|].
      assert (e_run f < 32); [|lia].
      destruct Ha as [-> | [-> [E | [_ E]]]].
      * rewrite RPK_PRINT_run. lia.
      * esimpl. lia.
      * apply E. lia.
Qed.

Lemma encode_pixel_current (channels : Z) (s s' : enc_state) (px : color) :
  channels = 3 \/ channels = 4 -> enc_inv s ->
  encode_pixel channels s px = Ok s' -> e_current s' = px.
Proof.
  intros Hch Hinv H.
  assert (Hinv0 : enc_inv (set_current s px)) by exact Hinv.
  destruct (encode_pixel_cases _ _ _ _ Hch Hinv H)
    as [(_ & Ht & Hr & ->) | [(_ & ->) | [(_ & _ & ->) | (_ & t & f & buf' & Ht & _ & Ha & Hr & Hb & _ & ->)]]];
    esimpl; rewrite ?RPK_PRINT_current; try reflexivity.
  destruct (append_state_inv _ _ _ _ Hinv0 Ha) as (_ & _ & ->). reflexivity.
Qed.

(** The only change an iteration makes to the cache is
    [cache[HASH(current)]=current]. *)
Lemma encode_pixel_cache (channels : Z) (s s' : enc_state) (px : color) :
  channels = 3 \/ channels = 4 -> enc_inv s ->
  encode_pixel channels s px = Ok s' ->
  e_cache s' = e_cache s \/ e_cache s' = cache_set (e_cache s) (HASH px) px.
Proof.
  intros Hch Hinv H.
  assert (Hinv0 : enc_inv (set_current s px)) by exact Hinv.
  destruct (encode_pixel_cases _ _ _ _ Hch Hinv H)
    as [(_ & Ht & Hr & ->) | [(_ & ->) | [(_ & _ & ->) | (_ & t & f & buf' & Ht & _ & Ha & Hr & Hb & _ & ->)]]];
    esimpl; rewrite ?RPK_PRINT_cache; auto.
  destruct (append_state_inv _ _ _ _ Hinv0 Ha) as (_ & -> & ->). right. reflexivity.
Qed.

Lemma encode_row_app (channels : Z) (s : enc_state) (ps qs : list color) :
  encode_row channels s (ps ++ qs) =
  (s1 <- encode_row channels s ps ;; encode_row channels s1 qs).
Proof.
  revert s; induction ps as [|p ps IH]; intros s; cbn [encode_row app bind].
  - reflexivity.
  - destruct (encode_pixel channels s p) as [s1|]; cbn [bind]; auto.
Qed.

Lemma encode_row_snoc (channels : Z) (s s' : enc_state) (ps : list color) (p : color) :
  encode_row channels s (ps ++ [p]) = Ok s' ->
  exists s1, encode_row channels s ps = Ok s1 /\ encode_pixel channels s1 p = Ok s'.
Proof.
  rewrite encode_row_app. destruct (encode_row channels s ps) as [s1|]; cbn [bind].
  - cbn [encode_row]. destruct (encode_pixel channels s1 p) as [s2|] eqn:E; cbn [bind].
    + intros H. exists s1. inversion H. subst. auto.
    + discriminate.
  - discriminate.
Qed.

Lemma encode_row_inv (channels : Z) (s s' : enc_state) (ps : list color) :
  channels = 3 \/ channels = 4 -> enc_inv s ->
  encode_row channels s ps = Ok s' -> enc_inv s'.
Proof.
  intros Hch. revert s; induction ps as [|p ps IH]; intros s Hinv H; cbn [encode_row] in H.
  - inversion H; subst; exact Hinv.
  - destruct (encode_pixel channels s p) as [s1|] eqn:E; cbn [bind] in H; [|discriminate].
    apply (IH s1); [|exact H]. apply (encode_pixel_inv _ _ _ _ Hch Hinv E).
Qed.

(** The states of the encoder between two pixels. *)
Inductive enc_reachable (channels : Z) : enc_state -> Prop :=
| enc_reach_init : enc_reachable channels enc_init
| enc_reach_pixel s px s' :
    enc_reachable channels s -> encode_pixel channels s px = Ok s' ->
    enc_reachable channels s'.

Lemma enc_reachable_inv (channels : Z) (s : enc_state) :
  channels = 3 \/ channels = 4 -> enc_reachable channels s -> enc_inv s.
Proof.
  intros Hch H. induction H as [|s px s' _ IH E].
  - apply enc_inv_init.
  - apply (encode_pixel_inv _ _ _ _ Hch IH E).
Qed.

Lemma encode_row_reachable (channels : Z) (s s' : enc_state) (ps : list color) :
  enc_reachable channels s -> encode_row channels s ps = Ok s' ->
  enc_reachable channels s'.
Proof.
  revert s; induction ps as [|p ps IH]; intros s Hs H; cbn [encode_row] in H.
  - inversion H; subst; exact Hs.
  - destruct (encode_pixel channels s p) as [s1|] eqn:E; cbn [bind] in H; [|discriminate].
    apply (IH s1); [|exact H]. apply (enc_reach_pixel _ _ _ _ Hs E).
Qed.

Lemma encode_rows_reachable (channels : Z) (calls : list (Z * list color)) (lastrow : bool)
    (s s' : enc_state) :
  enc_reachable channels s -> encode_rows channels calls lastrow s = Ok s' ->
  enc_reachable channels s'.
Proof.
  revert lastrow s; induction calls as [|[ret row] calls IH]; intros lastrow s Hs H;
    cbn [encode_rows] in H.
  - inversion H; subst; exact Hs.
  - destruct ((ret mod 256 =? 0) || (lastrow && (ret mod 256 =? SPNG_EOI))).
    + destruct (encode_row channels s row) as [s1|] eqn:E; cbn [bind] in H; [|discriminate].
      apply (IH (ret mod 256 =? 0) s1); [|exact H].
      apply (encode_row_reachable _ _ _ _ Hs E).
    + inversion H; subst; exact Hs.
Qed.

(** ** The cache *)

(** Every slot holds the seed or a pixel that hashes to the slot. *)
Definition cache_inv (cache : list color) : Prop :=
  length cache = 128%nat /\
  forall i, 0 <= i < 128 ->
    cache_get cache i = zero_color \/ HASH (cache_get cache i) = i.

Lemma cache_inv_init : cache_inv init_cache.
Proof.
  split; [reflexivity|]. intros i _. left. apply cache_get_init.
Qed.

Lemma cache_inv_set (cache : list color) (p : color) :
  cache_inv cache -> cache_inv (cache_set cache (HASH p) p).
Proof.
  intros [Hl H]. split; [rewrite length_cache_set; exact Hl|].
  intros i Hi. pose proof (HASH_range p) as Hp.
  destruct (Z.eq_dec i (HASH p)) as [-> | Hne].
  - right. rewrite cache_get_set_eq by lia. reflexivity.
  - rewrite cache_get_set_neq by lia. apply H. exact Hi.
Qed.

(** The states of the decoder between two pixels, for any input. *)
Inductive dec_reachable (channels : Z) : dec_state -> Prop :=
| dec_reach_init : dec_reachable channels dec_init
| dec_reach_pixel d infile d' rest :
    dec_reachable channels d -> decode_pixel channels d infile = Some (d', rest) ->
    dec_reachable channels d'.

Lemma runcont_cache (channels : Z) (d d' : dec_state) (infile rest : list Z) :
  runcont channels d infile = Some (d', rest) ->
  d_cache d' = cache_set (d_cache d) (HASH (d_current d')) (d_current d').
Proof.
  unfold runcont.
  destruct (run_color channels (d_runtype d) (d_current d) infile) as [[c r]|];
    [|discriminate].
  intros H; inversion H; subst; reflexivity.
Qed.

(** The only change an iteration of the decoder makes to the cache is
    [cache[HASH(current)]=current]. *)
Lemma decode_pixel_cache (channels : Z) (d d' : dec_state) (infile rest : list Z) :
  decode_pixel channels d infile = Some (d', rest) ->
  d_cache d' = d_cache d \/
  d_cache d' = cache_set (d_cache d) (HASH (d_current d')) (d_current d').
Proof.
  unfold decode_pixel. destruct (negb (d_run d =? 0)).
  - intros H. right. apply (runcont_cache _ _ _ _ _ H).
  - destruct (RPK_READ 1 infile) as [[[|cbyte bs] infile1]|]; try discriminate.
    destruct (Z.land cbyte 128 =? 0).
    + intros H; inversion H; subst. left. reflexivity.
    + destruct (read_run cbyte infile1) as [[[runtype run] infile2]|]; [|discriminate].
      intros H. right. apply runcont_cache in H. exact H.
Qed.

Lemma dec_reachable_cache_inv (channels : Z) (d : dec_state) :
  dec_reachable channels d -> cache_inv (d_cache d).
Proof.
  intros H. induction H as [|d infile d' rest _ IH E].
  - apply cache_inv_init.
  - destruct (decode_pixel_cache _ _ _ _ _ E) as [-> | ->].
    + exact IH.
    + apply cache_inv_set. exact IH.
Qed.

Lemma enc_reachable_cache_inv (channels : Z) (s : enc_state) :
  channels = 3 \/ channels = 4 -> enc_reachable channels s -> cache_inv (e_cache s).
Proof.
  intros Hch H. induction H as [|s px s' Hs IH E].
  - apply cache_inv_init.
  - pose proof (enc_reachable_inv _ _ Hch Hs) as Hinv.
    destruct (encode_pixel_cache _ _ _ _ Hch Hinv E) as [-> | ->].
    + exact IH.
    + apply cache_inv_set. exact IH.
Qed.

(** C10.  In every state the encoder or the decoder reaches from the all-zero
    cache, each slot [i] of the cache holds the all-zero pixel or a pixel [p]
    with [HASH p = i]; the only write either side makes to the cache stores
    the current pixel at the index given by its hash. *)
Theorem cache_slots_hashed (channels : Z) :
  channels = 3 \/ channels = 4 ->
  (forall s, enc_reachable channels s -> cache_inv (e_cache s)) /\
  (forall d, dec_reachable channels d -> cache_inv (d_cache d)) /\
  (forall s px s',
      enc_reachable channels s -> encode_pixel channels s px = Ok s' ->
      e_cache s' = e_cache s \/
      e_cache s' = cache_set (e_cache s) (HASH (e_current s')) (e_current s')) /\
  (forall d infile d' rest,
      decode_pixel channels d infile = Some (d', rest) ->
      d_cache d' = d_cache d \/
      d_cache d' = cache_set (d_cache d) (HASH (d_current d')) (d_current d')).
Proof.
  intros Hch. split; [|split; [|split]].
  - intros s. apply enc_reachable_cache_inv. exact Hch.
  - intros d. apply dec_reachable_cache_inv.
  - intros s px s' Hs E.
    pose proof (enc_reachable_inv _ _ Hch Hs) as Hinv.
    rewrite (encode_pixel_current _ _ _ _ Hch Hinv E).
    apply (encode_pixel_cache _ _ _ _ Hch Hinv E).
  - intros d infile d' rest. apply decode_pixel_cache.
Qed.

(** The encoder after the pixel (1,2,3,254), and after (200,100,50,254) next:
    a run of type 1, then a run of type 3; each pixel is written to the
    cache. *)
Definition one_pixel_state : enc_state :=
  match encode_pixel 4 enc_init (mkColor 1 2 3 254) with
  | Ok s => s
  | Overrun _ => enc_init
  end.

Definition two_pixel_state : enc_state :=
  match encode_pixel 4 one_pixel_state (mkColor 200 100 50 254) with
  | Ok s => s
  | Overrun _ => enc_init
  end.

(** The decoder after the first and the second pixel of the bytes written for
    these two pixels. *)
Definition one_pixel_dec : dec_state :=
  match decode_pixel 4 dec_init [0xA0; 0x6D; 0xE0; 200; 100; 50; 254] with
  | Some (d, _) => d
  | None => dec_init
  end.

Definition two_pixel_dec : dec_state :=
  match decode_pixel 4 one_pixel_dec [0xE0; 200; 100; 50; 254] with
  | Some (d, _) => d
  | None => dec_init
  end.

Lemma two_pixel_encoded :
  encode_pixel 4 enc_init (mkColor 1 2 3 254) = Ok one_pixel_state /\
  encode_pixel 4 one_pixel_state (mkColor 200 100 50 254) = Ok two_pixel_state /\
  e_out (RPK_PRINT 4 128 two_pixel_state) = [0xA0; 0x6D; 0xE0; 200; 100; 50; 254].
Proof. split; [|split]; vm_compute; reflexivity. Qed.

Lemma two_pixel_decoded :
  decode_pixel 4 dec_init [0xA0; 0x6D; 0xE0; 200; 100; 50; 254]
  = Some (one_pixel_dec, [0xE0; 200; 100; 50; 254]) /\
  decode_pixel 4 one_pixel_dec [0xE0; 200; 100; 50; 254] = Some (two_pixel_dec, []).
Proof. split; vm_compute; reflexivity. Qed.

Lemma two_pixel_slots :
  HASH (mkColor 1 2 3 254) = 6 /\ HASH (mkColor 200 100 50 254) = 96 /\
  cache_get (e_cache two_pixel_state) 6 = mkColor 1 2 3 254 /\
  cache_get (e_cache two_pixel_state) 96 = mkColor 200 100 50 254 /\
  cache_get (d_cache two_pixel_dec) 6 = mkColor 1 2 3 254 /\
  cache_get (d_cache two_pixel_dec) 96 = mkColor 200 100 50 254 /\
  e_cache two_pixel_state <> e_cache one_pixel_state /\
  d_cache two_pixel_dec <> d_cache one_pixel_dec.
Proof.
  repeat split; try (vm_compute; reflexivity); vm_compute; discriminate.
Qed.

Lemma cache_slots_hashed_witness :
  cache_inv (e_cache two_pixel_state) /\ cache_inv (d_cache two_pixel_dec) /\
  (cache_get (e_cache two_pixel_state) 6 = mkColor 1 2 3 254 /\
   cache_get (e_cache two_pixel_state) 96 = mkColor 200 100 50 254 /\
   cache_get (d_cache two_pixel_dec) 6 = mkColor 1 2 3 254 /\
   cache_get (d_cache two_pixel_dec) 96 = mkColor 200 100 50 254) /\
  e_cache two_pixel_state
  = cache_set (e_cache one_pixel_state) (HASH (e_current two_pixel_state))
              (e_current two_pixel_state) /\
  d_cache two_pixel_dec
  = cache_set (d_cache one_pixel_dec) (HASH (d_current two_pixel_dec))
              (d_current two_pixel_dec).
Proof.
  destruct (cache_slots_hashed 4 (or_intror eq_refl)) as (He & Hd & Hw & Hr).
  destruct two_pixel_encoded as (E1 & E2 & _).
  destruct two_pixel_decoded as (D1 & D2).
  destruct two_pixel_slots as (_ & _ & S1 & S2 & S3 & S4 & Ne & Nd).
  pose proof (enc_reach_pixel 4 _ _ _ (enc_reach_init 4) E1) as R1.
  pose proof (enc_reach_pixel 4 _ _ _ R1 E2) as R2.
  pose proof (dec_reach_pixel 4 _ _ _ _ (dec_reach_init 4) D1) as Q1.
  pose proof (dec_reach_pixel 4 _ _ _ _ Q1 D2) as Q2.
  split; [exact (He _ R2)|]. split; [exact (Hd _ Q2)|].
  split; [exact (conj S1 (conj S2 (conj S3 S4)))|].
  split.
  - destruct (Hw _ _ _ R1 E2) as [H | H]; [destruct (Ne H) | exact H].
  - destruct (Hr _ _ _ _ D2) as [H | H]; [destruct (Nd H) | exact H].
Defined.

(** ** The length of a run of repeats *)

Lemma RPK_READ_1 (b : Z) (infile : list Z) : RPK_READ 1 (b :: infile) = Some ([b], infile).
Proof.
  unfold RPK_READ. cbn [length].
  destruct (Z.ltb_spec (Z.of_nat (S (length infile))) 1); [lia | reflexivity].
Qed.

Lemma RPK_READ_nil (c : Z) : 0 < c -> RPK_READ c [] = None.
Proof.
  intros H. unfold RPK_READ. cbn [length].
  destruct (Z.ltb_spec (Z.of_nat 0) c); [reflexivity | lia].
Qed.

Lemma read_run_short (cbyte : Z) (infile : list Z) :
  LRS (Z.land cbyte 0x60) 5 <> 0 \/ Z.land cbyte 0x1F < 16 ->
  read_run cbyte infile = Some (LRS (Z.land cbyte 0x60) 5, Z.land cbyte 0x1F + 1, infile).
Proof.
  intros H. unfold read_run.
  destruct (Z.eqb_spec (LRS (Z.land cbyte 96) 5) 0) as [E | E]; cbn [andb]; [|reflexivity].
  rewrite Z.geb_leb. destruct (Z.leb_spec 16 (Z.land cbyte 31)); [lia | reflexivity].
Qed.

Lemma read_run_mid (cbyte b : Z) (infile : list Z) :
  LRS (Z.land cbyte 0x60) 5 = 0 -> 16 <= Z.land cbyte 0x1F ->
  Z.land (Z.land cbyte 0x1F) 15 < 8 ->
  read_run cbyte (b :: infile) =
  Some (0, Z.lor (Z.shiftl (Z.land (Z.land cbyte 0x1F) 15) 8) b + 16 + 1, infile).
Proof.
  intros H1 H2 H3. unfold read_run. rewrite H1. cbn [Z.eqb andb].
  rewrite !Z.geb_leb.
  destruct (Z.leb_spec 16 (Z.land cbyte 31)); [|lia].
  destruct (Z.leb_spec 8 (Z.land (Z.land cbyte 31) 15)); [lia|].
  rewrite RPK_READ_1. reflexivity.
Qed.

Lemma read_run_long (cbyte b1 b2 : Z) (infile : list Z) :
  LRS (Z.land cbyte 0x60) 5 = 0 -> 16 <= Z.land cbyte 0x1F ->
  8 <= Z.land (Z.land cbyte 0x1F) 15 ->
  read_run cbyte (b1 :: b2 :: infile) =
  Some (0,
        Z.lor (Z.shiftl
                 (Z.lor (Z.shiftl (Z.land (Z.land (Z.land cbyte 0x1F) 15) 7) 8) b1 + 8) 8)
              b2 + 16 + 1,
        infile).
Proof.
  intros H1 H2 H3. unfold read_run. rewrite H1. cbn [Z.eqb andb].
  rewrite !Z.geb_leb.
  destruct (Z.leb_spec 16 (Z.land cbyte 31)); [|lia].
  destruct (Z.leb_spec 8 (Z.land (Z.land cbyte 31) 15)); [|lia].
  rewrite RPK_READ_1. rewrite RPK_READ_1. reflexivity.
Qed.

Lemma small_cases_8 (k : Z) :
  0 <= k < 8 -> k = 0 \/ k = 1 \/ k = 2 \/ k = 3 \/ k = 4 \/ k = 5 \/ k = 6 \/ k = 7.
Proof. lia. Qed.

(** The three forms of the bytes of a run of repeats. *)
Definition run0_bytes (L : Z) : list Z :=
  if L <=? 16 then [128 + (L - 1)]
  else if L <=? 2064 then [144 + (L - 17) / 256; (L - 17) mod 256]
  else [152 + (L - 2065) / 65536; ((L - 2065) / 256) mod 256; (L - 2065) mod 256].

Lemma run_bytes_run0 (channels L : Z) (buffer : list Z) :
  1 <= L <= 526352 -> run_bytes channels 0 L buffer = run0_bytes L.
Proof.
  intros HL. unfold run_bytes, run0_bytes, putc, PACKRUN, LRS.
  destruct (Z.eqb_spec L 0); [lia|]. cbn [Z.eqb negb].
  change (Z.shiftl 0 5) with 0. change (Z.shiftl 1 11) with 2048.
  change 0xFF with (Z.ones 8).
  destruct (Z.leb_spec L 16).
  - rewrite Z.mod_small by lia. f_equal.
  - destruct (Z.ltb_spec (L - 17) 2048); destruct (Z.leb_spec L 2064); try lia.
    + rewrite Z.land_ones, Z.shiftr_div_pow2 by lia.
      change (2 ^ 8) with 256.
      assert (0 <= (L - 17) / 256 < 8) by (split; [apply Z.div_pos | apply Z.div_lt_upper_bound]; lia).
      pose proof (Z.mod_pos_bound (L - 17) 256 ltac:(lia)).
      rewrite !Z.mod_mod by lia. rewrite Z.mod_small by lia. f_equal; lia.
    + rewrite Z.land_ones, !Z.shiftr_div_pow2, Z.land_ones by lia.
      change (2 ^ 8) with 256. change (2 ^ 16) with 65536.
      replace (L - 17 - 2048) with (L - 2065) by lia.
      assert (0 <= (L - 2065) / 65536 < 8) by (split; [apply Z.div_pos | apply Z.div_lt_upper_bound]; lia).
      pose proof (Z.mod_pos_bound (L - 2065) 256 ltac:(lia)).
      pose proof (Z.mod_pos_bound ((L - 2065) / 256) 256 ltac:(lia)).
      rewrite !Z.mod_mod by lia. rewrite Z.mod_small by lia. f_equal; lia.
Qed.

(** The decoder's length parser gives back the length. *)
Lemma read_run_run0 (L : Z) (rest : list Z) :
  1 <= L <= 526352 ->
  exists op tail,
    run0_bytes L = op :: tail /\ 128 <= op < 160 /\
    read_run op (tail ++ rest) = Some (0, L, rest).
Proof.
  intros HL. unfold run0_bytes.
  destruct (Z.leb_spec L 16); [|destruct (Z.leb_spec L 2064)].
  - exists (128 + (L - 1)), []. split; [reflexivity|]. split; [lia|].
    cbn [app]. rewrite read_run_short.
    + assert (E : 0 <= L - 1 < 16) by lia.
      assert (F : forallb (fun x => (LRS (Z.land (128 + x) 96) 5 =? 0)
                                      && (Z.land (128 + x) 31 =? x)) (zrange 16) = true)
        by (vm_compute; reflexivity).
      pose proof (zrange_forall _ _ F _ E) as G. cbv beta in G.
      apply andb_prop in G. destruct G as [G1 G2].
      apply Z.eqb_eq in G1, G2. rewrite G1, G2.
      replace (L - 1 + 1) with L by lia. reflexivity.
    + right.
      assert (E : 0 <= L - 1 < 16) by lia.
      assert (F : forallb (fun x => Z.land (128 + x) 31 =? x) (zrange 16) = true)
        by (vm_compute; reflexivity).
      pose proof (zrange_forall _ _ F _ E) as G. cbv beta in G.
      apply Z.eqb_eq in G. rewrite G. lia.
  - assert (Hk : 0 <= (L - 17) / 256 < 8)
      by (split; [apply Z.div_pos | apply Z.div_lt_upper_bound]; lia).
    pose proof (Z.mod_pos_bound (L - 17) 256 ltac:(lia)) as Hb.
    pose proof (Z.div_mod (L - 17) 256 ltac:(lia)) as Hdm.
    exists (144 + (L - 17) / 256), [(L - 17) mod 256]. split; [reflexivity|].
    split; [lia|]. cbn [app].
    set (k := (L - 17) / 256) in *.
    assert (G : LRS (Z.land (144 + k) 96) 5 = 0 /\ Z.land (144 + k) 31 = 16 + k /\
                Z.land (Z.land (144 + k) 31) 15 = k).
    { destruct (small_cases_8 k Hk) as [-> | [-> | [-> | [-> | [-> | [-> | [-> | ->]]]]]]];
        vm_compute; auto. }
    destruct G as (G1 & G2 & G3).
    rewrite read_run_mid by lia. rewrite G3.
    rewrite lor_shiftl_add by (change (2 ^ 8) with 256; lia).
    change (2 ^ 8) with 256.
    replace (k * 256 + (L - 17) mod 256 + 16 + 1) with L by lia. reflexivity.
  - set (R := L - 2065) in *.
    assert (HR : 0 <= R < 524288) by (unfold R; lia).
    assert (Hk : 0 <= R / 65536 < 8)
      by (split; [apply Z.div_pos | apply Z.div_lt_upper_bound]; lia).
    pose proof (Z.mod_pos_bound R 256 ltac:(lia)) as Hb2.
    pose proof (Z.mod_pos_bound (R / 256) 256 ltac:(lia)) as Hb1.
    pose proof (Z.div_mod R 256 ltac:(lia)) as Hdm2.
    pose proof (Z.div_mod (R / 256) 256 ltac:(lia)) as Hdm1.
    rewrite Z.div_div in Hdm1 by lia. change (256 * 256) with 65536 in Hdm1.
    exists (152 + R / 65536), [(R / 256) mod 256; R mod 256]. split; [reflexivity|].
    split; [lia|]. cbn [app].
    set (k := R / 65536) in *.
    assert (G : LRS (Z.land (152 + k) 96) 5 = 0 /\ Z.land (152 + k) 31 = 24 + k /\
                Z.land (Z.land (152 + k) 31) 15 = 8 + k /\
                Z.land (Z.land (Z.land (152 + k) 31) 15) 7 = k).
    { destruct (small_cases_8 k Hk) as [-> | [-> | [-> | [-> | [-> | [-> | [-> | ->]]]]]]];
        vm_compute; auto. }
    destruct G as (G1 & G2 & G3 & G4).
    rewrite read_run_long by lia. rewrite G4.
    rewrite lor_shiftl_add by (change (2 ^ 8) with 256; lia).
    rewrite lor_shiftl_add by (change (2 ^ 8) with 256; lia).
    change (2 ^ 8) with 256.
    replace ((k * 256 + (R / 256) mod 256 + 8) * 256 + R mod 256 + 16 + 1) with L
      by (unfold R in *; lia).
    reflexivity.
Qed.



(** ** Pixels of a run of repeats in the decoder *)

(** The pixel is produced from a run of type 0: the run is under way, or the
    opcode read for this pixel is a RUN opcode with type bits 0. *)
Definition in_run0 (d : dec_state) (infile : list Z) : Prop :=
  (d_run d <> 0 /\ d_runtype d = 0) \/
  (d_run d = 0 /\
   exists op tail, infile = op :: tail /\ Z.land op 0x80 <> 0 /\ LRS (Z.land op 0x60) 5 = 0).

Lemma read_run_type (cbyte : Z) (infile rest : list Z) (t r : Z) :
  read_run cbyte infile = Some (t, r, rest) -> t = LRS (Z.land cbyte 0x60) 5.
Proof.
  unfold read_run.
  destruct ((LRS (Z.land cbyte 96) 5 =? 0) && (Z.land cbyte 31 >=? 16)).
  - destruct (Z.land (Z.land cbyte 31) 15 >=? 8).
    + destruct (RPK_READ 1 infile) as [[[|b bs] i1]|]; try discriminate.
      destruct (RPK_READ 1 i1) as [[[|b' bs'] i2]|]; try discriminate.
      intros H; inversion H; reflexivity.
    + destruct (RPK_READ 1 infile) as [[[|b bs] i1]|]; try discriminate.
      intros H; inversion H; reflexivity.
  - intros H; inversion H; reflexivity.
Qed.

Lemma runcont_type0 (channels : Z) (d d' : dec_state) (infile rest : list Z) :
  d_runtype d = 0 -> runcont channels d infile = Some (d', rest) ->
  d' = mkDec (cache_set (d_cache d) (HASH (d_current d)) (d_current d))
             (d_current d) 0 (d_run d - 1)
  /\ rest = infile.
Proof.
  intros Ht. unfold runcont, run_color. rewrite Ht. cbn [Z.eqb].
  intros H; inversion H; auto.
Qed.

(** C3, as the code has it.  A pixel the decoder produces from a run of type 0
    repeats [current], and the decoder then executes
    [cache[HASH(current)]=current] as for every pixel of a run: slot
    [HASH current] receives [current] and every other slot is unchanged, so
    the cache is unchanged exactly when that slot already held [current]. *)
Theorem run0_pixel_cache (channels : Z) (d d' : dec_state) (infile rest : list Z) :
  in_run0 d infile ->
  decode_pixel channels d infile = Some (d', rest) ->
  d_current d' = d_current d /\
  d_runtype d' = 0 /\
  d_cache d' = cache_set (d_cache d) (HASH (d_current d)) (d_current d) /\
  (forall i, 0 <= i -> i <> HASH (d_current d) ->
             cache_get (d_cache d') i = cache_get (d_cache d) i) /\
  (cache_get (d_cache d) (HASH (d_current d)) = d_current d -> d_cache d' = d_cache d).
Proof.
  intros Hin H.
  assert (E : d_current d' = d_current d /\ d_runtype d' = 0 /\
              d_cache d' = cache_set (d_cache d) (HASH (d_current d)) (d_current d)).
  { unfold decode_pixel in H. destruct Hin as [[Hr Ht] | (Hr & op & tail & -> & Hop & Hty)].
    - apply Z.eqb_neq in Hr. rewrite Hr in H. cbn [negb] in H.
      apply (runcont_type0 _ _ _ _ _ Ht) in H. destruct H as [-> _]. auto.
    - rewrite Hr in H. cbn [Z.eqb negb] in H. rewrite RPK_READ_1 in H.
      apply Z.eqb_neq in Hop. rewrite Hop in H.
      destruct (read_run op tail) as [[[t r] i2]|] eqn:R; [|discriminate].
      apply read_run_type in R. rewrite Hty in R. subst t.
      apply runcont_type0 in H; [|reflexivity]. destruct H as [-> _]. auto. }
  destruct E as (E1 & E2 & E3). repeat split; auto.
  - intros i Hi Hne. rewrite E3. pose proof (HASH_range (d_current d)).
    apply cache_get_set_neq; lia.
  - intros Hc. rewrite E3. rewrite <- Hc at 2. apply cache_set_same.
Qed.

Lemma run0_pixel_cache_witness :
  in_run0 dec_init [128] /\
  exists d', decode_pixel 4 dec_init [128] = Some (d', []) /\
             d_current d' = init_color /\
             cache_get (d_cache d') 71 = init_color.
Proof.
  assert (Hin : in_run0 dec_init [128]).
  { right. split; [reflexivity|]. exists 128, []. repeat split. discriminate. }
  split; [exact Hin|].
  eexists. split; [reflexivity|].
  destruct (run0_pixel_cache 4 dec_init _ [128] [] Hin eq_refl) as (H1 & _ & H3 & _).
  split; [exact H1|]. rewrite H3. reflexivity.
Defined.

(** C3 as stated fails: the first pixel of the stream [80] is produced from a
    run of type 0, and slot 71 of the cache changes from the seed to the
    pixel (0,0,0,255). *)
Lemma run0_pixel_cache_counterexample :
  exists d',
    decode_pixel 4 dec_init [128] = Some (d', []) /\
    in_run0 dec_init [128] /\
    d_current d' = d_current dec_init /\
    cache_get (d_cache dec_init) 71 = zero_color /\
    cache_get (d_cache d') 71 = init_color /\
    cache_get (d_cache d') 71 <> cache_get (d_cache dec_init) 71.
Proof.
  eexists. split; [reflexivity|].
  split.
  { right. split; [reflexivity|]. exists 128, []. repeat split. discriminate. }
  repeat split. discriminate.
Qed.

(** ** Runs of type 1 longer than 32 *)

(** [n] pixels that alternate between [c] and [c']. *)
Fixpoint alternating (n : nat) (c c' : color) : list color :=
  match n with
  | O => []
  | S m => c :: alternating m c' c
  end.

(** A 17x2 image, 4 channels, whose 34 pixels alternate between (1,0,0,255)
    and (0,0,0,255): each pixel differs from the one before in the lowest bit
    of red only. *)
Definition stripes_17x2 : list (list color) :=
  [alternating 17 (mkColor 1 0 0 255) init_color;
   alternating 17 init_color (mkColor 1 0 0 255)].

(** The same pattern as a 65x2 image. *)
Definition stripes_65x2 : list (list color) :=
  [alternating 65 (mkColor 1 0 0 255) init_color;
   alternating 65 init_color (mkColor 1 0 0 255)].

(** The pixel loop over the pixels of an image in raster order, then the
    end-of-image [RPK_PRINT(0)]. *)
Definition encode_image (channels : Z) (pixels : list color) : res enc_state :=
  s <- encode_pixels channels pixels ;; Ok (RPK_PRINT channels 0 s).

(** C2, at the image [stripes_17x2].  The type-1 run started by the first
    pixel is continued through [goto smalldiff] by each of the 33 pixels that
    follow, without the [run==32] test: after the last pixel the pending run
    has type 1 and length 34, and the end-of-image flush emits the opcode
    [PACKRUN(1,33)] = 0xC1 (a RUN opcode of type 2 with length field 1)
    followed by 34 argument bytes. *)
Theorem type1_run_exceeds_32 :
  exists s,
    encode_rows 4 (spng_decode_rows stripes_17x2) false enc_init = Ok s /\
    e_runtype s = 1 /\ e_run s = 34 /\ e_out s = [] /\
    e_out (RPK_PRINT 4 0 s) = [0xC1] ++ repeat 0x40 34 ++ [0].
Proof.
  eexists. split; [vm_compute; reflexivity|]. repeat split.
Qed.

(** C8, at the image [stripes_65x2].  The type-1 run reaches length 128 and
    the next pixel executes [buffer[run++]] with [run = 128], one past the end
    of [uint8_t buffer[128]]. *)
Theorem buffer_write_out_of_bounds :
  rpk_encode 4 (spng_decode_rows stripes_65x2) = Overrun 128 /\
  encode_pixels 4 (alternating 129 (mkColor 1 0 0 255) init_color) = Overrun 128 /\
  exists s,
    encode_pixels 4 (alternating 128 (mkColor 1 0 0 255) init_color) = Ok s /\
    e_runtype s = 1 /\ e_run s = 128.
Proof.
  split; [vm_compute; reflexivity|]. split; [vm_compute; reflexivity|].
  eexists. split; [vm_compute; reflexivity|]. split; reflexivity.
Qed.

(** C1, at the image [stripes_17x2] (colour type 6, four channels).  The file
    written for it starts its payload with the opcode 0xC1 of the over-long
    type-1 run; [rpk_read] takes it for a type-2 run of two pixels, then reads
    the remaining argument bytes as INDEX opcodes, and returns without error
    two rows that differ from the rows of the image. *)
Theorem roundtrip_fails_long_type1_run :
  exists size file,
    rpk_write (png_of_image 17 2 6 stripes_17x2) = Some (Ok (size, file)) /\
    rd_ret (rpk_read (fun _ _ _ => 0) 0 file) = 136 /\
    rd_rows (rpk_read (fun _ _ _ => 0) 0 file)
      <> map (flat_map (pixel_bytes 4)) stripes_17x2 /\
    nth 0 (nth 0 (rd_rows (rpk_read (fun _ _ _ => 0) 0 file)) []) 0 = 8 /\
    nth 0 (nth 0 (map (flat_map (pixel_bytes 4)) stripes_17x2) []) 0 = 1.
Proof.
  eexists. eexists. split; [vm_compute; reflexivity|].
  split; [vm_compute; reflexivity|].
  split; [|split; vm_compute; reflexivity].
  vm_compute. intros H. discriminate H.
Qed.

(** With the return codes [spng_decode_rows] gives for an image of one row, the
    [while] loop of [rpk_encode] never runs its body: the first call returns
    [SPNG_EOI] while [lastrow] is still 0.  The payload is the single byte of
    the end-of-image flush. *)
Lemma single_row_not_encoded (channels : Z) (row : list color) :
  rpk_encode channels (spng_decode_rows [row]) = Ok (RPK_PRINT channels 0 enc_init) /\
  e_out (RPK_PRINT channels 0 enc_init) = [0].
Proof. split; reflexivity. Qed.

(** With two rows or more every row goes through the pixel loop. *)
Lemma encode_rows_image (channels : Z) (rows : list (list color)) (s : enc_state) :
  (2 <= length rows)%nat ->
  encode_rows channels (spng_decode_rows rows) false s
  = encode_row channels s (concat rows).
Proof.
  intros H.
  assert (G : forall rows s, rows <> [] ->
            encode_rows channels (spng_decode_rows rows) true s
            = encode_row channels s (concat rows)).
  { clear. induction rows as [|r rows IH]; intros s Hne; [contradiction|].
    destruct rows as [|r' rows].
    - cbn [spng_decode_rows encode_rows concat]. rewrite app_nil_r.
      change ((SPNG_EOI mod 256 =? 0) || (true && (SPNG_EOI mod 256 =? SPNG_EOI))) with true.
      cbv iota. destruct (encode_row channels s r) as [s1|]; cbn [bind]; [|reflexivity].
      change ((SPNG_EOI mod 256 =? 0) || ((SPNG_EOI mod 256 =? 0) && (SPNG_EOI mod 256 =? SPNG_EOI))) with false.
      reflexivity.
    - change (spng_decode_rows (r :: r' :: rows))
        with ((0, r) :: spng_decode_rows (r' :: rows)).
      cbn [encode_rows concat]. rewrite encode_row_app.
      change ((0 mod 256 =? 0) || (true && (0 mod 256 =? SPNG_EOI))) with true. cbv iota.
      destruct (encode_row channels s r) as [s1|]; cbn [bind]; [|reflexivity].
      change (0 mod 256 =? 0) with true. apply IH. discriminate. }
  destruct rows as [|r [|r' rows]]; cbn [length] in H; try lia.
  change (spng_decode_rows (r :: r' :: rows))
    with ((0, r) :: spng_decode_rows (r' :: rows)).
  cbn [encode_rows concat]. rewrite encode_row_app.
  change ((0 mod 256 =? 0) || (false && (0 mod 256 =? SPNG_EOI))) with true. cbv iota.
  destruct (encode_row channels s r) as [s1|]; cbn [bind]; [|reflexivity].
  change (0 mod 256 =? 0) with true. apply G. discriminate.
Qed.

Lemma rpk_encode_image (channels : Z) (rows : list (list color)) :
  (2 <= length rows)%nat ->
  rpk_encode channels (spng_decode_rows rows) = encode_image channels (concat rows).
Proof.
  intros H. unfold rpk_encode, encode_image, encode_pixels.
  rewrite encode_rows_image by exact H. reflexivity.
Qed.

(** ** The end of the file *)

(** C5, as the code has it.  The byte written by the end-of-image flush
    [RPK_PRINT(0)] is 0x00, the last byte of the payload and the first byte of
    the footer; [rpk_write] then writes six zero bytes and the terminator 0x01,
    so the file ends with seven zero bytes and 0x01. *)
Theorem final_flush_byte (p : png_source) (size : Z) (file : list Z) :
  rpk_write p = Some (Ok (size, file)) ->
  exists header s body,
    header = rpk_header
               ((byte_len p / ((4 * ihdr_height p) mod 4294967296)) mod 4294967296)
               (ihdr_height p) (desc_channels p) 0 /\
    length header = 13%nat /\
    rpk_encode (desc_channels p) (png_calls p) = Ok s /\
    e_out s = body ++ [0] /\
    file = header ++ e_out s ++ [0; 0; 0; 0; 0; 0; 1] /\
    file = (header ++ body) ++ [0; 0; 0; 0; 0; 0; 0; 1].
Proof.
  unfold rpk_write. intros H.
  destruct ((4 * ihdr_height p) mod 4294967296 =? 0); [discriminate|].
  destruct (rpk_encode (desc_channels p) (png_calls p)) as [s|] eqn:E; cbn [bind] in H;
    [|discriminate].
  pose proof (f_equal (fun r => match r with Some (Ok (_, f)) => f | _ => [] end) H)
    as Hf.
  cbv beta iota in Hf. subst file. clear H.
  assert (Hout : exists body, e_out s = body ++ [0]).
  { unfold rpk_encode in E.
    destruct (encode_rows _ (png_calls p) false enc_init) as [s1|]; cbn [bind] in E;
      [|discriminate].
    injection E as <-. rewrite RPK_PRINT_out.
    change (0 <? 128) with true. cbv iota. change (putc 0) with 0.
    eexists. rewrite app_assoc. reflexivity. }
  destruct Hout as [body Hb].
  eexists. exists s, body. split; [reflexivity|].
  split; [reflexivity|]. split; [reflexivity|]. split; [exact Hb|].
  split; [reflexivity|].
  rewrite Hb. rewrite <- !app_assoc. reflexivity.
Qed.

(** A 1x2 image, 4 channels: (0,0,0,255) above (1,2,3,254). *)
Definition column_1x2 : list (list color) :=
  [[mkColor 0 0 0 255]; [mkColor 1 2 3 254]].

Lemma final_flush_byte_witness :
  exists file,
    rpk_write (png_of_image 1 2 6 column_1x2) = Some (Ok (4, file)) /\
    exists front, file = front ++ [0; 0; 0; 0; 0; 0; 0; 1].
Proof.
  eexists. split; [vm_compute; reflexivity|].
  destruct (final_flush_byte (png_of_image 1 2 6 column_1x2) 4 _ eq_refl)
    as (header & s & body & _ & _ & _ & _ & _ & H).
  exists (header ++ body). exact H.
Defined.

(** C5 as stated fails: for the image [column_1x2] the last byte the encoder
    writes is 0x00, not 0x01, and the bytes [rpk_write] appends itself are six
    zero bytes and 0x01, not seven zero bytes. *)
Lemma final_flush_byte_counterexample :
  exists s size file,
    rpk_encode 4 (spng_decode_rows column_1x2) = Ok s /\
    last (e_out s) 1 = 0 /\
    last (e_out s) 1 <> 1 /\
    rpk_write (png_of_image 1 2 6 column_1x2) = Some (Ok (size, file)) /\
    skipn 13 file = e_out s ++ [0; 0; 0; 0; 0; 0; 1] /\
    length (skipn 13 file) = (length (e_out s) + 7)%nat.
Proof.
  eexists. eexists. eexists. split; [vm_compute; reflexivity|].
  split; [reflexivity|]. split; [discriminate|].
  split; [vm_compute; reflexivity|]. split; reflexivity.
Qed.

(** ** The type-1 scenario *)

(** C7, as the code has it.  The pixel loop run on (0,0,0,255) then
    (1,2,3,254) with four channels, followed by the end-of-image flush, writes
    0x80 (a run of one repeat: the first pixel equals the initial previous
    pixel), the opcode 0xA0 = [PACKRUN(1,0)], the argument byte 0x6D and the
    flush byte 0x00.  The image [column_1x2] reaches the pixel loop with these
    two pixels. *)
Theorem type1_scenario_bytes :
  (exists s,
      encode_image 4 [mkColor 0 0 0 255; mkColor 1 2 3 254] = Ok s /\
      e_out s = [0x80; 0xA0; 0x6D; 0x00]) /\
  (exists s,
      rpk_encode 4 (spng_decode_rows column_1x2) = Ok s /\
      e_out s = [0x80; 0xA0; 0x6D; 0x00]) /\
  putc (PACKRUN 1 0) = 0xA0 /\
  type1_arg (color_xor (mkColor 1 2 3 254) (mkColor 0 0 0 255)) = 0x6D.
Proof.
  split; [eexists; split; vm_compute; reflexivity|].
  split; [eexists; split; vm_compute; reflexivity|].
  split; reflexivity.
Qed.

(** C7 as stated fails: the bytes are not A0 4D 01. *)
Lemma type1_scenario_counterexample :
  exists s,
    encode_image 4 [mkColor 0 0 0 255; mkColor 1 2 3 254] = Ok s /\
    e_out s <> [0xA0; 0x4D; 0x01] /\
    type1_arg (color_xor (mkColor 1 2 3 254) (mkColor 0 0 0 255)) <> 0x4D /\
    last (e_out s) 1 <> 0x01.
Proof.
  eexists. split; [vm_compute; reflexivity|].
  split; [|split]; vm_compute; discriminate.
Qed.

(** ** Reading from a longer file *)

Lemma RPK_READ_app (c : Z) (infile bytes rest extra : list Z) :
  RPK_READ c infile = Some (bytes, rest) ->
  RPK_READ c (infile ++ extra) = Some (bytes, rest ++ extra).
Proof.
  unfold RPK_READ. rewrite length_app.
  destruct (Z.ltb_spec (Z.of_nat (length infile)) c) as [H | H]; [discriminate|].
  intros E. injection E as <- <-.
  destruct (Z.ltb_spec (Z.of_nat (length infile + length extra)) c); [lia|].
  rewrite firstn_app, skipn_app.
  replace (Z.to_nat c - length infile)%nat with 0%nat by lia.
  cbn [firstn skipn]. rewrite app_nil_r. reflexivity.
Qed.

Lemma RPK_READ_length (c : Z) (infile bytes rest : list Z) :
  RPK_READ c infile = Some (bytes, rest) ->
  infile = bytes ++ rest /\ length bytes = Z.to_nat c.
Proof.
  unfold RPK_READ.
  destruct (Z.ltb_spec (Z.of_nat (length infile)) c) as [H | H]; [discriminate|].
  intros E. injection E as <- <-. split.
  - symmetry. apply firstn_skipn.
  - apply firstn_length_le. lia.
Qed.

Lemma read_run_app (cbyte : Z) (infile rest extra : list Z) (t r : Z) :
  read_run cbyte infile = Some (t, r, rest) ->
  read_run cbyte (infile ++ extra) = Some (t, r, rest ++ extra).
Proof.
  unfold read_run.
  destruct ((LRS (Z.land cbyte 96) 5 =? 0) && (Z.land cbyte 31 >=? 16)).
  - destruct (Z.land (Z.land cbyte 31) 15 >=? 8).
    + destruct (RPK_READ 1 infile) as [[[|b bs] i1]|] eqn:E1; try discriminate.
      rewrite (RPK_READ_app _ _ _ _ extra E1).
      destruct (RPK_READ 1 i1) as [[[|b' bs'] i2]|] eqn:E2; try discriminate.
      rewrite (RPK_READ_app _ _ _ _ extra E2).
      intros H; injection H as <- <- <-. reflexivity.
    + destruct (RPK_READ 1 infile) as [[[|b bs] i1]|] eqn:E1; try discriminate.
      rewrite (RPK_READ_app _ _ _ _ extra E1).
      intros H; injection H as <- <- <-. reflexivity.
  - intros H; injection H as <- <- <-. reflexivity.
Qed.

Lemma run_color_app (channels t : Z) (c c' : color) (infile rest extra : list Z) :
  run_color channels t c infile = Some (c', rest) ->
  run_color channels t c (infile ++ extra) = Some (c', rest ++ extra).
Proof.
  unfold run_color.
  destruct (t =? 1); [|destruct (t =? 2); [|destruct (t =? 3)]].
  - destruct (RPK_READ 1 infile) as [[[|b bs] i1]|] eqn:E1; try discriminate.
    rewrite (RPK_READ_app _ _ _ _ extra E1).
    intros H; injection H as <- <-. reflexivity.
  - destruct (RPK_READ 2 infile) as [[[|b [|b' bs]] i1]|] eqn:E1; try discriminate.
    rewrite (RPK_READ_app _ _ _ _ extra E1).
    intros H; injection H as <- <-. reflexivity.
  - destruct (RPK_READ channels infile) as [[bs i1]|] eqn:E1; try discriminate.
    rewrite (RPK_READ_app _ _ _ _ extra E1).
    intros H; injection H as <- <-. reflexivity.
  - intros H; injection H as <- <-. reflexivity.
Qed.

Lemma runcont_app (channels : Z) (d d' : dec_state) (infile rest extra : list Z) :
  runcont channels d infile = Some (d', rest) ->
  runcont channels d (infile ++ extra) = Some (d', rest ++ extra).
Proof.
  unfold runcont.
  destruct (run_color channels (d_runtype d) (d_current d) infile) as [[c i1]|] eqn:E;
    [|discriminate].
  rewrite (run_color_app _ _ _ _ _ _ extra E).
  intros H; injection H as <- <-. reflexivity.
Qed.

Lemma decode_pixel_app (channels : Z) (d d' : dec_state) (infile rest extra : list Z) :
  decode_pixel channels d infile = Some (d', rest) ->
  decode_pixel channels d (infile ++ extra) = Some (d', rest ++ extra).
Proof.
  unfold decode_pixel. destruct (negb (d_run d =? 0)).
  - apply runcont_app.
  - destruct (RPK_READ 1 infile) as [[[|cbyte bs] i1]|] eqn:E1; try discriminate.
    rewrite (RPK_READ_app _ _ _ _ extra E1).
    destruct (Z.land cbyte 128 =? 0).
    + intros H; injection H as <- <-. reflexivity.
    + destruct (read_run cbyte i1) as [[[t r] i2]|] eqn:E2; [|discriminate].
      rewrite (read_run_app _ _ _ extra _ _ E2).
      apply runcont_app.
Qed.

Lemma decode_pixels_app (channels : Z) (n : nat) (d d' : dec_state)
    (infile out rest extra : list Z) :
  decode_pixels channels n d infile = Some (d', out, rest) ->
  decode_pixels channels n d (infile ++ extra) = Some (d', out, rest ++ extra).
Proof.
  revert d d' infile out rest.
  induction n as [|n IH]; intros d d' infile out rest; cbn [decode_pixels].
  - intros H; injection H as <- <- <-. reflexivity.
  - destruct (decode_pixel channels d infile) as [[d1 i1]|] eqn:E1; [|discriminate].
    rewrite (decode_pixel_app _ _ _ _ _ extra E1).
    destruct (decode_pixels channels n d1 i1) as [[[d2 o2] i2]|] eqn:E2; [|discriminate].
    rewrite (IH _ _ _ _ _ E2).
    intros H; injection H as <- <- <-. reflexivity.
Qed.


(** ** Failures of [rpk_read] *)

Section ReadFailures.

Variable spng_set_ihdr : Z -> Z -> Z -> Z.
Variable spng_encode_image : Z.



Lemma firstn_app_le {A : Type} (n : nat) (l extra : list A) :
  (n <= length l)%nat -> firstn n (l ++ extra) = firstn n l.
Proof.
  intros H. rewrite firstn_app. replace (n - length l)%nat with 0%nat by lia.
  cbn [firstn]. apply app_nil_r.
Qed.




End ReadFailures.



(** ** The decoder follows the encoder *)

(** Bytes the decoder writes for a list of pixels. *)
Definition pixels_bytes (channels : Z) (ps : list color) : list Z :=
  flat_map (pixel_bytes channels) ps.

(** The cache [cd] of the decoder agrees with the cache [ce] of the encoder,
    except that slot [HASH init_color] = 71 of the decoder may already hold
    the initial pixel while the encoder still has the seed there. *)
Definition cache_rel (ce cd : list color) : Prop :=
  length cd = 128%nat /\
  forall i, 0 <= i < 128 ->
    cache_get cd i = cache_get ce i \/
    (i = HASH init_color /\ cache_get ce i = zero_color /\ cache_get cd i = init_color).

(** The current pixel is in the encoder's cache, unless no pixel other than
    the initial one has been seen. *)
Definition current_cached (ce : list color) (cur : color) : Prop :=
  cache_get ce (HASH cur) = cur \/ (cur = init_color /\ ce = init_cache).

Definition cache_wf (ce : list color) : Prop := forall i, wf_color (cache_get ce i).

(** After reading [out], and whatever follows it, the decoder has produced
    the pixels [ps], its run is over, its current pixel is [cur] and its
    cache is related to [ce]. *)
Definition synced (channels : Z) (ps : list color) (out : list Z)
    (ce : list color) (cur : color) : Prop :=
  exists c1 t1,
    cache_rel ce c1 /\
    forall rest,
      decode_pixels channels (length ps) dec_init (out ++ rest)
      = Some (mkDec c1 cur t1 0, pixels_bytes channels ps, rest).

(** The pending run [(t, r, buf)] of the encoder stands for the pixels [ps1]:
    a decoder that is at [(c0, cur0)] with the run [(t, r + m)] ahead reads
    the buffered arguments, produces [ps1] and is left with [m] pixels of the
    run, the current pixel [cur] and a cache related to [ce]. *)
Definition pending_ok (channels t r : Z) (buf : list Z) (ce : list color) (cur : color)
    (c0 : list color) (cur0 : color) (ps1 : list color) : Prop :=
  Z.of_nat (length ps1) = r /\
  exists c1,
    cache_rel ce c1 /\
    forall m rest, 0 <= m ->
      decode_pixels channels (length ps1) (mkDec c0 cur0 t (r + m))
                    (run_args channels t r buf ++ rest)
      = Some (mkDec c1 cur t m, pixels_bytes channels ps1, rest).

(** The encoder, having written [out] and holding the pending run
    [(t, r, buf)], the cache [ce] and the current pixel [cur], has consumed
    the pixels [ps]. *)
Definition sim_parts (channels : Z) (ps : list color) (out : list Z) (t r : Z)
    (buf : list Z) (ce : list color) (cur : color) : Prop :=
  exists ps0 ps1 c0 cur0 t0,
    ps = ps0 ++ ps1 /\
    (forall rest,
        decode_pixels channels (length ps0) dec_init (out ++ rest)
        = Some (mkDec c0 cur0 t0 0, pixels_bytes channels ps0, rest)) /\
    pending_ok channels t r buf ce cur c0 cur0 ps1.

Definition sim (channels : Z) (ps : list color) (s : enc_state) : Prop :=
  sim_parts channels ps (e_out s) (e_runtype s) (e_run s) (e_buffer s)
            (e_cache s) (e_current s).

(** A run the decoder can be told about with one opcode. *)
Definition run_valid (t r : Z) : Prop :=
  r = 0 \/ (t = 0 /\ 1 <= r <= 526352) \/ ((t = 1 \/ t = 2 \/ t = 3) /\ 1 <= r <= 32).

Lemma HASH_init : HASH init_color = 71.
Proof. reflexivity. Qed.

Lemma HASH_zero : HASH zero_color = 56.
Proof. reflexivity. Qed.

Lemma cache_rel_refl (ce : list color) : length ce = 128%nat -> cache_rel ce ce.
Proof. intros H. split; [exact H|]. intros i _. left. reflexivity. Qed.

Lemma cache_rel_set (ce cd : list color) (p : color) :
  length ce = 128%nat -> cache_rel ce cd ->
  cache_rel (cache_set ce (HASH p) p) (cache_set cd (HASH p) p).
Proof.
  intros Hl [Hd H]. split; [rewrite length_cache_set; exact Hd|].
  intros i Hi. pose proof (HASH_range p) as Hp.
  destruct (Z.eq_dec i (HASH p)) as [-> | Hne].
  - left. rewrite !cache_get_set_eq by lia. reflexivity.
  - rewrite !cache_get_set_neq by lia. apply H. exact Hi.
Qed.

(** The write the decoder makes when it repeats the current pixel. *)
Lemma cache_rel_repeat (ce cd : list color) (cur : color) :
  cache_rel ce cd -> current_cached ce cur ->
  cache_rel ce (cache_set cd (HASH cur) cur).
Proof.
  intros [Hd H] Hc. split; [rewrite length_cache_set; exact Hd|].
  intros i Hi. pose proof (HASH_range cur) as Hp.
  destruct (Z.eq_dec i (HASH cur)) as [-> | Hne].
  - rewrite cache_get_set_eq by lia.
    destruct Hc as [Hc | [-> ->]].
    + left. symmetry. exact Hc.
    + right. split; [reflexivity|]. split; [apply cache_get_init | reflexivity].
  - rewrite cache_get_set_neq by lia. apply H. exact Hi.
Qed.

(** A slot that holds a pixel hashing to it is the same on both sides. *)
Lemma cache_rel_hit (ce cd : list color) (p : color) :
  cache_rel ce cd -> cache_get ce (HASH p) = p -> cache_get cd (HASH p) = p.
Proof.
  intros [Hd H] Hp. destruct (H (HASH p) (HASH_range p)) as [E | (E1 & E2 & _)].
  - rewrite E. exact Hp.
  - exfalso. rewrite Hp in E2. subst p. rewrite HASH_zero, HASH_init in E1. discriminate.
Qed.

Lemma cache_wf_init : cache_wf init_cache.
Proof.
  intros i. rewrite cache_get_init. repeat split; vm_compute; discriminate.
Qed.

Lemma cache_wf_set (ce : list color) (i : Z) (p : color) :
  cache_wf ce -> wf_color p -> cache_wf (cache_set ce i p).
Proof.
  intros H Hp j. unfold cache_get, cache_set.
  destruct (Nat.eq_dec (Z.to_nat i) (Z.to_nat j)) as [E | E].
  - destruct (Nat.lt_ge_cases (Z.to_nat j) (length ce)) as [L | L].
    + rewrite E. rewrite nth_upd_eq by exact L. exact Hp.
    + rewrite nth_overflow by (rewrite length_upd; exact L).
      repeat split; vm_compute; discriminate.
  - rewrite nth_upd_neq by exact E. apply H.
Qed.

Lemma pixels_bytes_app (channels : Z) (ps qs : list color) :
  pixels_bytes channels (ps ++ qs) = pixels_bytes channels ps ++ pixels_bytes channels qs.
Proof. apply flat_map_app. Qed.

Lemma pixels_bytes_one (channels : Z) (p : color) :
  pixels_bytes channels [p] = pixel_bytes channels p.
Proof. unfold pixels_bytes. cbn [flat_map]. apply app_nil_r. Qed.

(** [n + k] pixels are [n] pixels and then [k] pixels. *)
Lemma decode_pixels_add (channels : Z) (n k : nat) (d : dec_state) (infile : list Z) :
  decode_pixels channels (n + k) d infile =
  match decode_pixels channels n d infile with
  | Some (d1, o1, i1) =>
    match decode_pixels channels k d1 i1 with
    | Some (d2, o2, i2) => Some (d2, o1 ++ o2, i2)
    | None => None
    end
  | None => None
  end.
Proof.
  revert d infile. induction n as [|n IH]; intros d infile.
  - cbn [Nat.add decode_pixels].
    destruct (decode_pixels channels k d infile) as [[[d2 o2] i2]|]; reflexivity.
  - cbn [Nat.add decode_pixels].
    destruct (decode_pixel channels d infile) as [[d1 i1]|]; [|reflexivity].
    rewrite IH.
    destruct (decode_pixels channels n d1 i1) as [[[d2 o2] i2]|]; [|reflexivity].
    destruct (decode_pixels channels k d2 i2) as [[[d3 o3] i3]|]; [|reflexivity].
    rewrite app_assoc. reflexivity.
Qed.

Lemma decode_pixels_one (channels : Z) (d : dec_state) (infile : list Z) :
  decode_pixels channels 1 d infile =
  match decode_pixel channels d infile with
  | Some (d1, i1) => Some (d1, pixel_bytes channels (d_current d1), i1)
  | None => None
  end.
Proof.
  cbn [decode_pixels].
  destruct (decode_pixel channels d infile) as [[d1 i1]|]; [|reflexivity].
  rewrite app_nil_r. reflexivity.
Qed.

Lemma byte_high_bit (op : Z) : 128 <= op < 256 -> (Z.land op 0x80 =? 0) = false.
Proof.
  intros H.
  assert (F : forallb (fun x => negb (Z.land (128 + x) 0x80 =? 0)) (zrange 128) = true)
    by (vm_compute; reflexivity).
  pose proof (zrange_forall _ _ F (op - 128) ltac:(lia)) as G. cbv beta in G.
  replace (128 + (op - 128)) with op in G by lia.
  apply negb_true_iff in G. exact G.
Qed.

Lemma byte_low_bit (op : Z) : 0 <= op < 128 -> (Z.land op 0x80 =? 0) = true.
Proof.
  intros H.
  assert (F : forallb (fun x => Z.land x 0x80 =? 0) (zrange 128) = true)
    by (vm_compute; reflexivity).
  apply (zrange_forall _ _ F op H).
Qed.

(** The opcode of a run of type 1, 2 or 3 and what the decoder reads in it. *)
Lemma packrun_fields (t r : Z) :
  1 <= t <= 3 -> 1 <= r <= 32 ->
  128 <= putc (PACKRUN t (r - 1)) < 256 /\
  LRS (Z.land (putc (PACKRUN t (r - 1))) 0x60) 5 = t /\
  Z.land (putc (PACKRUN t (r - 1))) 0x1F = r - 1.
Proof.
  intros Ht Hr.
  assert (F : forallb (fun t => forallb (fun x =>
                (128 <=? putc (PACKRUN (1 + t) x)) && (putc (PACKRUN (1 + t) x) <? 256)
                && (LRS (Z.land (putc (PACKRUN (1 + t) x)) 0x60) 5 =? 1 + t)
                && (Z.land (putc (PACKRUN (1 + t) x)) 0x1F =? x)) (zrange 32)) (zrange 3)
              = true) by (vm_compute; reflexivity).
  pose proof (zrange_forall2 _ _ _ F (t - 1) (r - 1) ltac:(lia) ltac:(lia)) as G.
  cbv beta in G. replace (1 + (t - 1)) with t in G by lia.
  apply andb_prop in G. destruct G as [G G4]. apply andb_prop in G. destruct G as [G G3].
  apply andb_prop in G. destruct G as [G1 G2].
  apply Z.leb_le in G1. apply Z.ltb_lt in G2. apply Z.eqb_eq in G3, G4. auto.
Qed.

Lemma run_bytes_args (channels t r : Z) (buf : list Z) :
  1 <= t <= 3 -> 1 <= r ->
  run_bytes channels t r buf = putc (PACKRUN t (r - 1)) :: run_args channels t r buf.
Proof.
  intros Ht Hr. unfold run_bytes, run_args, arg_width.
  destruct (Z.eqb_spec r 0); [lia|]. destruct (Z.eqb_spec t 0); [lia|]. reflexivity.
Qed.

(** Reading the bytes of a pending run, the decoder enters the run. *)
Lemma decode_pixel_enter_run (channels t r : Z) (buf : list Z)
    (c0 : list color) (cur0 : color) (t0 : Z) (rest : list Z) :
  (t = 0 /\ 1 <= r <= 526352) \/ ((t = 1 \/ t = 2 \/ t = 3) /\ 1 <= r <= 32) ->
  decode_pixel channels (mkDec c0 cur0 t0 0) (run_bytes channels t r buf ++ rest)
  = decode_pixel channels (mkDec c0 cur0 t r) (run_args channels t r buf ++ rest).
Proof.
  intros H. unfold decode_pixel at 1 2. cbn [d_run d_cache d_current d_runtype].
  change (negb (0 =? 0)) with false. cbv iota.
  assert (Hr : r <> 0) by (destruct H as [[_ ?] | [_ ?]]; lia).
  apply Z.eqb_neq in Hr. rewrite Hr. cbn [negb].
  destruct H as [[-> H] | [Ht H]].
  - rewrite run_bytes_run0 by exact H.
    change (run_args channels 0 r buf) with (@nil Z). cbn [app].
    destruct (read_run_run0 r rest H) as (op & tail & E & Hop & R).
    rewrite E. cbn [app]. rewrite RPK_READ_1.
    rewrite byte_high_bit by lia. rewrite R. reflexivity.
  - assert (Ht' : 1 <= t <= 3) by lia.
    rewrite run_bytes_args by lia. cbn [app]. rewrite RPK_READ_1.
    destruct (packrun_fields t r Ht' H) as (P1 & P2 & P3).
    rewrite byte_high_bit by exact P1.
    rewrite read_run_short by (left; lia).
    rewrite P2, P3. replace (r - 1 + 1) with r by lia. reflexivity.
Qed.

Lemma decode_pixels_enter_run (channels t r : Z) (buf : list Z) (n : nat)
    (c0 : list color) (cur0 : color) (t0 : Z) (rest : list Z) :
  (t = 0 /\ 1 <= r <= 526352) \/ ((t = 1 \/ t = 2 \/ t = 3) /\ 1 <= r <= 32) ->
  decode_pixels channels (S n) (mkDec c0 cur0 t0 0) (run_bytes channels t r buf ++ rest)
  = decode_pixels channels (S n) (mkDec c0 cur0 t r) (run_args channels t r buf ++ rest).
Proof.
  intros H. cbn [decode_pixels]. rewrite (decode_pixel_enter_run _ _ _ _ _ _ _ _ H).
  reflexivity.
Qed.

Lemma RPK_READ_2 (a b : Z) (infile : list Z) :
  RPK_READ 2 (a :: b :: infile) = Some ([a; b], infile).
Proof.
  unfold RPK_READ. cbn [length].
  destruct (Z.ltb_spec (Z.of_nat (S (S (length infile)))) 2); [lia | reflexivity].
Qed.

Lemma RPK_READ_3 (a b c : Z) (infile : list Z) :
  RPK_READ 3 (a :: b :: c :: infile) = Some ([a; b; c], infile).
Proof.
  unfold RPK_READ. cbn [length].
  destruct (Z.ltb_spec (Z.of_nat (S (S (S (length infile))))) 3); [lia | reflexivity].
Qed.

Lemma RPK_READ_4 (a b c e : Z) (infile : list Z) :
  RPK_READ 4 (a :: b :: c :: e :: infile) = Some ([a; b; c; e], infile).
Proof.
  unfold RPK_READ. cbn [length].
  destruct (Z.ltb_spec (Z.of_nat (S (S (S (S (length infile)))))) 4); [lia | reflexivity].
Qed.

(** From the arguments the encoder buffers for [px] after [last], the decoder
    at [last] computes [px]. *)
Lemma run_color_new_args (channels t : Z) (px last : color) (rest : list Z) :
  channels = 3 \/ channels = 4 ->
  wf_color px -> wf_color last ->
  (channels = 3 -> alpha px = 255 /\ alpha last = 255) ->
  arg_ok t px last ->
  run_color channels t last (new_args channels t px last ++ rest) = Some (px, rest).
Proof.
  intros Hch Hpx Hlast Halpha Hok.
  pose proof (color_xor_fields px last Hpx Hlast) as Hx.
  pose proof (color_xor_wf px last) as Hwf.
  destruct Hok as [[-> Hs] | [[-> Hs] | ->]]; unfold run_color, new_args;
    cbn [Z.eqb Pos.eqb].
  - (* type 1 *)
    cbn [app]. rewrite RPK_READ_1.
    destruct (small_diff_fields _ Hwf Hs) as (B1 & B2 & B3 & B4).
    destruct (type1_arg_fields _ B1 B2 B3 B4) as (_ & F1 & F2 & F3 & F4).
    rewrite F1, F2, F3, F4. rewrite Hx. cbn [red green blue alpha].
    rewrite !lxor_cancel.
    destruct Hch as [-> | ->].
    + destruct (Halpha eq_refl) as [A1 A2]. cbn [Z.gtb Z.compare Pos.compare Pos.compare_cont].
      destruct px as [r g b a]. cbn [red green blue alpha] in *. rewrite A2, <- A1.
      reflexivity.
    + cbn [Z.gtb Z.compare Pos.compare Pos.compare_cont].
      destruct px as [r g b a]. reflexivity.
  - (* type 2 *)
    cbn [app]. rewrite RPK_READ_2.
    destruct (type2_diff_fields _ Hwf Hs) as (B1 & B2 & B3 & B4).
    destruct (type2_arg_fields _ B1 B2 B3) as (_ & _ & F1 & F2 & F3).
    rewrite F1, F2, F3. rewrite Hx in *. cbn [red green blue alpha] in *.
    rewrite !lxor_cancel. apply Z.lxor_eq in B4.
    destruct px as [r g b a]. cbn [red green blue alpha] in *. rewrite <- B4.
    reflexivity.
  - (* type 3 *)
    destruct Hch as [-> | ->]; unfold pixel_bytes;
      change (Z.to_nat 3) with 3%nat; change (Z.to_nat 4) with 4%nat;
      cbn [firstn app].
    + rewrite RPK_READ_3. destruct (Halpha eq_refl) as [A1 A2].
      destruct px as [r g b a]. cbn [store_bytes red green blue alpha] in *.
      rewrite A2, <- A1. reflexivity.
    + rewrite RPK_READ_4. destruct px as [r g b a]. reflexivity.
Qed.

(** One pixel of a run of repeats. *)
Lemma runcont_repeat (channels : Z) (c1 : list color) (cur : color) (m : Z)
    (rest : list Z) :
  runcont channels (mkDec c1 cur 0 (1 + m)) rest
  = Some (mkDec (cache_set c1 (HASH cur) cur) cur 0 m, rest).
Proof.
  unfold runcont, run_color. cbn [d_runtype d_current d_cache d_run Z.eqb].
  replace (1 + m - 1) with m by lia. reflexivity.
Qed.

(** One pixel of a run of type 1, 2 or 3. *)
Lemma runcont_new_args (channels t : Z) (c1 : list color) (px last : color) (m : Z)
    (rest : list Z) :
  channels = 3 \/ channels = 4 ->
  wf_color px -> wf_color last ->
  (channels = 3 -> alpha px = 255 /\ alpha last = 255) ->
  arg_ok t px last ->
  runcont channels (mkDec c1 last t (1 + m)) (new_args channels t px last ++ rest)
  = Some (mkDec (cache_set c1 (HASH px) px) px t m, rest).
Proof.
  intros Hch Hpx Hlast Halpha Hok. unfold runcont.
  cbn [d_runtype d_current d_cache d_run].
  rewrite (run_color_new_args _ _ _ _ _ Hch Hpx Hlast Halpha Hok).
  replace (1 + m - 1) with m by lia. reflexivity.
Qed.

Lemma run_args_zero (channels t : Z) (buf : list Z) : run_args channels t 0 buf = [].
Proof.
  unfold run_args. destruct (t =? 0); [reflexivity|].
  rewrite Z.mul_0_r. reflexivity.
Qed.

Lemma run_bytes_zero (channels t : Z) (buf : list Z) : run_bytes channels t 0 buf = [].
Proof. reflexivity. Qed.

(** Flushing the pending run brings the decoder level with the encoder. *)
Lemma sim_flush (channels : Z) (ps : list color) (out : list Z) (t r : Z)
    (buf : list Z) (ce : list color) (cur : color) :
  sim_parts channels ps out t r buf ce cur -> run_valid t r ->
  synced channels ps (out ++ run_bytes channels t r buf) ce cur.
Proof.
  intros (ps0 & ps1 & c0 & cur0 & t0 & -> & Hpre & (Hlen & c1 & Hrel & Hpend)) Hv.
  destruct (Z.eq_dec r 0) as [-> | Hr].
  - destruct ps1 as [|p ps1]; [|cbn [length] in Hlen; lia].
    pose proof (Hpend 0 [] ltac:(lia)) as H0. cbn [length decode_pixels] in H0.
    injection H0 as E1 E2 _.
    exists c1, t0. split; [exact Hrel|]. intros rest.
    rewrite run_bytes_zero, !app_nil_r. rewrite Hpre, E1, E2. reflexivity.
  - assert (Hv' : (t = 0 /\ 1 <= r <= 526352) \/ ((t = 1 \/ t = 2 \/ t = 3) /\ 1 <= r <= 32)).
    { destruct Hv as [? | Hv]; [contradiction | exact Hv]. }
    exists c1, t. split; [exact Hrel|]. intros rest.
    rewrite length_app, decode_pixels_add, <- app_assoc, Hpre.
    destruct (length ps1) as [|n] eqn:En; [lia|].
    rewrite (decode_pixels_enter_run _ _ _ _ _ _ _ _ _ Hv').
    pose proof (Hpend 0 rest ltac:(lia)) as H0.
    rewrite Z.add_0_r in H0. rewrite H0. rewrite pixels_bytes_app. reflexivity.
Qed.

(** A decoder level with the encoder, seen as an empty pending run. *)
Lemma synced_sim (channels : Z) (ps : list color) (out : list Z) (t : Z)
    (buf : list Z) (ce : list color) (cur : color) :
  synced channels ps out ce cur -> sim_parts channels ps out t 0 buf ce cur.
Proof.
  intros (c1 & t1 & Hrel & Hdec).
  exists ps, [], c1, cur, t1. split; [symmetry; apply app_nil_r|].
  split; [exact Hdec|]. split; [reflexivity|].
  exists c1. split; [exact Hrel|]. intros m rest Hm.
  rewrite run_args_zero. reflexivity.
Qed.

(** Appending one pixel to the pending run. *)
Lemma sim_extend (channels : Z) (ps : list color) (out : list Z) (t r : Z)
    (buf buf' : list Z) (ce ce' : list color) (cur px : color) (args : list Z) :
  sim_parts channels ps out t r buf ce cur -> 0 <= r ->
  run_args channels t (r + 1) buf' = run_args channels t r buf ++ args ->
  (forall c1, cache_rel ce c1 ->
     exists c1', cache_rel ce' c1' /\
       forall m rest, 0 <= m ->
         runcont channels (mkDec c1 cur t (1 + m)) (args ++ rest)
         = Some (mkDec c1' px t m, rest)) ->
  sim_parts channels (ps ++ [px]) out t (r + 1) buf' ce' px.
Proof.
  intros (ps0 & ps1 & c0 & cur0 & t0 & -> & Hpre & (Hlen & c1 & Hrel & Hpend)) Hr Hargs Hstep.
  destruct (Hstep c1 Hrel) as (c1' & Hrel' & Hrun).
  exists ps0, (ps1 ++ [px]), c0, cur0, t0.
  split; [symmetry; apply app_assoc|]. split; [exact Hpre|].
  split; [rewrite length_app; cbn [length]; lia|].
  exists c1'. split; [exact Hrel'|]. intros m rest Hm.
  rewrite length_app. cbn [length]. rewrite decode_pixels_add.
  rewrite Hargs, <- app_assoc, <- Z.add_assoc.
  rewrite (Hpend (1 + m) (args ++ rest)) by lia.
  rewrite decode_pixels_one. unfold decode_pixel. cbn [d_run].
  destruct (Z.eqb_spec (1 + m) 0); [lia|]. cbn [negb].
  rewrite (Hrun m rest Hm). cbn [d_current].
  rewrite pixels_bytes_app, pixels_bytes_one. reflexivity.
Qed.

(** An INDEX opcode for a pixel that is in the encoder's cache. *)
Lemma synced_index (channels : Z) (ps : list color) (out : list Z)
    (ce : list color) (last px : color) :
  synced channels ps out ce last -> cache_get ce (HASH px) = px ->
  synced channels (ps ++ [px]) (out ++ [putc (HASH px)]) ce px.
Proof.
  intros (c1 & t1 & Hrel & Hdec) Hhit.
  exists c1, t1. split; [exact Hrel|]. intros rest.
  rewrite length_app. cbn [length]. rewrite decode_pixels_add.
  rewrite <- app_assoc, Hdec. rewrite decode_pixels_one.
  pose proof (HASH_range px) as Hh.
  unfold putc. rewrite Z.mod_small by lia. cbn [app].
  unfold decode_pixel. cbn [d_run d_cache d_current d_runtype].
  change (negb (0 =? 0)) with false. cbv iota.
  rewrite RPK_READ_1. rewrite byte_low_bit by exact Hh.
  rewrite (cache_rel_hit _ _ _ Hrel Hhit). cbn [d_current].
  rewrite pixels_bytes_app, pixels_bytes_one. reflexivity.
Qed.

(** What holds of the encoder after the pixels [ps]. *)
Definition enc_good (channels : Z) (ps : list color) (s : enc_state) : Prop :=
  enc_inv s /\ sim channels ps s /\
  current_cached (e_cache s) (e_current s) /\ cache_wf (e_cache s) /\
  wf_color (e_current s) /\ (channels = 3 -> alpha (e_current s) = 255).

Lemma run_valid_of_inv (s : enc_state) :
  enc_inv s -> (e_runtype s = 1 -> e_run s <= 32) -> run_valid (e_runtype s) (e_run s).
Proof.
  intros (_ & _ & Hs) H. unfold run_valid.
  destruct Hs as [[? _] | [[? ?] | [[? ?] | [[? | ?] ?]]]]; auto.
  - right; right. split; [auto | lia].
  - right; right. split; [auto | lia].
  - right; right. split; [auto | lia].
Qed.

Lemma enc_good_init (channels : Z) : enc_good channels [] enc_init.
Proof.
  split; [apply enc_inv_init|]. split.
  - apply (synced_sim channels [] [] 255 (repeat 0 128) init_cache init_color).
    exists init_cache, 0. split; [apply cache_rel_refl; reflexivity|].
    intros rest. reflexivity.
  - split; [right; split; reflexivity|]. split; [apply cache_wf_init|].
    split; [repeat split; vm_compute; discriminate | reflexivity].
Qed.

Lemma run_args_append (channels t r : Z) (buf buf' : list Z) (args : list Z) :
  t = 1 \/ t = 2 \/ t = 3 ->
  firstn (Z.to_nat (arg_width channels t * (r + 1))) buf'
    = firstn (Z.to_nat (arg_width channels t * r)) buf ++ args ->
  run_args channels t (r + 1) buf' = run_args channels t r buf ++ args.
Proof.
  intros Ht H. unfold run_args.
  destruct (Z.eqb_spec t 0); [lia | exact H].
Qed.

(** One more pixel keeps the decoder following the encoder, as long as the
    pending run can still be told to the decoder with one opcode. *)
Lemma encode_pixel_good (channels : Z) (ps : list color) (s s' : enc_state) (px : color) :
  channels = 3 \/ channels = 4 ->
  enc_good channels ps s -> (e_runtype s = 1 -> e_run s <= 32) ->
  wf_color px -> (channels = 3 -> alpha px = 255) ->
  encode_pixel channels s px = Ok s' ->
  enc_good channels (ps ++ [px]) s'.
Proof.
  intros Hch (Hinv & Hsim & Hcc & Hcw & Hwf & Hal) Hshort Hpx Hapx H.
  pose proof (encode_pixel_inv _ _ _ _ Hch Hinv H) as Hinv'.
  pose proof (encode_pixel_current _ _ _ _ Hch Hinv H) as Hcur'.
  pose proof (run_valid_of_inv _ Hinv Hshort) as Hv.
  assert (Hlen : length (e_cache s) = 128%nat) by apply Hinv.
  assert (Hr0 : 0 <= e_run s) by (apply (run_shape_nonneg (e_runtype s)); apply Hinv).
  pose proof (sim_flush _ _ _ _ _ _ _ _ Hsim Hv) as Hflushed.
  assert (Halpha : channels = 3 -> alpha px = 255 /\ alpha (e_current s) = 255)
    by (intros E; split; auto).
  (* the decoder's step for a repeat of the current pixel *)
  assert (Hrep : forall c1, cache_rel (e_cache s) c1 ->
            exists c1', cache_rel (e_cache s) c1' /\
              forall m rest, 0 <= m ->
                runcont channels (mkDec c1 (e_current s) 0 (1 + m)) ([] ++ rest)
                = Some (mkDec c1' (e_current s) 0 m, rest)).
  { intros c1 Hrel. exists (cache_set c1 (HASH (e_current s)) (e_current s)).
    split; [apply cache_rel_repeat; assumption|].
    intros m rest _. apply runcont_repeat. }
  split; [exact Hinv'|].
  destruct (encode_pixel_cases _ _ _ _ Hch Hinv H)
    as [(Heq & Ht & Hr & ->) | [(Heq & ->) | [(_ & Hhit & ->) |
        (_ & t & f & buf' & Ht & Hok & Ha & Hrf & Hb & Hfirst & ->)]]].
  - (* a longer run of repeats *)
    apply EQCOLOR_eq in Heq; [|assumption|assumption]. subst px.
    split; [|esimpl; auto].
    unfold sim in *. esimpl. rewrite Ht in Hsim.
    apply (sim_extend _ _ _ _ _ _ _ _ _ _ _ [] Hsim Hr0).
    + symmetry. apply app_nil_r.
    + exact Hrep.
  - (* a new run of repeats *)
    apply EQCOLOR_eq in Heq; [|assumption|assumption]. subst px.
    split; [|esimpl; rewrite ?RPK_PRINT_cache, ?RPK_PRINT_current; esimpl; auto].
    unfold sim. esimpl.
    rewrite RPK_PRINT_out, RPK_PRINT_buffer, RPK_PRINT_cache, RPK_PRINT_current. esimpl.
    change (128 <? 128) with false. cbv iota. rewrite app_nil_r.
    apply (sim_extend _ _ _ 0 0 (e_buffer s) _ (e_cache s) _ (e_current s) _ []).
    + apply synced_sim. exact Hflushed.
    + lia.
    + reflexivity.
    + exact Hrep.
  - (* an INDEX opcode *)
    apply EQCOLOR_eq in Hhit; [|exact Hpx|apply Hcw]. esimpl.
    split; [|rewrite ?RPK_PRINT_cache, ?RPK_PRINT_current; esimpl;
              split; [left; symmetry; exact Hhit | auto]].
    unfold sim.
    rewrite RPK_PRINT_out, RPK_PRINT_buffer, RPK_PRINT_cache, RPK_PRINT_current,
      RPK_PRINT_run. esimpl.
    pose proof (HASH_range px) as Hh.
    destruct (Z.ltb_spec (HASH px) 128); [|lia].
    rewrite app_assoc. apply synced_sim.
    apply (synced_index _ _ _ _ (e_current s)); [exact Hflushed|].
    symmetry. exact Hhit.
  - (* one more pixel in a run of type 1, 2 or 3 *)
    assert (Hbase : sim_parts channels ps (e_out f) t (e_run f) (e_buffer f)
                      (e_cache s) (e_current s)).
    { destruct Ha as [-> | [-> [E | [E _]]]].
      - rewrite RPK_PRINT_out, RPK_PRINT_buffer, RPK_PRINT_run. esimpl.
        change (128 <? 128) with false. cbv iota. rewrite app_nil_r.
        apply synced_sim. exact Hflushed.
      - esimpl. rewrite E. apply synced_sim.
        rewrite E, run_bytes_zero, app_nil_r in Hflushed. exact Hflushed.
      - esimpl. unfold sim in Hsim. rewrite E in Hsim. exact Hsim. }
    assert (Hf : e_cache f = e_cache s /\ e_current f = px /\ 0 <= e_run f).
    { destruct (append_state_inv _ _ _ _ (Hinv : enc_inv (set_current s px)) Ha)
        as ((_ & _ & Hsh) & Hc & Hcu).
      split; [exact Hc|]. split; [exact Hcu|]. apply (run_shape_nonneg _ _ Hsh). }
    destruct Hf as (Hfc & Hfcur & Hfr).
    unfold sim. esimpl. rewrite Hfc, Hfcur.
    split; [|split; [left; apply cache_get_set_eq; pose proof (HASH_range px); lia|];
              split; [apply cache_wf_set; assumption | auto]].
    apply (sim_extend _ _ _ _ _ _ _ _ _ _ _ (new_args channels t px (e_current s))
             Hbase Hfr).
    + apply run_args_append; assumption.
    + intros c1 Hrel. exists (cache_set c1 (HASH px) px).
      split; [apply cache_rel_set; assumption|].
      intros m rest _. apply runcont_new_args; assumption.
Qed.

(** No state the pixel loop passes through on the pixels [ps] holds a run of
    type 1 that is longer than 32. *)
Definition type1_runs_short (channels : Z) (ps : list color) : Prop :=
  forall k s, encode_pixels channels (firstn k ps) = Ok s ->
              e_runtype s = 1 -> e_run s <= 32.

(** In a 3-channel image the row buffer holds alpha 255 for every pixel. *)
Definition opaque_if_rgb (channels : Z) (ps : list color) : Prop :=
  channels = 3 -> Forall (fun p => alpha p = 255) ps.

Lemma type1_runs_short_prefix (channels : Z) (ps : list color) (p : color) :
  type1_runs_short channels (ps ++ [p]) -> type1_runs_short channels ps.
Proof.
  intros H k s E. destruct (Nat.le_gt_cases k (length ps)) as [L | L].
  - apply (H k). rewrite firstn_app_le by exact L. exact E.
  - apply (H (length ps)). rewrite firstn_app_le by lia.
    rewrite firstn_all. rewrite firstn_all2 in E by lia. exact E.
Qed.

(** The decoder follows the encoder through every image whose runs of type 1
    stay within 32 pixels. *)
Lemma encode_pixels_good (channels : Z) (ps : list color) (s : enc_state) :
  channels = 3 \/ channels = 4 ->
  Forall wf_color ps -> opaque_if_rgb channels ps ->
  type1_runs_short channels ps ->
  encode_pixels channels ps = Ok s ->
  enc_good channels ps s.
Proof.
  intros Hch. revert s. induction ps as [|p ps IH] using rev_ind; intros s Hwf Hop Hshort E.
  - injection E as <-. apply enc_good_init.
  - unfold encode_pixels in E. apply encode_row_snoc in E.
    destruct E as (s1 & E1 & E2).
    apply Forall_app in Hwf. destruct Hwf as [Hwf1 Hwf2].
    assert (Hop1 : opaque_if_rgb channels ps).
    { intros C. specialize (Hop C). apply Forall_app in Hop. apply Hop. }
    pose proof (IH s1 Hwf1 Hop1 (type1_runs_short_prefix _ _ _ Hshort) E1) as G.
    apply (encode_pixel_good _ _ s1 _ _ Hch G).
    + apply (Hshort (length ps)). rewrite firstn_app_le by lia.
      rewrite firstn_all. exact E1.
    + inversion Hwf2; assumption.
    + intros C. specialize (Hop C). apply Forall_app in Hop. destruct Hop as [_ Hop].
      inversion Hop; assumption.
    + exact E2.
Qed.

(** A check of [type1_runs_short] by running the pixel loop. *)
Fixpoint runs_shortb (channels : Z) (s : enc_state) (ps : list color) : bool :=
  (negb (e_runtype s =? 1) || (e_run s <=? 32))
  && match ps with
     | [] => true
     | p :: ps' =>
       match encode_pixel channels s p with
       | Ok s' => runs_shortb channels s' ps'
       | Overrun _ => true
       end
     end.

Lemma runs_shortb_sound (channels : Z) (ps : list color) :
  runs_shortb channels enc_init ps = true -> type1_runs_short channels ps.
Proof.
  unfold type1_runs_short, encode_pixels. generalize enc_init.
  induction ps as [|p ps IH]; intros s0 Hb k s E Ht.
  - rewrite firstn_nil in E. injection E as <-.
    cbn [runs_shortb] in Hb. rewrite Ht in Hb. cbn [Z.eqb Pos.eqb negb orb andb] in Hb.
    rewrite andb_true_r in Hb. apply Z.leb_le. exact Hb.
  - cbn [runs_shortb] in Hb. apply andb_prop in Hb. destruct Hb as [Hb1 Hb2].
    destruct k as [|k].
    + injection E as <-. rewrite Ht in Hb1. apply Z.leb_le. exact Hb1.
    + cbn [firstn encode_row] in E.
      destruct (encode_pixel channels s0 p) as [s1|]; cbn [bind] in E; [|discriminate].
      apply (IH s1 Hb2 k s E Ht).
Qed.

Lemma decoder_level_after_pixels (channels : Z) (ps : list color) (s : enc_state) :
  channels = 3 \/ channels = 4 ->
  Forall wf_color ps -> opaque_if_rgb channels ps ->
  type1_runs_short channels ps ->
  encode_pixels channels ps = Ok s ->
  exists d,
    decode_pixels channels (length ps) dec_init
      (e_out s ++ run_bytes channels (e_runtype s) (e_run s) (e_buffer s))
    = Some (d, pixels_bytes channels ps, []) /\
    d_current d = e_current s /\ d_run d = 0 /\
    forall i, 0 <= i < 128 ->
      cache_get (d_cache d) i = cache_get (e_cache s) i \/
      (i = 71 /\ cache_get (e_cache s) i = zero_color /\
       cache_get (d_cache d) i = init_color).
Proof.
  intros Hch Hwf Hop Hshort E.
  destruct (encode_pixels_good _ _ _ Hch Hwf Hop Hshort E) as (Hinv & Hsim & _).
  assert (Hv : run_valid (e_runtype s) (e_run s)).
  { apply run_valid_of_inv; [exact Hinv|].
    apply (Hshort (length ps)). rewrite firstn_all. exact E. }
  destruct (sim_flush _ _ _ _ _ _ _ _ Hsim Hv) as (c1 & t1 & (Hl & Hrel) & Hdec).
  exists (mkDec c1 (e_current s) t1 0). split.
  - specialize (Hdec []). rewrite app_nil_r in Hdec. exact Hdec.
  - split; [reflexivity|]. split; [reflexivity|]. exact Hrel.
Qed.

(** X1: cache coherence.  After any pixels on which no run of type 1 grows
    past 32, a decoder that has read the bytes written so far and the bytes of
    the pending run has produced the same pixels, holds the same current
    pixel, and its cache agrees with the encoder's in every slot except
    possibly slot 71, the slot of the initial pixel (0,0,0,255): the decoder
    stores that pixel there when it repeats it, the encoder does not. *)
Theorem cache_coherence_short_runs (channels : Z) (ps : list color) (s : enc_state) :
  channels = 3 \/ channels = 4 ->
  Forall wf_color ps -> opaque_if_rgb channels ps ->
  type1_runs_short channels ps ->
  encode_pixels channels ps = Ok s ->
  exists d,
    decode_pixels channels (length ps) dec_init
      (e_out s ++ run_bytes channels (e_runtype s) (e_run s) (e_buffer s))
    = Some (d, pixels_bytes channels ps, []) /\
    d_current d = e_current s /\ d_run d = 0 /\
    forall i, 0 <= i < 128 ->
      cache_get (d_cache d) i = cache_get (e_cache s) i \/
      (i = 71 /\ cache_get (e_cache s) i = zero_color /\
       cache_get (d_cache d) i = init_color).
Proof. exact (decoder_level_after_pixels channels ps s). Qed.

(** Three pixels, 4 channels: the initial pixel, then (1,2,3,254) twice. *)
Definition three_pixels : list color :=
  [init_color; mkColor 1 2 3 254; mkColor 1 2 3 254].

Lemma three_pixels_ok :
  Forall wf_color three_pixels /\ opaque_if_rgb 4 three_pixels /\
  type1_runs_short 4 three_pixels.
Proof.
  split; [repeat constructor; vm_compute; discriminate|].
  split; [intros C; discriminate C|].
  apply runs_shortb_sound. vm_compute. reflexivity.
Defined.

Lemma cache_coherence_short_runs_witness :
  exists s d,
    encode_pixels 4 three_pixels = Ok s /\
    decode_pixels 4 3 dec_init
      (e_out s ++ run_bytes 4 (e_runtype s) (e_run s) (e_buffer s))
    = Some (d, [0; 0; 0; 255; 1; 2; 3; 254; 1; 2; 3; 254], []) /\
    cache_get (d_cache d) 71 = init_color /\ cache_get (e_cache s) 71 = zero_color.
Proof.
  eexists.
  assert (E : encode_pixels 4 three_pixels = Ok _) by (vm_compute; reflexivity).
  destruct three_pixels_ok as (W1 & W2 & W3).
  destruct (cache_coherence_short_runs 4 three_pixels _ (or_intror eq_refl) W1 W2 W3 E)
    as (d & H1 & _ & _ & H4).
  exists d. split; [exact E|]. split; [exact H1|].
  vm_compute in H1. injection H1 as <-. split; reflexivity.
Defined.

(** ** Round trip *)

Lemma pixel_bytes_length (channels : Z) (c : color) :
  channels = 3 \/ channels = 4 -> length (pixel_bytes channels c) = Z.to_nat channels.
Proof. intros [-> | ->]; reflexivity. Qed.

Lemma pixels_bytes_length (channels : Z) (ps : list color) :
  channels = 3 \/ channels = 4 ->
  length (pixels_bytes channels ps) = (length ps * Z.to_nat channels)%nat.
Proof.
  intros Hch. induction ps as [|p ps IH]; [reflexivity|].
  change (pixels_bytes channels (p :: ps))
    with (pixel_bytes channels p ++ pixels_bytes channels ps).
  rewrite length_app, IH, pixel_bytes_length by exact Hch. cbn [length]. lia.
Qed.

(** The decoder writes [channels] bytes for every pixel. *)
Lemma decode_pixels_out_length (channels : Z) (n : nat) (d d' : dec_state)
    (infile out rest : list Z) :
  channels = 3 \/ channels = 4 ->
  decode_pixels channels n d infile = Some (d', out, rest) ->
  length out = (n * Z.to_nat channels)%nat.
Proof.
  intros Hch. revert d d' infile out rest.
  induction n as [|n IH]; intros d d' infile out rest; cbn [decode_pixels].
  - intros H. injection H as _ <- _. reflexivity.
  - destruct (decode_pixel channels d infile) as [[d1 i1]|]; [|discriminate].
    destruct (decode_pixels channels n d1 i1) as [[[d2 o2] i2]|] eqn:E; [|discriminate].
    intros H. injection H as _ <- _.
    rewrite length_app, (IH _ _ _ _ _ E), pixel_bytes_length by exact Hch. lia.
Qed.

Lemma app_inj_length {A : Type} (a b c d : list A) :
  length a = length c -> a ++ b = c ++ d -> a = c /\ b = d.
Proof.
  revert c. induction a as [|x a IH]; intros [|y c] Hl H; cbn [length] in Hl;
    try discriminate.
  - auto.
  - cbn [app] in H. injection H as -> H. destruct (IH c) as [-> ->]; auto.
Qed.

Lemma spng_encode_rets_cons (n : nat) :
  spng_encode_rets (S (S n)) = 0 :: spng_encode_rets (S n).
Proof.
  unfold spng_encode_rets. cbn [Nat.sub]. rewrite Nat.sub_0_r. reflexivity.
Qed.

(** The [do ... while] loop cuts the pixel stream of an image into its rows. *)
Lemma decode_rows_image (channels : Z) (width : nat) (rows : list (list color))
    (d d' : dec_state) (infile rest : list Z) (outlen : Z) (acc : list (list Z)) :
  channels = 3 \/ channels = 4 -> rows <> [] ->
  Forall (fun r => length r = width) rows ->
  decode_pixels channels (length (concat rows)) d infile
    = Some (d', pixels_bytes channels (concat rows), rest) ->
  decode_rows channels width (spng_encode_rets (length rows)) d infile outlen acc
  = mkDecResult 0 (outlen + channels * Z.of_nat width * Z.of_nat (length rows))
                (acc ++ map (pixels_bytes channels) rows) rest.
Proof.
  intros Hch. revert d infile outlen acc.
  induction rows as [|r rows IH]; intros d infile outlen acc Hne Hw H; [contradiction|].
  inversion Hw as [|r0 rows0 Hr Hrows]; subst r0 rows0.
  cbn [concat] in H. rewrite length_app, decode_pixels_add in H.
  destruct (decode_pixels channels (length r) d infile) as [[[d1 o1] i1]|] eqn:E1;
    [|discriminate].
  destruct (decode_pixels channels (length (concat rows)) d1 i1) as [[[d2 o2] i2]|] eqn:E2;
    [|discriminate].
  injection H as -> Ho ->. rewrite pixels_bytes_app in Ho.
  apply app_inj_length in Ho.
  2: { rewrite (decode_pixels_out_length _ _ _ _ _ _ _ Hch E1).
       rewrite pixels_bytes_length by exact Hch. reflexivity. }
  destruct Ho as [-> ->]. rewrite Hr in E1.
  destruct rows as [|r' rows].
  - cbn [length spng_encode_rets Nat.sub repeat app decode_rows]. rewrite E1.
    change (SPNG_EOI =? 0) with false. cbv iota.
    change (SPNG_EOI =? SPNG_EOI) with true. cbv iota.
    cbn [concat decode_pixels length] in E2. injection E2 as _ ->.
    cbn [map]. f_equal. lia.
  - cbn [length]. rewrite spng_encode_rets_cons. cbn [decode_rows]. rewrite E1.
    change (0 =? 0) with true. cbv iota.
    rewrite (IH d1 i1 _ _ ltac:(discriminate) Hrows E2).
    cbn [map length]. rewrite <- app_assoc. cbn [app]. f_equal. lia.
Qed.

Lemma codec_roundtrip_rows (channels : Z) (width : nat) (rows : list (list color))
    (s : enc_state) (tail : list Z) :
  channels = 3 \/ channels = 4 ->
  (2 <= length rows)%nat ->
  Forall (fun r => length r = width) rows ->
  Forall wf_color (concat rows) -> opaque_if_rgb channels (concat rows) ->
  type1_runs_short channels (concat rows) ->
  rpk_encode channels (spng_decode_rows rows) = Ok s ->
  rpk_decode (e_out s ++ tail) width (spng_encode_rets (length rows)) channels
  = mkDecResult 0 (channels * Z.of_nat width * Z.of_nat (length rows))
                (map (pixels_bytes channels) rows) (0 :: tail).
Proof.
  intros Hch H2 Hw Hwf Hop Hshort E.
  rewrite rpk_encode_image in E by exact H2. unfold encode_image in E.
  destruct (encode_pixels channels (concat rows)) as [s1|] eqn:E1; cbn [bind] in E;
    [|discriminate].
  injection E as <-.
  destruct (decoder_level_after_pixels _ _ _ Hch Hwf Hop Hshort E1) as (d & Hd & _).
  rewrite RPK_PRINT_out. change (0 <? 128) with true. cbv iota. change (putc 0) with 0.
  unfold rpk_decode.
  rewrite (decode_rows_image channels width rows dec_init d _ (0 :: tail) 0 [] Hch).
  - reflexivity.
  - destruct rows; [cbn [length] in H2; lia | discriminate].
  - exact Hw.
  - apply (decode_pixels_app _ _ _ _ _ _ _ (0 :: tail)) in Hd.
    rewrite <- !app_assoc in *. exact Hd.
Qed.


(** A 2x2 image, 4 channels. *)
Definition square_2x2 : list (list color) :=
  [[init_color; mkColor 1 2 3 254]; [mkColor 1 2 3 254; mkColor 200 100 50 254]].

Lemma square_2x2_ok :
  Forall (fun r => length r = 2%nat) square_2x2 /\
  Forall wf_color (concat square_2x2) /\ opaque_if_rgb 4 (concat square_2x2) /\
  type1_runs_short 4 (concat square_2x2).
Proof.
  split; [repeat constructor|].
  split; [repeat constructor; vm_compute; discriminate|].
  split; [intros C; discriminate C|].
  apply runs_shortb_sound. vm_compute. reflexivity.
Defined.


(** ** The file header *)

Lemma ntohl_be32 (x : Z) :
  0 <= x < 4294967296 ->
  ntohl (Z.land (Z.shiftr x 24) 255) (Z.land (Z.shiftr x 16) 255)
        (Z.land (Z.shiftr x 8) 255) (Z.land x 255) = x.
Proof.
  intros H. unfold ntohl. change 255 with (Z.ones 8).
  rewrite !Z.land_ones, !Z.shiftr_div_pow2 by lia.
  change (2 ^ 8) with 256. change (2 ^ 16) with 65536. change (2 ^ 24) with 16777216.
  Z.div_mod_to_equations. lia.
Qed.

Lemma desc_channels_range (p : png_source) : desc_channels p = 3 \/ desc_channels p = 4.
Proof.
  unfold desc_channels.
  pose proof (Z.land_ones (Z.shiftr (ihdr_color_type p) 2) 1 ltac:(lia)) as L.
  change (Z.ones 1) with 1 in L. change (2 ^ 1) with 2 in L. rewrite L.
  pose proof (Z.mod_pos_bound (Z.shiftr (ihdr_color_type p) 2) 2 ltac:(lia)) as H.
  assert (E : Z.shiftr (ihdr_color_type p) 2 mod 2 = 0
              \/ Z.shiftr (ihdr_color_type p) 2 mod 2 = 1) by lia.
  destruct E as [-> | ->]; [left | right]; reflexivity.
Qed.

(** X3: round trip of the file.  What [rpk_write] writes for an image of two
    rows or more on which no run of type 1 grows past 32, with a width of at
    least 1 and width and height below 2^30 (so that neither [4*ihdr.height]
    in [rpk_write] nor [channels*width] in the pixel loop of [rpk_decode]
    passes 2^32), [rpk_read] reads back: it accepts the magic, finds the width, the height
    and the channel count in the header, returns [channels * width * height],
    hands the PNG writer the rows of the image, and leaves the eight footer
    bytes unread. *)
Theorem file_roundtrip (spng_set_ihdr : Z -> Z -> Z -> Z) (spng_encode_image : Z)
    (width color_type channels : Z) (rows : list (list color)) (size : Z) (file : list Z) :
  channels = desc_channels (png_of_image width (Z.of_nat (length rows)) color_type rows) ->
  1 <= width < 1073741824 ->
  (2 <= length rows)%nat -> Z.of_nat (length rows) < 1073741824 ->
  Forall (fun r => length r = Z.to_nat width) rows ->
  Forall wf_color (concat rows) -> opaque_if_rgb channels (concat rows) ->
  type1_runs_short channels (concat rows) ->
  spng_set_ihdr width (Z.of_nat (length rows)) ((4 * channels - 10) mod 256) = 0 ->
  spng_encode_image = 0 ->
  rpk_write (png_of_image width (Z.of_nat (length rows)) color_type rows)
  = Some (Ok (size, file)) ->
  rpk_read spng_set_ihdr spng_encode_image file
  = mkReadResult (channels * width * Z.of_nat (length rows))
                 (map (pixels_bytes channels) rows) [0; 0; 0; 0; 0; 0; 0; 1].
Proof.
  intros Hc Hw H2 Hh Hrows Hwf Hop Hshort Hihdr Himg H.
  set (p := png_of_image width (Z.of_nat (length rows)) color_type rows) in *.
  assert (Hch : channels = 3 \/ channels = 4)
    by (rewrite Hc; apply desc_channels_range).
  unfold rpk_write in H. rewrite <- Hc in H.
  change (png_calls p) with (spng_decode_rows rows) in H.
  change (byte_len p) with (4 * width * Z.of_nat (length rows)) in H.
  change (ihdr_height p) with (Z.of_nat (length rows)) in H.
  rewrite (Z.mod_small (4 * Z.of_nat (length rows))) in H by lia.
  destruct (Z.eqb_spec (4 * Z.of_nat (length rows)) 0) as [Z0 | _]; [lia|].
  destruct (rpk_encode channels (spng_decode_rows rows)) as [s|] eqn:E; cbn [bind] in H;
    [|discriminate].
  pose proof (f_equal (fun r => match r with Some (Ok (_, f)) => f | _ => [] end) H)
    as Hf.
  cbv beta iota in Hf. subst file. clear H.
  replace (4 * width * Z.of_nat (length rows))
    with (width * (4 * Z.of_nat (length rows))) by lia.
  rewrite Z.div_mul by lia. rewrite Z.mod_small by lia.
  pose proof (codec_roundtrip_rows channels (Z.to_nat width) rows s [0; 0; 0; 0; 0; 0; 1]
                Hch H2 Hrows Hwf Hop Hshort E) as Hrt.
  unfold rpk_header, magic_rpk, be32, rpk_read.
  cbn [app firstn skipn length Nat.eqb negb orb bytes_eqb Z.eqb Pos.eqb andb].
  rewrite !ntohl_be32 by lia.
  assert (Hp : putc channels = channels) by (destruct Hch as [-> | ->]; reflexivity).
  rewrite Hp, Hihdr, Himg. cbn [Z.eqb negb].
  rewrite Nat2Z.id, Hrt. cbn [r_ret r_outlen r_rows r_rest Z.eqb negb].
  rewrite Z2Nat.id by lia. reflexivity.
Qed.

Lemma file_roundtrip_witness :
  exists file,
    rpk_write (png_of_image 2 2 6 square_2x2) = Some (Ok (10, file)) /\
    rpk_read (fun _ _ _ => 0) 0 file
    = mkReadResult 16 [[0; 0; 0; 255; 1; 2; 3; 254]; [1; 2; 3; 254; 200; 100; 50; 254]]
                   [0; 0; 0; 0; 0; 0; 0; 1].
Proof.
  eexists.
  assert (E : rpk_write (png_of_image 2 2 6 square_2x2) = Some (Ok (10, _)))
    by (vm_compute; reflexivity).
  split; [exact E|].
  destruct square_2x2_ok as (W0 & W1 & W2 & W3).
  exact (file_roundtrip (fun _ _ _ => 0) 0 2 6 4 square_2x2 10 _ eq_refl
           ltac:(lia) (le_n 2) ltac:(cbn; lia) W0 W1 W2 W3 eq_refl eq_refl E).
Defined.

(** ** Writes to the argument buffer *)

Lemma smalldiff_ok (s : enc_state) (diff : color) :
  0 <= e_run s < 128 -> exists s', smalldiff s diff = Ok s'.
Proof.
  intros H. unfold smalldiff. rewrite buf_write_ok by lia. cbn [bind]. eexists. reflexivity.
Qed.

Lemma type2_block_ok (s : enc_state) (diff : color) :
  0 <= e_run s < 32 -> exists s', type2_block s diff = Ok s'.
Proof.
  intros H. unfold type2_block. rewrite buf_write_ok by lia. cbn [bind].
  rewrite buf_write_ok by lia. cbn [bind]. eexists. reflexivity.
Qed.

Lemma type3_block_ok (channels : Z) (s : enc_state) :
  channels = 3 \/ channels = 4 -> 0 <= e_run s < 32 ->
  exists s', type3_block channels s = Ok s'.
Proof.
  intros [-> | ->] H; unfold type3_block.
  - rewrite buf_write_ok by lia. cbn [bind].
    rewrite buf_write_ok by lia. cbn [bind].
    rewrite buf_write_ok by lia. cbn [bind Z.eqb Pos.eqb]. eexists. reflexivity.
  - rewrite buf_write_ok by lia. cbn [bind].
    rewrite buf_write_ok by lia. cbn [bind].
    rewrite buf_write_ok by lia. cbn [bind Z.eqb Pos.eqb].
    rewrite buf_write_ok by lia. cbn [bind]. eexists. reflexivity.
Qed.

(** The run length with which a block is entered after its flush test. *)
Lemma flush_if_run (channels t : Z) (s : enc_state) :
  enc_inv s ->
  let f := flush_if channels
             ((negb (e_run s =? 0) && negb (e_runtype s =? t)) || (e_run s =? 32)) s in
  0 <= e_run f /\
  (e_run f = 0 \/ (e_runtype s = t /\ e_run f = e_run s /\ e_run s <> 32)).
Proof.
  intros (_ & _ & Hs) f. subst f. unfold flush_if.
  destruct ((negb (e_run s =? 0) && negb (e_runtype s =? t)) || (e_run s =? 32)) eqn:E.
  - rewrite set_run_RPK_PRINT, RPK_PRINT_run. split; [lia | left; reflexivity].
  - pose proof (run_shape_nonneg _ _ Hs) as Hn. split; [exact Hn|].
    apply orb_false_elim in E. destruct E as [E1 E2]. apply Z.eqb_neq in E2.
    destruct (Z.eqb_spec (e_run s) 0) as [E0 | E0]; [left; exact E0|].
    cbn [negb andb] in E1. apply negb_false_iff in E1. apply Z.eqb_eq in E1.
    right. auto.
Qed.

Lemma encode_pixel_overrun (channels : Z) (s : enc_state) (px : color) (i : Z) :
  channels = 3 \/ channels = 4 -> enc_reachable channels s ->
  encode_pixel channels s px = Overrun i ->
  i = 128 /\ e_runtype s = 1 /\ e_run s = 128 /\
  EQCOLOR px (e_current s) = false /\
  small_diff (color_xor px (e_current s)) = true.
Proof.
  intros Hch Hreach H. pose proof (enc_reachable_inv _ _ Hch Hreach) as Hinv.
  assert (Hinv0 : enc_inv (set_current s px)) by exact Hinv.
  unfold encode_pixel in H.
  destruct (EQCOLOR px (e_current s)) eqn:E1.
  { destruct ((e_runtype (set_current s px) =? 0) && (e_run (set_current s px) <? 526352));
      discriminate. }
  destruct (small_diff (color_xor px (e_current s))
            && negb (e_run (set_current s px) =? 0)
            && (e_runtype (set_current s px) =? 1)) eqn:E3.
  { apply andb_prop in E3. destruct E3 as [E3 E5]. apply andb_prop in E3.
    destruct E3 as [E3 E4]. apply Z.eqb_eq in E5. esimpl.
    unfold smalldiff, buf_write in H. esimpl.
    destruct Hinv as (_ & _ & Hs).
    assert (Hr : 1 <= e_run s <= 128).
    { destruct Hs as [[? _] | [[? ?] | [[? ?] | [[? | ?] ?]]]]; lia. }
    destruct (Z.leb_spec 0 (e_run s)); [|lia].
    destruct (Z.ltb_spec (e_run s) 128); cbn [andb bind] in H; [discriminate|].
    injection H as <-. repeat split; auto; lia. }
  exfalso.
  destruct (EQCOLOR px (cache_get (e_cache (set_current s px)) (HASH px)));
    [discriminate|].
  destruct (small_diff (color_xor px (e_current s))
            && negb (e_runtype (set_current s px) =? 2)) eqn:E6.
  - destruct (flush_if_run channels 1 _ Hinv0) as [Hn Hf].
    match type of H with
    | (_ <- smalldiff ?f _ ;; _) = _ => assert (Hr : 0 <= e_run f < 128)
    end.
    { split; [exact Hn|]. destruct Hf as [-> | (Ht & -> & _)]; [lia|].
      (* a pending run of type 1 would have been continued at [smalldiff] *)
      apply andb_prop in E6. destruct E6 as [E6 _]. rewrite E6 in E3.
      esimpl. rewrite Ht in E3. cbn [Z.eqb Pos.eqb andb] in E3.
      rewrite andb_true_r in E3. apply negb_false_iff in E3. apply Z.eqb_eq in E3. lia. }
    destruct (smalldiff_ok _ (color_xor px (e_current s)) Hr) as [s1 Hs1].
    rewrite Hs1 in H. discriminate.
  - destruct (type2_diff (color_xor px (e_current s))).
    + destruct (flush_if_run channels 2 _ Hinv0) as [Hn Hf].
      match type of H with
      | (_ <- type2_block ?f _ ;; _) = _ => assert (Hr : 0 <= e_run f < 32)
      end.
      { split; [exact Hn|]. destruct Hf as [-> | (Ht & -> & Hne)]; [lia|].
        destruct Hinv0 as (_ & _ & Hs). esimpl.
        destruct Hs as [[? _] | [[? ?] | [[? ?] | [[? | ?] ?]]]]; lia. }
      destruct (type2_block_ok _ (color_xor px (e_current s)) Hr) as [s1 Hs1].
      rewrite Hs1 in H. discriminate.
    + destruct (flush_if_run channels 3 _ Hinv0) as [Hn Hf].
      match type of H with
      | (_ <- type3_block _ ?f ;; _) = _ => assert (Hr : 0 <= e_run f < 32)
      end.
      { split; [exact Hn|]. destruct Hf as [-> | (Ht & -> & Hne)]; [lia|].
        destruct Hinv0 as (_ & _ & Hs). esimpl.
        destruct Hs as [[? _] | [[? ?] | [[? ?] | [[? | ?] ?]]]]; lia. }
      destruct (type3_block_ok channels _ Hch Hr) as [s1 Hs1].
      rewrite Hs1 in H. discriminate.
Qed.

(** X4: the only write outside [buffer].  When an iteration of the pixel loop
    writes outside the 128 bytes of [buffer], it is the write [buffer[run++]]
    at the label [smalldiff] with [run = 128]: the pending run has type 1,
    holds 128 pixels, and the pixel differs from the one before in the two low
    bits of its bytes only.  The writes of runs of type 2 and 3, and of a run
    of type 1 that starts, are inside the buffer. *)
Theorem overrun_only_type1 (channels : Z) (s : enc_state) (px : color) (i : Z) :
  channels = 3 \/ channels = 4 -> enc_reachable channels s ->
  encode_pixel channels s px = Overrun i ->
  i = 128 /\ e_runtype s = 1 /\ e_run s = 128 /\
  EQCOLOR px (e_current s) = false /\
  small_diff (color_xor px (e_current s)) = true.
Proof. exact (encode_pixel_overrun channels s px i). Qed.

(** The state of the encoder after 128 pixels that alternate between
    (1,0,0,255) and (0,0,0,255). *)
Definition stripes_128_state : enc_state :=
  match encode_pixels 4 (alternating 128 (mkColor 1 0 0 255) init_color) with
  | Ok s => s
  | Overrun _ => enc_init
  end.

Lemma stripes_128_encoded :
  encode_row 4 enc_init (alternating 128 (mkColor 1 0 0 255) init_color)
  = Ok stripes_128_state.
Proof. vm_compute. reflexivity. Qed.

Lemma stripes_128_reachable : enc_reachable 4 stripes_128_state.
Proof.
  apply (encode_row_reachable 4 enc_init stripes_128_state
           (alternating 128 (mkColor 1 0 0 255) init_color) (enc_reach_init 4)).
  exact stripes_128_encoded.
Qed.

Lemma stripes_128_overrun :
  encode_pixel 4 stripes_128_state (mkColor 1 0 0 255) = Overrun 128.
Proof. vm_compute. reflexivity. Qed.

Lemma overrun_only_type1_witness :
  enc_reachable 4 stripes_128_state /\
  encode_pixel 4 stripes_128_state (mkColor 1 0 0 255) = Overrun 128 /\
  e_runtype stripes_128_state = 1 /\ e_run stripes_128_state = 128.
Proof.
  split; [exact stripes_128_reachable|]. split; [exact stripes_128_overrun|].
  destruct (overrun_only_type1 4 stripes_128_state (mkColor 1 0 0 255) 128
              (or_intror eq_refl) stripes_128_reachable stripes_128_overrun)
    as (_ & H1 & H2 & _).
  split; [exact H1 | exact H2].
Defined.

(** X5: no write outside [buffer] while runs of type 1 stay short.  On every
    pixel sequence on which no run of type 1 grows past 32 the pixel loop
    ends without having written outside [buffer]. *)
Theorem encode_defined_short_runs (channels : Z) (ps : list color) :
  channels = 3 \/ channels = 4 ->
  type1_runs_short channels ps ->
  exists s, encode_pixels channels ps = Ok s /\ enc_reachable channels s.
Proof.
  intros Hch. induction ps as [|p ps IH] using rev_ind; intros Hshort.
  - exists enc_init. split; [reflexivity | constructor].
  - destruct (IH (type1_runs_short_prefix _ _ _ Hshort)) as (s1 & E1 & R1).
    unfold encode_pixels. rewrite encode_row_app. fold (encode_pixels channels ps).
    rewrite E1. cbn [bind encode_row].
    destruct (encode_pixel channels s1 p) as [s2 | i] eqn:E2; cbn [bind].
    + exists s2. split; [reflexivity|]. apply (enc_reach_pixel _ _ _ _ R1 E2).
    + exfalso.
      destruct (encode_pixel_overrun _ _ _ _ Hch R1 E2) as (_ & Ht & Hr & _).
      assert (e_run s1 <= 32); [|lia].
      apply (Hshort (length ps)); [|exact Ht].
      rewrite firstn_app_le by lia. rewrite firstn_all. exact E1.
Qed.

Lemma encode_defined_short_runs_witness :
  exists s, encode_pixels 4 (concat square_2x2) = Ok s /\ enc_reachable 4 s.
Proof.
  destruct square_2x2_ok as (_ & _ & _ & W3).
  exact (encode_defined_short_runs 4 (concat square_2x2) (or_intror eq_refl) W3).
Defined.

(** ** The size of the payload *)

(** Number of bytes of a pending run. *)
Lemma run_bytes_length (channels t r : Z) (buf : list Z) :
  channels = 3 \/ channels = 4 -> length buf = 128%nat -> run_shape t r ->
  Z.of_nat (length (run_bytes channels t r buf)) =
  if r =? 0 then 0
  else if t =? 0 then (if r <=? 16 then 1 else if r - 17 <? 2048 then 2 else 3)
  else arg_width channels t * r + 1.
Proof.
  intros Hch Hb Hs. unfold run_bytes.
  destruct (Z.eqb_spec r 0); [reflexivity|].
  destruct (Z.eqb_spec t 0); cbn [negb].
  - destruct (r <=? 16); [reflexivity|].
    change (Z.shiftl 1 11) with 2048. destruct (r - 17 <? 2048); reflexivity.
  - fold (arg_width channels t). cbn [length].
    assert (Hw : 0 <= arg_width channels t * r <= 128).
    { destruct Hs as [[? _] | [[? ?] | [[-> ?] | [[-> | ->] ?]]]]; try lia.
      - rewrite arg_width_1 by exact Hch. lia.
      - rewrite arg_width_2 by exact Hch. lia.
      - rewrite arg_width_3 by exact Hch. destruct Hch; subst; lia. }
    rewrite firstn_length_le by lia. lia.
Qed.

Lemma RPK_PRINT_ct (channels b : Z) (s : enc_state) :
  channels = 3 \/ channels = 4 -> enc_inv s ->
  e_ct s = Z.of_nat (length (e_out s)) ->
  e_ct (RPK_PRINT channels b s) = Z.of_nat (length (e_out (RPK_PRINT channels b s))).
Proof.
  intros Hch (_ & Hb & Hs) H. rewrite RPK_PRINT_out, !length_app, !Nat2Z.inj_add.
  rewrite (run_bytes_length _ _ _ _ Hch Hb Hs).
  unfold RPK_PRINT. fold (arg_width channels (e_runtype s)).
  change (Z.shiftl 1 11) with 2048.
  destruct (e_run s =? 0); [|destruct (e_runtype s =? 0); cbn [negb];
    [destruct (e_run s <=? 16); [|destruct (e_run s - 17 <? 2048)]|]];
    destruct (b <? 128); esimpl; cbn [length]; lia.
Qed.

Lemma encode_pixel_ct (channels : Z) (s s' : enc_state) (px : color) :
  channels = 3 \/ channels = 4 -> enc_inv s ->
  e_ct s = Z.of_nat (length (e_out s)) ->
  encode_pixel channels s px = Ok s' ->
  e_ct s' = Z.of_nat (length (e_out s')).
Proof.
  intros Hch Hinv Hct H.
  assert (Hinv0 : enc_inv (set_current s px)) by exact Hinv.
  assert (Hct0 : e_ct (set_current s px) = Z.of_nat (length (e_out (set_current s px))))
    by exact Hct.
  destruct (encode_pixel_cases _ _ _ _ Hch Hinv H)
    as [(_ & _ & _ & ->) | [(_ & ->) | [(_ & _ & ->) |
        (_ & t & f & buf' & _ & _ & Ha & _ & _ & _ & ->)]]]; esimpl.
  - exact Hct.
  - apply (RPK_PRINT_ct _ _ _ Hch Hinv0 Hct0).
  - apply (RPK_PRINT_ct _ _ _ Hch Hinv0 Hct0).
  - destruct Ha as [-> | [-> _]].
    + apply (RPK_PRINT_ct _ _ _ Hch Hinv0 Hct0).
    + exact Hct.
Qed.

(** X6: the byte count.  The count [ct] that [rpk_encode] stores in [*outlen],
    and [rpk_write] returns, is the number of bytes the encoder wrote: the
    payload with the byte of the end-of-image flush, without the 13 header
    bytes and the 7 bytes [rpk_write] appends. *)
Theorem outlen_counts_payload (p : png_source) (size : Z) (file : list Z) :
  rpk_write p = Some (Ok (size, file)) ->
  size = Z.of_nat (length file) - 13 - 7 /\
  exists s, rpk_encode (desc_channels p) (png_calls p) = Ok s /\
            size = e_ct s /\ e_ct s = Z.of_nat (length (e_out s)).
Proof.
  unfold rpk_write. intros H.
  pose proof (desc_channels_range p) as Hch.
  destruct ((4 * ihdr_height p) mod 4294967296 =? 0); [discriminate|].
  destruct (rpk_encode (desc_channels p) (png_calls p)) as [s|] eqn:E; cbn [bind] in H;
    [|discriminate].
  pose proof (f_equal (fun r => match r with Some (Ok (_, f)) => f | _ => [] end) H)
    as Hf.
  pose proof (f_equal (fun r => match r with Some (Ok (n, _)) => n | _ => 0 end) H)
    as Hn.
  cbv beta iota in Hf, Hn. subst file size. clear H.
  assert (Hct : e_ct s = Z.of_nat (length (e_out s))).
  { unfold rpk_encode in E.
    destruct (encode_rows (desc_channels p) (png_calls p) false enc_init) as [s1|] eqn:E1;
      cbn [bind] in E; [|discriminate].
    injection E as <-.
    pose proof (encode_rows_reachable _ _ _ _ _ (enc_reach_init _) E1) as R.
    apply RPK_PRINT_ct; [exact Hch | apply (enc_reachable_inv _ _ Hch R) |].
    clear E1. induction R as [|s0 px s' R IH E0]; [reflexivity|].
    apply (encode_pixel_ct _ _ _ _ Hch (enc_reachable_inv _ _ Hch R) IH E0). }
  split.
  - rewrite !length_app. cbn [length rpk_header magic_rpk be32 app]. lia.
  - exists s. auto.
Qed.

Lemma outlen_counts_payload_witness :
  exists file,
    rpk_write (png_of_image 2 2 6 square_2x2) = Some (Ok (10, file)) /\
    10 = Z.of_nat (length file) - 13 - 7.
Proof.
  eexists.
  assert (E : rpk_write (png_of_image 2 2 6 square_2x2) = Some (Ok (10, _)))
    by (vm_compute; reflexivity).
  split; [exact E|].
  exact (proj1 (outlen_counts_payload _ _ _ E)).
Defined.

(** Bytes written so far plus bytes of the pending run. *)
Definition payload_so_far (channels : Z) (s : enc_state) : Z :=
  Z.of_nat (length (e_out s))
  + Z.of_nat (length (run_bytes channels (e_runtype s) (e_run s) (e_buffer s))).

Lemma arg_width_bounds (channels t : Z) :
  channels = 3 \/ channels = 4 -> t = 1 \/ t = 2 \/ t = 3 ->
  1 <= arg_width channels t <= channels.
Proof.
  intros Hch [-> | [-> | ->]];
    rewrite ?arg_width_1, ?arg_width_2, ?arg_width_3 by exact Hch;
    destruct Hch; subst; lia.
Qed.

Lemma payload_RPK_PRINT (channels b : Z) (s : enc_state) :
  payload_so_far channels (RPK_PRINT channels b s)
  = payload_so_far channels s + (if b <? 128 then 1 else 0).
Proof.
  unfold payload_so_far.
  rewrite RPK_PRINT_out, RPK_PRINT_run, run_bytes_zero, !length_app.
  destruct (b <? 128); cbn [length]; lia.
Qed.

(** One pixel adds at most [channels + 1] bytes. *)
Lemma encode_pixel_payload (channels : Z) (s s' : enc_state) (px : color) :
  channels = 3 \/ channels = 4 -> enc_inv s ->
  encode_pixel channels s px = Ok s' ->
  payload_so_far channels s' <= payload_so_far channels s + channels + 1.
Proof.
  intros Hch Hinv H.
  pose proof (encode_pixel_inv _ _ _ _ Hch Hinv H) as (_ & Hb' & Hs').
  destruct Hinv as (Hc & Hb & Hs).
  assert (Hinv0 : enc_inv (set_current s px)) by (repeat split; assumption).
  assert (Hch1 : 3 <= channels) by (destruct Hch; lia).
  destruct (encode_pixel_cases _ _ _ _ Hch (conj Hc (conj Hb Hs)) H)
    as [(_ & Ht & Hr & ->) | [(_ & ->) | [(_ & _ & ->) |
        (_ & t & f & buf' & Ht & _ & Ha & _ & Hbl & _ & ->)]]].
  - unfold payload_so_far in *. esimpl.
    rewrite (run_bytes_length _ _ _ _ Hch Hb Hs), (run_bytes_length _ _ _ _ Hch Hb Hs').
    rewrite Ht in *. cbn [Z.eqb].
    pose proof (run_shape_nonneg _ _ Hs).
    destruct (Z.eqb_spec (e_run s + 1) 0); [lia|].
    destruct (Z.eqb_spec (e_run s) 0);
      destruct (Z.leb_spec (e_run s + 1) 16); destruct (Z.leb_spec (e_run s) 16);
      destruct (Z.ltb_spec (e_run s + 1 - 17) 2048);
      destruct (Z.ltb_spec (e_run s - 17) 2048); lia.
  - pose proof (payload_RPK_PRINT channels 128 (set_current s px)) as P.
    unfold payload_so_far in *. esimpl.
    rewrite RPK_PRINT_run, run_bytes_zero in P. cbn [length] in P.
    change (128 <? 128) with false in P. cbv iota in P.
    change (run_bytes channels 0 1 (e_buffer (RPK_PRINT channels 128 (set_current s px))))
      with [putc (PACKRUN 0 0)]. cbn [length]. lia.
  - rewrite payload_RPK_PRINT. unfold payload_so_far. esimpl.
    destruct (HASH px <? 128); lia.
  - pose proof (arg_width_bounds channels t Hch Ht) as Hw.
    unfold payload_so_far in *. esimpl.
    rewrite (run_bytes_length _ _ _ _ Hch Hbl Hs').
    assert (Ht0 : (t =? 0) = false) by (apply Z.eqb_neq; lia). rewrite Ht0.
    destruct Ha as [-> | [-> Hcase]].
    + pose proof (payload_RPK_PRINT channels 128 (set_current s px)) as P.
      unfold payload_so_far in P. esimpl.
      rewrite RPK_PRINT_run in *. rewrite run_bytes_zero in P. cbn [length] in P.
      change (128 <? 128) with false in P. cbv iota in P.
      cbn [Z.add Z.eqb]. lia.
    + esimpl. rewrite (run_bytes_length _ _ _ _ Hch Hb Hs).
      pose proof (run_shape_nonneg _ _ Hs).
      destruct (Z.eqb_spec (e_run s + 1) 0); [lia|].
      destruct (Z.eqb_spec (e_run s) 0) as [E0 | E0].
      * rewrite E0. lia.
      * destruct Hcase as [? | [Hty _]]; [contradiction|]. rewrite Hty, Ht0. lia.
Qed.

Lemma encode_row_payload (channels : Z) (s s' : enc_state) (ps : list color) :
  channels = 3 \/ channels = 4 -> enc_inv s ->
  encode_row channels s ps = Ok s' ->
  payload_so_far channels s'
  <= payload_so_far channels s + (channels + 1) * Z.of_nat (length ps).
Proof.
  intros Hch. revert s. induction ps as [|p ps IH]; intros s Hinv H; cbn [encode_row] in H.
  - injection H as <-. cbn [length]. lia.
  - destruct (encode_pixel channels s p) as [s1|] eqn:E; cbn [bind] in H; [|discriminate].
    pose proof (encode_pixel_payload _ _ _ _ Hch Hinv E).
    pose proof (IH s1 (encode_pixel_inv _ _ _ _ Hch Hinv E) H).
    cbn [length]. lia.
Qed.

(** X7: the payload is short.  For an image of two rows or more, the payload
    [rpk_encode] writes has at most [channels + 1] bytes for each pixel and
    one byte for the end-of-image flush. *)
Theorem payload_size_bound (channels : Z) (rows : list (list color)) (s : enc_state) :
  channels = 3 \/ channels = 4 -> (2 <= length rows)%nat ->
  rpk_encode channels (spng_decode_rows rows) = Ok s ->
  1 <= Z.of_nat (length (e_out s))
    <= (channels + 1) * Z.of_nat (length (concat rows)) + 1.
Proof.
  intros Hch H2 E. rewrite rpk_encode_image in E by exact H2.
  unfold encode_image, encode_pixels in E.
  destruct (encode_row channels enc_init (concat rows)) as [s1|] eqn:E1; cbn [bind] in E;
    [|discriminate].
  injection E as <-.
  pose proof (encode_row_payload _ _ _ _ Hch enc_inv_init E1) as P.
  pose proof (payload_RPK_PRINT channels 0 s1) as Q.
  unfold payload_so_far in *.
  rewrite RPK_PRINT_run, run_bytes_zero in Q. cbn [length] in Q.
  change (0 <? 128) with true in Q. cbv iota in Q.
  change (Z.of_nat (length (e_out enc_init))) with 0 in P.
  change (run_bytes channels (e_runtype enc_init) (e_run enc_init) (e_buffer enc_init))
    with (@nil Z) in P. cbn [length] in P. lia.
Qed.

Lemma payload_size_bound_witness :
  exists s,
    rpk_encode 4 (spng_decode_rows square_2x2) = Ok s /\
    1 <= Z.of_nat (length (e_out s)) <= (4 + 1) * 4 + 1.
Proof.
  eexists.
  assert (E : rpk_encode 4 (spng_decode_rows square_2x2) = Ok _)
    by (vm_compute; reflexivity).
  split; [exact E|].
  exact (payload_size_bound 4 square_2x2 _ (or_intror eq_refl) (le_n 2) E).
Defined.

(** ** What a RUN opcode can say *)

Lemma opcode_fields_range (cbyte : Z) :
  is_byte cbyte ->
  0 <= LRS (Z.land cbyte 0x60) 5 <= 3 /\ 0 <= Z.land cbyte 0x1F < 32 /\
  0 <= Z.land (Z.land cbyte 0x1F) 15 < 16 /\
  0 <= Z.land (Z.land (Z.land cbyte 0x1F) 15) 7 < 8.
Proof.
  intros H.
  assert (F : forallb (fun c =>
                (0 <=? LRS (Z.land c 0x60) 5) && (LRS (Z.land c 0x60) 5 <=? 3)
                && (0 <=? Z.land c 0x1F) && (Z.land c 0x1F <? 32)
                && (0 <=? Z.land (Z.land c 0x1F) 15) && (Z.land (Z.land c 0x1F) 15 <? 16)
                && (0 <=? Z.land (Z.land (Z.land c 0x1F) 15) 7)
                && (Z.land (Z.land (Z.land c 0x1F) 15) 7 <? 8)) (zrange 256) = true)
    by (vm_compute; reflexivity).
  pose proof (zrange_forall _ _ F cbyte H) as G. cbv beta in G.
  repeat (apply andb_prop in G; destruct G as [G ?]).
  repeat match goal with
         | X : (_ <=? _) = true |- _ => apply Z.leb_le in X
         | X : (_ <? _) = true |- _ => apply Z.ltb_lt in X
         end.
  lia.
Qed.

Lemma RPK_READ_1_inv (infile bs rest : list Z) (b : Z) :
  RPK_READ 1 infile = Some (b :: bs, rest) -> infile = b :: rest /\ bs = [].
Proof.
  intros H. apply RPK_READ_length in H. destruct H as [-> Hl].
  change (Z.to_nat 1) with 1%nat in Hl. cbn [length] in Hl.
  destruct bs; [auto | cbn [length] in Hl; lia].
Qed.

(** X8: the length a RUN opcode announces.  Whatever bytes follow, a RUN
    opcode gives a run type from 0 to 3 and a run of at least 1 pixel; a run of
    type 1, 2 or 3 has at most 32 pixels and takes no length byte, a run of
    repeats has at most 526352 = 2^19 + 2^11 + 16 pixels and takes at most two
    length bytes.  No input makes the decoder count a longer run. *)
Theorem read_run_bounds (cbyte : Z) (infile rest : list Z) (t r : Z) :
  is_byte cbyte -> Forall is_byte infile ->
  read_run cbyte infile = Some (t, r, rest) ->
  0 <= t <= 3 /\ 1 <= r <= 526352 /\
  (t <> 0 -> r <= 32 /\ rest = infile) /\
  exists used, infile = used ++ rest /\ (length used <= 2)%nat.
Proof.
  intros Hc Hin H.
  destruct (opcode_fields_range cbyte Hc) as (R1 & R2 & R3 & R4).
  unfold read_run in H.
  destruct (Z.eqb_spec (LRS (Z.land cbyte 96) 5) 0) as [E0 | E0]; cbn [andb] in H.
  - rewrite Z.geb_leb in H.
    destruct (Z.leb_spec 16 (Z.land cbyte 31)) as [E1 | E1].
    + rewrite Z.geb_leb in H.
      destruct (Z.leb_spec 8 (Z.land (Z.land cbyte 31) 15)) as [E2 | E2].
      * destruct (RPK_READ 1 infile) as [[[|b1 bs1] i1]|] eqn:Q1; try discriminate.
        apply RPK_READ_1_inv in Q1. destruct Q1 as [-> ->].
        destruct (RPK_READ 1 i1) as [[[|b2 bs2] i2]|] eqn:Q2; try discriminate.
        apply RPK_READ_1_inv in Q2. destruct Q2 as [-> ->].
        pose proof (Forall_inv Hin) as Hb1.
        pose proof (Forall_inv (Forall_inv_tail Hin)) as Hb2.
        assert (Hr : r = Z.lor (Z.shiftl (Z.lor (Z.shiftl
                       (Z.land (Z.land (Z.land cbyte 31) 15) 7) 8) b1 + 8) 8) b2 + 16 + 1)
          by congruence.
        assert (Ht : t = LRS (Z.land cbyte 96) 5) by congruence.
        assert (Hrest : rest = i2) by congruence.
        clear H. subst t r rest. unfold is_byte in *.
        rewrite lor_shiftl_add by (change (2 ^ 8) with 256; lia).
        rewrite lor_shiftl_add by (change (2 ^ 8) with 256; lia).
        change (2 ^ 8) with 256.
        split; [lia|]. split; [lia|]. split; [intros C; contradiction|].
        exists [b1; b2]. split; [reflexivity | cbn [length]; lia].
      * destruct (RPK_READ 1 infile) as [[[|b1 bs1] i1]|] eqn:Q1; try discriminate.
        apply RPK_READ_1_inv in Q1. destruct Q1 as [-> ->].
        pose proof (Forall_inv Hin) as Hb1.
        assert (Hr : r = Z.lor (Z.shiftl (Z.land (Z.land cbyte 31) 15) 8) b1 + 16 + 1)
          by congruence.
        assert (Ht : t = LRS (Z.land cbyte 96) 5) by congruence.
        assert (Hrest : rest = i1) by congruence.
        clear H. subst t r rest. unfold is_byte in *.
        rewrite lor_shiftl_add by (change (2 ^ 8) with 256; lia).
        change (2 ^ 8) with 256.
        split; [lia|]. split; [lia|]. split; [intros C; contradiction|].
        exists [b1]. split; [reflexivity | cbn [length]; lia].
    + injection H as <- <- <-.
      split; [lia|]. split; [lia|]. split; [intros C; contradiction|].
      exists []. split; [reflexivity | cbn [length]; lia].
  - injection H as <- <- <-.
    split; [lia|]. split; [lia|]. split; [intros _; split; [lia | reflexivity]|].
    exists []. split; [reflexivity | cbn [length]; lia].
Qed.

Lemma read_run_bounds_witness :
  read_run 0x9F [255; 255; 7] = Some (0, 526352, [7]) /\
  0 <= 0 <= 3 /\ 1 <= 526352 <= 526352.
Proof.
  split; [reflexivity|].
  assert (Hc : is_byte 0x9F) by (unfold is_byte; lia).
  assert (Hin : Forall is_byte [255; 255; 7])
    by (repeat constructor; unfold is_byte; lia).
  destruct (read_run_bounds 0x9F [255; 255; 7] [7] 0 526352 Hc Hin eq_refl)
    as (H1 & H2 & _).
  split; [exact H1 | exact H2].
Defined.

(** ** The arguments of one pixel *)

(** X9: arguments of a pixel.  The argument bytes the encoder buffers for a
    pixel [px] that follows [last] in a run of type 1 (one byte of four 2-bit
    differences), type 2 (two bytes of 5-, 6- and 5-bit differences) or type 3
    (the [channels] bytes of the pixel) are exactly what the decoder, standing
    at [last], needs to compute [px]; it reads these bytes and no more.  For
    3 channels this needs alpha 255 on both pixels, as the alpha byte is not
    sent. *)
Theorem pixel_args_roundtrip (channels t : Z) (px last : color) (rest : list Z) :
  channels = 3 \/ channels = 4 ->
  wf_color px -> wf_color last ->
  (channels = 3 -> alpha px = 255 /\ alpha last = 255) ->
  arg_ok t px last ->
  run_color channels t last (new_args channels t px last ++ rest) = Some (px, rest).
Proof. exact (run_color_new_args channels t px last rest). Qed.

Lemma pixel_args_roundtrip_witness :
  new_args 4 2 (mkColor 20 40 30 255) (mkColor 3 9 1 255) = [188; 63] /\
  run_color 4 2 (mkColor 3 9 1 255) [188; 63; 7] = Some (mkColor 20 40 30 255, [7]).
Proof.
  split; [reflexivity|].
  apply (pixel_args_roundtrip 4 2 (mkColor 20 40 30 255) (mkColor 3 9 1 255) [7]).
  - right; reflexivity.
  - repeat split; vm_compute; discriminate.
  - repeat split; vm_compute; discriminate.
  - intros C; discriminate C.
  - right; left. split; reflexivity.
Defined.

(** X10: opcode of a run of type 1, 2 or 3.  [PACKRUN(t, r-1)] for a run of
    type [t] from 1 to 3 and length [r] from 1 to 32 is a byte from 0xA0 to
    0xFF, and the decoder reads the type [t] and the length [r] back from it
    without reading a further byte. *)
Theorem run_opcode_roundtrip (t r : Z) (infile : list Z) :
  1 <= t <= 3 -> 1 <= r <= 32 ->
  0xA0 <= putc (PACKRUN t (r - 1)) <= 0xFF /\
  putc (PACKRUN t (r - 1)) = 128 + 32 * t + (r - 1) /\
  read_run (putc (PACKRUN t (r - 1))) infile = Some (t, r, infile).
Proof.
  intros Ht Hr. destruct (packrun_fields t r Ht Hr) as (P1 & P2 & P3).
  assert (E : putc (PACKRUN t (r - 1)) = 128 + 32 * t + (r - 1)).
  { unfold putc, PACKRUN. rewrite Z.shiftl_mul_pow2 by lia. change (2 ^ 5) with 32.
    rewrite Z.mod_small by lia. lia. }
  split; [lia|]. split; [exact E|].
  rewrite read_run_short by (left; lia). rewrite P2, P3.
  replace (r - 1 + 1) with r by lia. reflexivity.
Qed.

Lemma run_opcode_roundtrip_witness :
  putc (PACKRUN 3 31) = 0xFF /\ read_run 0xFF [1; 2] = Some (3, 32, [1; 2]).
Proof.
  destruct (run_opcode_roundtrip 3 32 [1; 2] ltac:(lia) ltac:(lia)) as (_ & H1 & H2).
  split; [exact H1 | exact H2].
Defined.

(** ** Comparisons on the 32-bit view *)

Lemma small_fields_small_diff (d : color) :
  0 <= red d < 4 -> 0 <= green d < 4 -> 0 <= blue d < 4 -> 0 <= alpha d < 4 ->
  small_diff d = true.
Proof.
  intros Hr Hg Hb Ha. destruct d as [r g b a]. cbn [red green blue alpha] in *.
  assert (Er : r = 0 \/ r = 1 \/ r = 2 \/ r = 3) by lia.
  assert (Eg : g = 0 \/ g = 1 \/ g = 2 \/ g = 3) by lia.
  assert (Eb : b = 0 \/ b = 1 \/ b = 2 \/ b = 3) by lia.
  assert (Ea : a = 0 \/ a = 1 \/ a = 2 \/ a = 3) by lia.
  destruct Er as [-> | [-> | [-> | ->]]], Eg as [-> | [-> | [-> | ->]]],
    Eb as [-> | [-> | [-> | ->]]], Ea as [-> | [-> | [-> | ->]]];
    vm_compute; reflexivity.
Qed.

Lemma type2_fields_type2_diff (d : color) :
  0 <= red d < 32 -> 0 <= green d < 64 -> 0 <= blue d < 32 -> alpha d = 0 ->
  type2_diff d = true.
Proof.
  intros Hr Hg Hb Ha. destruct d as [r g b a]. cbn [red green blue alpha] in *. subst a.
  assert (F : forallb (fun r => forallb (fun g =>
                forallb (fun b => type2_diff (mkColor r g b 0)) (zrange 32))
                (zrange 64)) (zrange 32) = true) by (vm_compute; reflexivity).
  apply (zrange_forall (fun b => type2_diff (mkColor r g b 0)) 32); [|exact Hb].
  apply (zrange_forall2 (fun r g => forallb (fun b => type2_diff (mkColor r g b 0))
                                       (zrange 32)) 32 64 F r g Hr Hg).
Qed.

Lemma lxor_byte (a b : Z) : is_byte a -> is_byte b -> is_byte (Z.lxor a b).
Proof.
  unfold is_byte. intros Ha Hb. split.
  - apply Z.lxor_nonneg. lia.
  - destruct (Z.eq_dec (Z.lxor a b) 0) as [-> | Hne]; [lia|].
    assert (Hpos : 0 < Z.lxor a b) by (pose proof (proj2 (Z.lxor_nonneg a b)); lia).
    apply Z.log2_lt_cancel. change (Z.log2 256) with 8.
    pose proof (Z.log2_lxor a b ltac:(lia) ltac:(lia)) as L.
    assert (Z.log2 a < 8).
    { destruct (Z.eq_dec a 0) as [-> | ?]; [cbn; lia|].
      apply Z.log2_lt_pow2; [lia | change (2 ^ 8) with 256; lia]. }
    assert (Z.log2 b < 8).
    { destruct (Z.eq_dec b 0) as [-> | ?]; [cbn; lia|].
      apply Z.log2_lt_pow2; [lia | change (2 ^ 8) with 256; lia]. }
    lia.
Qed.

(** X11: the tests on [rgba].  On pixels made of bytes, [EQCOLOR] holds exactly
    of equal pixels; the test [!(diff.rgba&0xFCFCFCFC)] holds exactly when
    each of the four bytes differs from the previous pixel's in its two low
    bits at most; and the test [!(diff.rgba&type2mask.rgba)] holds exactly when
    red and blue differ in their five low bits at most, green in its six low
    bits at most, and alpha is the same. *)
Theorem rgba_tests_bytewise (a b : color) :
  wf_color a -> wf_color b ->
  (EQCOLOR a b = true <-> a = b) /\
  (small_diff (color_xor a b) = true <->
   Z.lxor (red a) (red b) < 4 /\ Z.lxor (green a) (green b) < 4 /\
   Z.lxor (blue a) (blue b) < 4 /\ Z.lxor (alpha a) (alpha b) < 4) /\
  (type2_diff (color_xor a b) = true <->
   Z.lxor (red a) (red b) < 32 /\ Z.lxor (green a) (green b) < 64 /\
   Z.lxor (blue a) (blue b) < 32 /\ alpha a = alpha b).
Proof.
  intros Ha Hb.
  pose proof (color_xor_fields a b Ha Hb) as Hx.
  pose proof (color_xor_wf a b) as Hwf.
  pose proof Ha as Ha'. pose proof Hb as Hb'.
  destruct Ha as (A1 & A2 & A3 & A4), Hb as (B1 & B2 & B3 & B4).
  pose proof (lxor_byte _ _ A1 B1) as L1. pose proof (lxor_byte _ _ A2 B2) as L2.
  pose proof (lxor_byte _ _ A3 B3) as L3. pose proof (lxor_byte _ _ A4 B4) as L4.
  unfold is_byte in L1, L2, L3, L4.
  split; [|split].
  - split.
    + apply EQCOLOR_eq; assumption.
    + intros ->. apply EQCOLOR_refl.
  - split.
    + intros H. destruct (small_diff_fields _ Hwf H) as (F1 & F2 & F3 & F4).
      rewrite Hx in F1, F2, F3, F4. cbn [red green blue alpha] in *. lia.
    + intros (F1 & F2 & F3 & F4). rewrite Hx.
      apply small_fields_small_diff; cbn [red green blue alpha]; lia.
  - split.
    + intros H. destruct (type2_diff_fields _ Hwf H) as (F1 & F2 & F3 & F4).
      rewrite Hx in F1, F2, F3, F4. cbn [red green blue alpha] in *.
      apply Z.lxor_eq in F4. repeat split; try lia; exact F4.
    + intros (F1 & F2 & F3 & F4). rewrite Hx.
      apply type2_fields_type2_diff; cbn [red green blue alpha]; try lia.
      rewrite F4. apply Z.lxor_nilpotent.
Qed.

Lemma rgba_tests_bytewise_witness :
  small_diff (color_xor (mkColor 9 8 7 255) (mkColor 10 8 4 255)) = true /\
  type2_diff (color_xor (mkColor 9 8 7 255) (mkColor 10 8 4 254)) = false.
Proof.
  assert (W1 : wf_color (mkColor 9 8 7 255)) by (repeat split; vm_compute; discriminate).
  assert (W2 : wf_color (mkColor 10 8 4 255)) by (repeat split; vm_compute; discriminate).
  destruct (rgba_tests_bytewise _ _ W1 W2) as (_ & H & _).
  split; [|reflexivity].
  apply (proj2 H). repeat split; vm_compute; reflexivity.
Defined.

(** ** Channels and colour types *)

(** X12: channels written.  Whatever the colour type of the PNG file,
    [rpk_write] stores 3 or 4 in the channel byte: 4 exactly when bit 2 of the
    colour type (the alpha bit) is set.  The colour type [rpk_read] derives
    from this byte, [4*channels-10], is 2 (truecolour) for 3 and 6 (truecolour
    with alpha) for 4, so greyscale and palette images come back as
    truecolour. *)
Theorem channels_written (p : png_source) :
  (desc_channels p = 3 \/ desc_channels p = 4) /\
  (desc_channels p = 4 <-> Z.testbit (ihdr_color_type p) 2 = true) /\
  (4 * desc_channels p - 10) mod 256
  = (if Z.testbit (ihdr_color_type p) 2 then 6 else 2).
Proof.
  assert (E : desc_channels p = if Z.testbit (ihdr_color_type p) 2 then 4 else 3).
  { unfold desc_channels.
    pose proof (Z.land_ones (Z.shiftr (ihdr_color_type p) 2) 1 ltac:(lia)) as L.
    change (Z.ones 1) with 1 in L. change (2 ^ 1) with 2 in L. rewrite L.
    rewrite <- Z.bit0_mod.
    pose proof (Z.shiftr_spec (ihdr_color_type p) 2 0 ltac:(lia)) as S.
    change (0 + 2) with 2 in S. rewrite S.
    destruct (Z.testbit (ihdr_color_type p) 2); reflexivity. }
  rewrite E. destruct (Z.testbit (ihdr_color_type p) 2).
  - split; [right; reflexivity|]. split; [split; reflexivity | reflexivity].
  - split; [left; reflexivity|]. split; [split; discriminate | reflexivity].
Qed.

(** X13: channel bytes that pass the header check.  Let the PNG writer accept,
    for the width and height of the header, exactly the colour types 0, 2, 3,
    4 and 6 of PNG.  Then [rpk_read] fails after the 13 header bytes, leaving
    the payload unread, for every channel byte other than 3, 4, 67, 68, 131,
    132, 195 and 196.  For these eight values the colour type
    [4*channels-10], cut to 8 bits, is 2 or 6 and the writer accepts the
    header: the check does not stop channel counts above 4.  For 3 and 4
    [rpk_read] returns what [rpk_decode] gives on the payload: [*outlen] when
    it returns 0, [-1] otherwise. *)
Theorem channel_byte_check (spng_set_ihdr : Z -> Z -> Z -> Z) (spng_encode_image : Z)
    (w0 w1 w2 w3 h0 h1 h2 h3 c cs : Z) (payload : list Z) :
  (forall ct, spng_set_ihdr (ntohl w0 w1 w2 w3) (ntohl h0 h1 h2 h3) ct = 0
              <-> In ct [0; 2; 3; 4; 6]) ->
  spng_encode_image = 0 -> is_byte c ->
  let file := magic_rpk ++ [w0; w1; w2; w3; h0; h1; h2; h3; c; cs] ++ payload in
  let r := rpk_decode payload (Z.to_nat (ntohl w0 w1 w2 w3))
             (spng_encode_rets (Z.to_nat (ntohl h0 h1 h2 h3))) c in
  (c mod 64 <> 3 /\ c mod 64 <> 4 ->
   rpk_read spng_set_ihdr spng_encode_image file = mkReadResult (-1) [] payload) /\
  (c mod 64 = 3 \/ c mod 64 = 4 <->
   spng_set_ihdr (ntohl w0 w1 w2 w3) (ntohl h0 h1 h2 h3) ((4 * c - 10) mod 256) = 0) /\
  (c mod 64 = 3 \/ c mod 64 = 4 ->
   (4 * c - 10) mod 256 = 2 \/ (4 * c - 10) mod 256 = 6) /\
  (c = 3 \/ c = 4 ->
   rpk_read spng_set_ihdr spng_encode_image file
   = mkReadResult (if r_ret r =? 0 then r_outlen r else -1) (r_rows r) (r_rest r)).
Proof.
  intros Hset Himg Hc file r. subst file r.
  assert (F : forallb (fun c =>
                Bool.eqb (existsb (Z.eqb ((4 * c - 10) mod 256)) [0; 2; 3; 4; 6])
                         ((c mod 64 =? 3) || (c mod 64 =? 4)) &&
                Bool.eqb (existsb (Z.eqb ((4 * c - 10) mod 256)) [0; 2; 3; 4; 6])
                         (existsb (Z.eqb ((4 * c - 10) mod 256)) [2; 6]))
                (zrange 256) = true)
    by (vm_compute; reflexivity).
  pose proof (zrange_forall _ _ F c Hc) as G. cbv beta in G.
  apply andb_prop in G. destruct G as [G G26].
  apply Bool.eqb_prop in G. apply Bool.eqb_prop in G26.
  assert (Hct : In ((4 * c - 10) mod 256) [0; 2; 3; 4; 6]
                <-> (c mod 64 = 3 \/ c mod 64 = 4)).
  { split.
    - intros H.
      assert (X : existsb (Z.eqb ((4 * c - 10) mod 256)) [0; 2; 3; 4; 6] = true).
      { apply existsb_exists. exists ((4 * c - 10) mod 256). split; [exact H|].
        apply Z.eqb_refl. }
      rewrite G in X. apply orb_prop in X.
      destruct X as [X | X]; apply Z.eqb_eq in X; auto.
    - intros H.
      assert (X : (c mod 64 =? 3) || (c mod 64 =? 4) = true).
      { destruct H as [H | H]; rewrite H; reflexivity. }
      rewrite <- G in X. apply existsb_exists in X. destruct X as (x & Hx & Ex).
      apply Z.eqb_eq in Ex. subst x. exact Hx. }
  unfold rpk_read, magic_rpk.
  cbn [app firstn skipn length Nat.eqb negb orb bytes_eqb Z.eqb Pos.eqb andb].
  split; [|split; [|split]].
  - intros [N3 N4].
    destruct (Z.eqb_spec (spng_set_ihdr (ntohl w0 w1 w2 w3) (ntohl h0 h1 h2 h3)
                            ((4 * c - 10) mod 256)) 0) as [E | E].
    + exfalso. apply Hset in E. apply Hct in E. destruct E; contradiction.
    + reflexivity.
  - rewrite Hset. symmetry. exact Hct.
  - intros H. apply Hct in H.
    assert (X : existsb (Z.eqb ((4 * c - 10) mod 256)) [2; 6] = true).
    { rewrite <- G26. apply existsb_exists. exists ((4 * c - 10) mod 256).
      split; [exact H | apply Z.eqb_refl]. }
    apply existsb_exists in X. destruct X as (x & Hx & Ex).
    apply Z.eqb_eq in Ex. subst x.
    destruct Hx as [Hx | [Hx | []]]; [left | right]; symmetry; exact Hx.
  - intros H.
    assert (H' : c mod 64 = 3 \/ c mod 64 = 4) by (destruct H as [-> | ->]; auto).
    apply Hct in H'. apply Hset in H'. rewrite H', Himg. cbn [Z.eqb negb].
    destruct (r_ret _ =? 0); reflexivity.
Qed.

(** A PNG writer that accepts exactly the colour types of PNG. *)
Definition spng_accepts (ct : Z) : Z :=
  if existsb (Z.eqb ct) [0; 2; 3; 4; 6] then 0 else 1.

Lemma spng_accepts_spec (ct : Z) : spng_accepts ct = 0 <-> In ct [0; 2; 3; 4; 6].
Proof.
  unfold spng_accepts. split.
  - destruct (existsb (Z.eqb ct) [0; 2; 3; 4; 6]) eqn:E; [|discriminate].
    intros _. apply existsb_exists in E. destruct E as (x & Hx & Ex).
    apply Z.eqb_eq in Ex. subst x. exact Hx.
  - intros H.
    assert (E : existsb (Z.eqb ct) [0; 2; 3; 4; 6] = true).
    { apply existsb_exists. exists ct. split; [exact H | apply Z.eqb_refl]. }
    rewrite E. reflexivity.
Qed.

Lemma channel_byte_check_witness :
  rpk_read (fun _ _ ct => spng_accepts ct) 0
           (magic_rpk ++ [0; 0; 0; 1; 0; 0; 0; 1; 5; 0] ++ [0xE0; 1; 2; 3; 4])
  = mkReadResult (-1) [] [0xE0; 1; 2; 3; 4] /\
  spng_accepts ((4 * 67 - 10) mod 256) = 0 /\
  rpk_read (fun _ _ ct => spng_accepts ct) 0
           (magic_rpk ++ [0; 0; 0; 1; 0; 0; 0; 1; 4; 0] ++ [0xE0; 1; 2; 3; 4])
  = mkReadResult 4 [[1; 2; 3; 4]] [].
Proof.
  split; [|split].
  - refine (proj1 (channel_byte_check (fun _ _ ct => spng_accepts ct) 0
                     0 0 0 1 0 0 0 1 5 0 [0xE0; 1; 2; 3; 4]
                     spng_accepts_spec eq_refl _) _).
    + unfold is_byte. lia.
    + split; vm_compute; discriminate.
  - refine (proj1 (proj1 (proj2 (channel_byte_check (fun _ _ ct => spng_accepts ct) 0
                     0 0 0 1 0 0 0 1 67 0 [0xE0; 1; 2; 3; 4]
                     spng_accepts_spec eq_refl _))) _).
    + unfold is_byte. lia.
    + left. reflexivity.
  - refine (proj2 (proj2 (proj2 (channel_byte_check (fun _ _ ct => spng_accepts ct) 0
                     0 0 0 1 0 0 0 1 4 0 [0xE0; 1; 2; 3; 4]
                     spng_accepts_spec eq_refl _))) _).
    + unfold is_byte. lia.
    + right. reflexivity.
Defined.

(** ** Rows that reach the pixel loop *)

(** X14: rows the [while] loop takes.  When the first call of
    [spng_decode_row] returns a code that is not 0 once stored in
    [uint8_t ret], that is, not a multiple of 256, [SPNG_EOI] included,
    [rpk_encode] encodes no pixel and writes the single byte 0x00; this is what
    an image of one row gives.  A first code that is a multiple of 256 is
    taken for 0: the row goes through the pixel loop.  For an image of two
    rows or more every row goes through the pixel loop, in order, and the loop
    ends at the call after the last row. *)
Theorem row_loop_coverage (channels : Z) :
  (forall ret row calls, ret mod 256 <> 0 ->
     rpk_encode channels ((ret, row) :: calls) = encode_image channels [] /\
     exists s, encode_image channels [] = Ok s /\ e_out s = [0]) /\
  (forall ret row calls, ret mod 256 = 0 ->
     rpk_encode channels ((ret, row) :: calls)
     = rpk_encode channels ((0, row) :: calls)) /\
  (forall row, rpk_encode channels (spng_decode_rows [row]) = encode_image channels []) /\
  (forall rows, (2 <= length rows)%nat ->
     rpk_encode channels (spng_decode_rows rows) = encode_image channels (concat rows)).
Proof.
  split; [|split; [|split]].
  - intros ret row calls Hret. split.
    + unfold rpk_encode. cbn [encode_rows].
      apply Z.eqb_neq in Hret. rewrite Hret. reflexivity.
    + eexists. split; reflexivity.
  - intros ret row calls Hret. unfold rpk_encode. cbn [encode_rows].
    rewrite Hret. reflexivity.
  - intros row. reflexivity.
  - intros rows. apply rpk_encode_image.
Qed.

Lemma row_loop_coverage_witness :
  rpk_encode 4 ((SPNG_EOI, [mkColor 1 2 3 4]) :: []) = encode_image 4 [] /\
  rpk_encode 4 [(256, [mkColor 1 2 3 4]); (SPNG_EOI, [mkColor 5 6 7 8])]
  = rpk_encode 4 [(0, [mkColor 1 2 3 4]); (SPNG_EOI, [mkColor 5 6 7 8])] /\
  rpk_encode 4 (spng_decode_rows column_1x2) = encode_image 4 (concat column_1x2).
Proof.
  destruct (row_loop_coverage 4) as (H1 & H2 & _ & H3).
  split; [|split].
  - apply (H1 SPNG_EOI [mkColor 1 2 3 4] []). discriminate.
  - apply (H2 256 [mkColor 1 2 3 4] [(SPNG_EOI, [mkColor 5 6 7 8])]). reflexivity.
  - apply (H3 column_1x2). apply le_n.
Defined.

(** ** What a successful or failed decode delivers *)

Lemma decode_rows_shape (channels : Z) (width : nat) :
  channels = 3 \/ channels = 4 ->
  forall (n : nat) (d : dec_state) (infile : list Z) (outlen : Z) (acc : list (list Z)),
  let r := decode_rows channels width (spng_encode_rets (S n)) d infile outlen acc in
  exists new,
    r_rows r = acc ++ new /\
    Forall (fun row => length row = (width * Z.to_nat channels)%nat) new /\
    ((r_ret r = 0 /\ length new = S n /\
      r_outlen r = outlen + channels * Z.of_nat width * Z.of_nat (S n)) \/
     (r_ret r = -1 /\ (length new <= n)%nat)).
Proof.
  intros Hch. induction n as [|n IH]; intros d infile outlen acc.
  - change (spng_encode_rets 1) with [SPNG_EOI]. cbn [decode_rows].
    destruct (decode_pixels channels width d infile) as [[[d1 row] i1]|] eqn:E.
    + change (SPNG_EOI =? 0) with false. change (SPNG_EOI =? SPNG_EOI) with true.
      cbv beta iota zeta. exists [row]. cbn [r_rows r_outlen r_ret length].
      split; [reflexivity|]. split.
      * constructor; [|constructor]. exact (decode_pixels_out_length _ _ _ _ _ _ _ Hch E).
      * left. split; [reflexivity|]. split; [reflexivity | lia].
    + cbv zeta. exists []. cbn [r_rows r_outlen r_ret length].
      split; [symmetry; apply app_nil_r|]. split; [constructor|].
      right; split; [reflexivity | lia].
  - rewrite spng_encode_rets_cons. cbn [decode_rows].
    destruct (decode_pixels channels width d infile) as [[[d1 row] i1]|] eqn:E.
    + change (0 =? 0) with true. cbv beta iota zeta.
      destruct (IH d1 i1 (outlen + channels * Z.of_nat width) (acc ++ [row]))
        as (new & Hrows & Hall & Hret).
      cbv zeta in Hrows, Hret.
      exists (row :: new). split; [rewrite Hrows, <- app_assoc; reflexivity|].
      split.
      * constructor; [|exact Hall].
        exact (decode_pixels_out_length _ _ _ _ _ _ _ Hch E).
      * cbn [length]. destruct Hret as [(R & L & O) | (R & L)]; [left | right].
        -- split; [exact R|]. split; [lia|]. rewrite O. lia.
        -- split; [exact R | lia].
    + cbv zeta. exists []. cbn [r_rows r_outlen r_ret length].
      split; [symmetry; apply app_nil_r|]. split; [constructor|].
      right; split; [reflexivity | lia].
Qed.

(** X15: rows delivered by the decoder.  For 3 or 4 channels and a PNG writer
    that takes [height >= 1] rows, [rpk_decode] returns 0 or -1 on every
    input, never the writer's error code.  Every row it hands over has
    [width*channels] bytes, and the return value is 0 exactly when all
    [height] rows were handed over, [*outlen] being [channels*width*height]
    then: a truncated input yields -1 and fewer rows. *)
Theorem decode_delivers_rows (channels : Z) (width height : nat) (infile : list Z) :
  channels = 3 \/ channels = 4 -> (1 <= height)%nat ->
  let r := rpk_decode infile width (spng_encode_rets height) channels in
  (r_ret r = 0 \/ r_ret r = -1) /\
  Forall (fun row => length row = (width * Z.to_nat channels)%nat) (r_rows r) /\
  (r_ret r = 0 <-> length (r_rows r) = height) /\
  (r_ret r = 0 -> r_outlen r = channels * Z.of_nat width * Z.of_nat height).
Proof.
  intros Hch Hh. destruct height as [|n]; [lia|]. unfold rpk_decode.
  destruct (decode_rows_shape channels width Hch n dec_init infile 0 [])
    as (new & Hrows & Hall & Hret).
  cbv zeta in *. cbn [app] in Hrows. rewrite Hrows.
  split; [destruct Hret as [(R & _) | (R & _)]; auto|].
  split; [exact Hall|]. split.
  - destruct Hret as [(R & L & _) | (R & L)]; rewrite R; split; intros H;
      try reflexivity; try exact L; try discriminate; lia.
  - intros R0. destruct Hret as [(R & L & O) | (R & L)]; [|rewrite R in R0; discriminate].
    rewrite O. lia.
Qed.

Lemma decode_delivers_rows_witness :
  let r := rpk_decode [0xE0; 1; 2; 3; 4] 1 (spng_encode_rets 1) 4 in
  (r_ret r = 0 \/ r_ret r = -1) /\
  Forall (fun row => length row = (1 * Z.to_nat 4)%nat) (r_rows r) /\
  (r_ret r = 0 <-> length (r_rows r) = 1%nat) /\
  (r_ret r = 0 -> r_outlen r = 4 * Z.of_nat 1 * Z.of_nat 1).
Proof.
  apply (decode_delivers_rows 4 1 1 [0xE0; 1; 2; 3; 4]).
  - right; reflexivity.
  - apply le_n.
Defined.

(** ** Where the two caches are equal *)















(* ================================================================= *)
(** * The converter, [main] of rpkconv.c *)

From Stdlib Require Import String Ascii.

Section Conv.

Local Open Scope string_scope.

(** [#define STR_ENDS_WITH(S, E) (strcmp(S + strlen(S) - (sizeof(E)-1), E) == 0)].
    For a string shorter than [E] the pointer lies before the start of the
    string and the comparison is undefined: [None]. *)
Definition STR_ENDS_WITH (S E : string) : option bool :=
  if (String.length S <? String.length E)%nat then None
  else Some (String.eqb (substring (String.length S - String.length E)
                                   (String.length E) S) E).

(** What [main] does before it returns: one of the three messages, or a call
    of [rpk_write] or [rpk_read] on two file names. *)
Inductive main_step : Type :=
| PrintUsage (prog : string)
| PrintNeedRpk
| PrintNeedPng
| CallWrite (infile outfile : string)
| CallRead (infile outfile : string).

(** A [size_t], 64 bits wide. *)
Definition size_t (x : Z) : Z := x mod 18446744073709551616.

(** The [size_t] that [rpk_write(infile, outfile)] and [rpk_read(infile,
    outfile)] return on the files at hand ([return -1] is [size_t (-1)]). *)
Variable write_ret : string -> string -> Z.
Variable read_ret : string -> string -> Z.

(** [main]: the step taken and the exit code; [None] where the behaviour is
    undefined ([argv[0]] missing, or a file name shorter than four
    characters). *)
Definition main (argv : list string) : option (main_step * Z) :=
  match argv with
  | [] => None
  | prog :: a1 :: a2 :: _ =>
    match STR_ENDS_WITH a1 ".png" with
    | None => None
    | Some true =>
      match STR_ENDS_WITH a2 ".rpk" with
      | None => None
      | Some false => Some (PrintNeedRpk, 1%Z)
      | Some true =>
        Some (CallWrite a1 a2, Z.b2z (size_t (write_ret a1 a2) <? 0)%Z)
      end
    | Some false =>
      match STR_ENDS_WITH a2 ".png" with
      | None => None
      | Some false => Some (PrintNeedPng, 1%Z)
      | Some true =>
        Some (CallRead a1 a2, Z.b2z (size_t (read_ret a1 a2) <? 0)%Z)
      end
    end
  | prog :: _ => Some (PrintUsage prog, 1%Z)
  end.

Definition is_call (s : main_step) : bool :=
  match s with
  | CallWrite _ _ | CallRead _ _ => true
  | _ => false
  end.

Lemma substring_all (s : string) : substring 0 (String.length s) s = s.
Proof. induction s as [|c s IH]; [reflexivity|]. cbn. rewrite IH. reflexivity. Qed.

Lemma substring_append (b e : string) (m : nat) :
  substring (String.length b) m (b ++ e) = substring 0 m e.
Proof. induction b as [|c b IH]; [reflexivity|]. cbn. exact IH. Qed.

Lemma length_append (b e : string) :
  String.length (b ++ e) = (String.length b + String.length e)%nat.
Proof. induction b as [|c b IH]; [reflexivity|]. cbn. rewrite IH. reflexivity. Qed.

Lemma substring_split (s : string) :
  forall n, (n <= String.length s)%nat ->
  s = substring 0 n s ++ substring n (String.length s - n) s.
Proof.
  induction s as [|c s IH]; intros n Hn.
  - cbn in Hn. assert (n = 0%nat) by lia. subst n. reflexivity.
  - destruct n as [|n].
    + rewrite Nat.sub_0_r, substring_all. reflexivity.
    + cbn in Hn. cbn [substring append String.length Nat.sub].
      f_equal. apply IH. lia.
Qed.

Lemma STR_ENDS_WITH_true (S E : string) :
  STR_ENDS_WITH S E = Some true <-> exists b, S = b ++ E.
Proof.
  unfold STR_ENDS_WITH. split.
  - destruct (Nat.ltb_spec (String.length S) (String.length E)) as [L | L];
      [discriminate|].
    intros H. injection H as H. apply String.eqb_eq in H.
    exists (substring 0 (String.length S - String.length E) S).
    pose proof (substring_split S (String.length S - String.length E) ltac:(lia)) as P.
    replace (String.length S - (String.length S - String.length E))%nat
      with (String.length E) in P by lia.
    rewrite H in P. exact P.
  - intros [b ->]. rewrite length_append.
    destruct (Nat.ltb_spec (String.length b + String.length E) (String.length E))
      as [L | L]; [lia|].
    replace (String.length b + String.length E - String.length E)%nat
      with (String.length b) by lia.
    rewrite substring_append, substring_all, String.eqb_refl. reflexivity.
Qed.

Lemma STR_ENDS_WITH_false (S E : string) :
  (String.length E <= String.length S)%nat -> (forall b, S <> b ++ E) ->
  STR_ENDS_WITH S E = Some false.
Proof.
  intros L N.
  destruct (STR_ENDS_WITH S E) as [[|]|] eqn:H.
  - apply STR_ENDS_WITH_true in H. destruct H as [b Hb]. destruct (N b Hb).
  - reflexivity.
  - unfold STR_ENDS_WITH in H.
    destruct (Nat.ltb_spec (String.length S) (String.length E)); [lia | discriminate].
Qed.

(** X16: exit code of the converter.  [main] returns 0 or 1.  It returns 1
    exactly when it prints a message and calls no codec function; after a call
    of [rpk_write] or [rpk_read] it returns 0 whatever the call returned, a
    failure ([-1]) included, because the [size_t] result is compared with
    [< 0]. *)
Theorem main_exit_code (argv : list string) (step : main_step) (code : Z) :
  main argv = Some (step, code) ->
  (is_call step = true -> code = 0%Z) /\ (is_call step = false -> code = 1%Z).
Proof.
  assert (Hs : forall x, (size_t x <? 0)%Z = false).
  { intros x. unfold size_t. apply Z.ltb_ge.
    apply Z.mod_pos_bound. reflexivity. }
  unfold main. intros H.
  destruct argv as [|prog [|a1 [|a2 rest]]]; try discriminate;
    try (injection H as <- <-; split; [discriminate | reflexivity]).
  destruct (STR_ENDS_WITH a1 ".png") as [[|]|]; [| |discriminate].
  - destruct (STR_ENDS_WITH a2 ".rpk") as [[|]|]; [| |discriminate].
    + rewrite Hs in H. injection H as <- <-. split; [reflexivity | discriminate].
    + injection H as <- <-. split; [discriminate | reflexivity].
  - destruct (STR_ENDS_WITH a2 ".png") as [[|]|]; [| |discriminate].
    + rewrite Hs in H. injection H as <- <-. split; [reflexivity | discriminate].
    + injection H as <- <-. split; [discriminate | reflexivity].
Qed.

(** X17: which codec the converter calls.  With at least two file names (further
    arguments are ignored): an input name ending in [.png] with an output name
    ending in [.rpk] calls [rpk_write]; an input name of four characters or
    more that does not end in [.png], whatever its extension, with an output
    name ending in [.png] calls [rpk_read]; the same input with an output name
    of four characters or more not ending in [.png] gives the message and exit
    code 1. *)
Theorem main_dispatch (prog : string) (rest : list string) :
  (forall b1 b2,
     main (prog :: (b1 ++ ".png") :: (b2 ++ ".rpk") :: rest)
     = Some (CallWrite (b1 ++ ".png") (b2 ++ ".rpk"), 0%Z)) /\
  (forall a1 b2, (4 <= String.length a1)%nat -> (forall b, a1 <> b ++ ".png") ->
     main (prog :: a1 :: (b2 ++ ".png") :: rest)
     = Some (CallRead a1 (b2 ++ ".png"), 0%Z)) /\
  (forall a1 a2, (4 <= String.length a1)%nat -> (forall b, a1 <> b ++ ".png") ->
     (4 <= String.length a2)%nat -> (forall b, a2 <> b ++ ".png") ->
     main (prog :: a1 :: a2 :: rest) = Some (PrintNeedPng, 1%Z)).
Proof.
  assert (Hs : forall x, (size_t x <? 0)%Z = false).
  { intros x. unfold size_t. apply Z.ltb_ge.
    apply Z.mod_pos_bound. reflexivity. }
  split; [|split].
  - intros b1 b2. unfold main.
    rewrite (proj2 (STR_ENDS_WITH_true (b1 ++ ".png") ".png"))
      by (exists b1; reflexivity).
    rewrite (proj2 (STR_ENDS_WITH_true (b2 ++ ".rpk") ".rpk"))
      by (exists b2; reflexivity).
    rewrite Hs. reflexivity.
  - intros a1 b2 L N. unfold main.
    rewrite (STR_ENDS_WITH_false a1 ".png" L N).
    rewrite (proj2 (STR_ENDS_WITH_true (b2 ++ ".png") ".png"))
      by (exists b2; reflexivity).
    rewrite Hs. reflexivity.
  - intros a1 a2 L1 N1 L2 N2. unfold main.
    rewrite (STR_ENDS_WITH_false a1 ".png" L1 N1).
    rewrite (STR_ENDS_WITH_false a2 ".png" L2 N2). reflexivity.
Qed.

End Conv.

Lemma main_exit_code_witness :
  (is_call (CallRead "a.rpk" "b.png") = true -> 0 = 0) /\
  (is_call (CallRead "a.rpk" "b.png") = false -> 0 = 1).
Proof.
  apply (main_exit_code (fun _ _ => 0) (fun _ _ => -1)
                        ["rpkconv"; "a.rpk"; "b.png"]%string
                        (CallRead "a.rpk" "b.png") 0).
  reflexivity.
Defined.

Lemma main_dispatch_witness :
  main (fun _ _ => 0) (fun _ _ => -1) ["rpkconv"; "photo.jpg"; "out.png"]%string
  = Some (CallRead "photo.jpg" "out.png", 0).
Proof.
  destruct (main_dispatch (fun _ _ => 0) (fun _ _ => -1) "rpkconv" []) as (_ & H & _).
  apply (H "photo.jpg"%string "out"%string).
  - cbn. lia.
  - intros b E.
    assert (X : STR_ENDS_WITH "photo.jpg" ".png" = Some true)
      by (apply STR_ENDS_WITH_true; exists b; exact E).
    vm_compute in X. discriminate.
Defined.
